(** * Letarette indexer core: the index store and the update cycle

    A shallow embedding of [internal/letarette/db.go] (the SQL store
    operations behind the [Database] interface) and of the indexer update
    cycle ([runUpdateCycle], [requestNextChunk], [requestDocuments]).

    Tables are lists of rows.  The order of a list stands for the order in
    which the engine scans the table, which a query without [order by] leaves
    to the engine: statements about a list read back after rows were inserted
    are made up to permutation.  A write transaction works
    on a copy of the tables: [Commit] publishes the copy, [Rollback] keeps
    the tables the transaction started from.  Instants ([time.Time]) and
    durations are 64-bit nanosecond counts, modelled in [Z]. *)

From Stdlib Require Import ZArith List String Ascii Bool Lia Permutation.
Import ListNotations.
Open Scope string_scope.
Open Scope list_scope.
Open Scope Z_scope.

Set Implicit Arguments.

(** ** Data model *)

(** [protocol.DocumentID]: an opaque token, ordered by byte comparison. *)
Definition DocumentID := string.

(** [time.Time] as nanoseconds since the epoch, [time.Duration] as
    nanoseconds. *)
Definition Time := Z.
Definition Duration := Z.
Definition UnixNano (t : Time) : Z := t.
Definition Unix0 (nanos : Z) : Time := nanos.

(** [type InterestState int], [const (pending = iota; requested; served)]. *)
Inductive InterestState : Type :=
| pending
| requested
| served.

Definition InterestState_eqb (a b : InterestState) : bool :=
  match a, b with
  | pending, pending => true
  | requested, requested => true
  | served, served => true
  | _, _ => false
  end.

(** [type Interest struct { DocID; State }]. *)
Record Interest : Type := mkInterest {
  DocID : DocumentID;
  State : InterestState
}.

(** [type InterestListState struct]. *)
Record InterestListState : Type := mkInterestListState {
  CreatedAt : Z;
  LastUpdated : Z;
  LastUpdatedDocID : DocumentID
}.

Definition lastUpdatedTime (state : InterestListState) : Time :=
  Unix0 (LastUpdated state).

(** [protocol.Document]: [{ID, Updated, Alive, Text}]. *)
Record Document : Type := mkDocument {
  ID : DocumentID;
  Updated : Time;
  Alive : bool;
  Text : string
}.

(** Modelled from the spec: the persisted schema (the SQL migrations are not
    part of the sources).  [spaces(spaceID PK, space UNIQUE,
    listCreatedAtNanos, lastUpdatedAtNanos, lastUpdatedDocID)]. *)
Record SpaceRow : Type := mkSpaceRow {
  sp_spaceID : Z;
  sp_space : string;
  listCreatedAtNanos : Z;
  lastUpdatedAtNanos : Z;
  lastUpdatedDocID : DocumentID
}.

(** Modelled from the spec: [interest(spaceID, docID, state)
    PK(spaceID, docID)]. *)
Record InterestRow : Type := mkInterestRow {
  in_spaceID : Z;
  in_docID : DocumentID;
  in_state : InterestState
}.

(** Modelled from the spec: [docs(spaceID, docID, updatedNanos, txt, alive)
    PK(spaceID, docID)]. *)
Record DocRow : Type := mkDocRow {
  d_spaceID : Z;
  d_docID : DocumentID;
  updatedNanos : Z;
  txt : string;
  alive : bool
}.

(** The database file: the three tables the indexer core works on. *)
Record Database : Type := mkDatabase {
  spaces : list SpaceRow;
  interest : list InterestRow;
  docs : list DocRow
}.

(** Errors the store and the cycle produce. *)
Inductive Error : Type :=
| ErrNoRows                       (* sql.ErrNoRows *)
| NoSuchSpace (space : string)    (* "No such space, %v" *)
| DocWriteFailed                  (* "Failed to update index, no rows affected" *)
| ActiveListExists                (* "Cannot overwrite active interest list" *)
| ConstraintFailed                (* a primary-key violation reported by the engine *)
| IndexPositionFailed (space : string) (* "Failed to update index position for space %q" *)
| BusError                        (* publish or request failure, including timeout *)
| Wrapped (msg : string) (cause : Error). (* fmt.Errorf("...: %w", err) *)

(** A Go [(T, error)] result. *)
Inductive Result (A : Type) : Type :=
| Ok (a : A)
| Err (e : Error).
Arguments Ok {A} a.
Arguments Err {A} e.

Definition bind {A B : Type} (r : Result A) (k : A -> Result B) : Result B :=
  match r with
  | Ok a => k a
  | Err e => Err e
  end.

Notation "x <- r ;; k" := (bind r (fun x => k))
  (at level 61, r at next level, right associativity).

(** ** Transactions on the single write connection *)

Record Tx : Type := mkTx {
  committed : Database;
  working : Database
}.

Definition BeginTxx (db : Database) : Tx := mkTx db db.
Definition Commit (tx : Tx) : Database := working tx.
Definition Rollback (tx : Tx) : Database := committed tx.

(** ** Ordering of the index position *)

Definition docID_ltb (a b : DocumentID) : bool :=
  match String.compare a b with Lt => true | _ => false end.

Definition docID_leb (a b : DocumentID) : bool :=
  match String.compare a b with Gt => false | _ => true end.

(** The index position (cursor): timestamp first, then document id. *)
Definition Position : Type := (Z * DocumentID)%type.

Definition pos_leb (p q : Position) : bool :=
  (fst p <? fst q) || ((fst p =? fst q) && docID_leb (snd p) (snd q)).

Definition pos_le (p q : Position) : Prop := pos_leb p q = true.

(** ** Store operations ([db.go]) *)

Module Store.

Definition spaceNamed (space : string) (r : SpaceRow) : bool :=
  String.eqb (sp_space r) space.

(** [getSpaceID]: [select spaceID from spaces where space = ?]. *)
Definition getSpaceID (db : Database) (space : string) : Result Z :=
  match find (spaceNamed space) (spaces db) with
  | Some r => Ok (sp_spaceID r)
  | None => Err (NoSuchSpace space)
  end.

Definition interestOf (spaceID : Z) (r : InterestRow) : bool :=
  in_spaceID r =? spaceID.

(** Modelled from the spec: the primary key [PK(spaceID, docID)] of the
    interest table (the migrations that declare it are not part of the
    sources); also the condition [spaceID = ? and docID = ?] of the updates. *)
Definition interestKey (spaceID : Z) (docID : DocumentID) (r : InterestRow) : bool :=
  (in_spaceID r =? spaceID) && String.eqb (in_docID r) docID.

(** Modelled from the spec: the primary key [PK(spaceID, docID)] of the
    document table, on which [replace into docs] resolves conflicts. *)
Definition docKey (spaceID : Z) (docID : DocumentID) (r : DocRow) : bool :=
  (d_spaceID r =? spaceID) && String.eqb (d_docID r) docID.

(** [getInterestList]: [select docID, state from interest where spaceID = ?].
    The query has no [order by]: the result is the rows of the space in the
    order of the scan. *)
Definition getInterestList (db : Database) (space : string) : Result (list Interest) :=
  spaceID <- getSpaceID db space ;;
  Ok (map (fun r => mkInterest (in_docID r) (in_state r))
          (filter (interestOf spaceID) (interest db))).

(** [getInterestListState]: [select listCreatedAtNanos, lastUpdatedAtNanos,
    lastUpdatedDocID from spaces where space = ?]. *)
Definition getInterestListState (db : Database) (space : string)
  : Result InterestListState :=
  match find (spaceNamed space) (spaces db) with
  | Some r => Ok (mkInterestListState (listCreatedAtNanos r)
                                      (lastUpdatedAtNanos r)
                                      (lastUpdatedDocID r))
  | None => Err ErrNoRows
  end.

(** [getLastUpdateTime]. *)
Definition getLastUpdateTime (db : Database) (space : string) : Result Time :=
  match find (spaceNamed space) (spaces db) with
  | Some r => Ok (Unix0 (lastUpdatedAtNanos r))
  | None => Err ErrNoRows
  end.

Definition withInterest (db : Database) (rows : list InterestRow) : Database :=
  mkDatabase (spaces db) rows (docs db).

Definition withDocs (db : Database) (rows : list DocRow) : Database :=
  mkDatabase (spaces db) (interest db) rows.

Definition withSpaces (db : Database) (rows : list SpaceRow) : Database :=
  mkDatabase rows (interest db) (docs db).

(** [update interest set state = ? where spaceID = ? and docID = ?]. *)
Definition updateInterestState (spaceID : Z) (docID : DocumentID)
    (state : InterestState) (rows : list InterestRow) : list InterestRow :=
  map (fun r => if interestKey spaceID docID r
                then mkInterestRow (in_spaceID r) (in_docID r) state
                else r) rows.

(** [clearInterestList]: [delete from interest where spaceID = ?]. *)
Definition clearInterestList (db : Database) (space : string)
  : Database * option Error :=
  match getSpaceID db space with
  | Err e => (db, Some e)
  | Ok spaceID =>
      (withInterest db (filter (fun r => negb (interestOf spaceID r)) (interest db)),
       None)
  end.

(** [resetRequested]: [update interest set state = pending where
    state = requested and spaceID = ?]. *)
Definition resetRequested (db : Database) (space : string)
  : Database * option Error :=
  match getSpaceID db space with
  | Err e => (db, Some e)
  | Ok spaceID =>
      (withInterest db
         (map (fun r =>
                 if InterestState_eqb (in_state r) requested && interestOf spaceID r
                 then mkInterestRow (in_spaceID r) (in_docID r) pending
                 else r) (interest db)),
       None)
  end.

(** [setInterestState]. *)
Definition setInterestState (db : Database) (space : string)
    (docID : DocumentID) (state : InterestState) : Database * option Error :=
  match getSpaceID db space with
  | Err e => (db, Some e)
  | Ok spaceID =>
      (withInterest db (updateInterestState spaceID docID state (interest db)), None)
  end.

(** *** [addDocumentUpdates] *)

Section Engine.

(** The row count the driver reports ([res.RowsAffected()]) for the
    [replace into docs] of one row; SQLite reports 1 for a single-row
    [replace]. *)
Variable rowsAffected : DocRow -> Z.

(** [replace into docs (spaceID, docID, updatedNanos, txt, alive) values
    (?, ?, ?, ?, ?)]: rows in conflict on the primary key are deleted, the new
    row is inserted. *)
Definition replaceDoc (row : DocRow) (rows : list DocRow) : list DocRow :=
  filter (fun r => negb (docKey (d_spaceID row) (d_docID row) r)) rows ++ [row].

(** The row written for a document: [txt] is the text only when alive. *)
Definition docRowOf (spaceID : Z) (doc : Document) : DocRow :=
  let txt := if Alive doc then Text doc else "" in
  mkDocRow spaceID (ID doc) (UnixNano (Updated doc)) txt (Alive doc).

(** One iteration of the loop over the batch, on the transaction's tables. *)
Definition docStep (spaceID : Z) (w : Database) (doc : Document) : Result Database :=
  let row := docRowOf spaceID doc in
  let w1 := withDocs w (replaceDoc row (docs w)) in
  let updatedRows := rowsAffected row in
  if negb (updatedRows =? 1) then Err DocWriteFailed
  else Ok (withInterest w1 (updateInterestState spaceID (ID doc) served (interest w1))).

Fixpoint docLoop (spaceID : Z) (w : Database) (batch : list Document)
  : Result Database :=
  match batch with
  | [] => Ok w
  | doc :: rest => w' <- docStep spaceID w doc ;; docLoop spaceID w' rest
  end.

Definition addDocumentUpdates (db : Database) (space : string)
    (batch : list Document) : Database * option Error :=
  match getSpaceID db space with
  | Err e => (db, Some e)
  | Ok spaceID =>
      let tx := BeginTxx db in
      match docLoop spaceID (working tx) batch with
      | Ok w => (Commit (mkTx (committed tx) w), None)
      | Err e => (Rollback tx, Some e)        (* deferred tx.Rollback() *)
      end
  end.

End Engine.

(** *** [commitInterestList] *)

(** The rows of [interest left join docs using(docID) cross join listState]
    that pass [where interest.state = served and docs.updatedNanos <
    listState.listCreatedAtNanos], projected on [(docs.updatedNanos,
    docs.docID)].  The join is on [docID] alone and [interest] is not
    restricted to a space; an interest row without a document yields a NULL
    row, which the comparison rejects. *)
Definition commitCandidates (db : Database) (space : string) : list Position :=
  flat_map (fun i =>
    flat_map (fun d =>
      flat_map (fun listState =>
        if InterestState_eqb (in_state i) served
           && (updatedNanos d <? listState)
        then [(updatedNanos d, d_docID d)]
        else [])
        (map listCreatedAtNanos (filter (spaceNamed space) (spaces db))))
      (filter (fun d => String.eqb (d_docID d) (in_docID i)) (docs db)))
    (interest db).

(** [order by docs.updatedNanos desc, docs.docID]: [p] sorts no later
    than [q]. *)
Definition orderedBefore (p q : Position) : bool :=
  (fst q <? fst p) || ((fst p =? fst q) && docID_leb (snd p) (snd q)).

(** [limit 1] of the ordered rows. *)
Fixpoint firstOrdered (rows : list Position) : option Position :=
  match rows with
  | [] => None
  | p :: rest =>
      match firstOrdered rest with
      | None => Some p
      | Some q => Some (if orderedBefore p q then p else q)
      end
  end.

(** [update spaces set lastUpdatedAtNanos = ?, lastUpdatedDocID = ?
    where space = ?]. *)
Definition updateIndexPosition (space : string) (indexPosition : Position)
    (rows : list SpaceRow) : list SpaceRow :=
  map (fun r => if spaceNamed space r
                then mkSpaceRow (sp_spaceID r) (sp_space r) (listCreatedAtNanos r)
                                (fst indexPosition) (snd indexPosition)
                else r) rows.

Definition commitInterestList (db : Database) (space : string)
  : Database * option Error :=
  let tx := BeginTxx db in
  match firstOrdered (commitCandidates (working tx) space) with
  | None => (Rollback tx, None)               (* sql.ErrNoRows: return nil *)
  | Some indexPosition =>
      let w := withSpaces (working tx)
                 (updateIndexPosition space indexPosition (spaces (working tx))) in
      let count := Z.of_nat (List.length (filter (spaceNamed space) (spaces (working tx)))) in
      if negb (count =? 1) then (Rollback tx, Some (IndexPositionFailed space))
      else (Commit (mkTx (committed tx) w), None)
  end.

(** *** [setInterestList] *)

(** [insert into interest (spaceID, docID, state) values (?, ?, ?)]; the
    engine rejects a row whose primary key the table already holds. *)
Definition insertInterest (spaceID : Z) (docID : DocumentID)
    (state : InterestState) (rows : list InterestRow) : Result (list InterestRow) :=
  if existsb (interestKey spaceID docID) rows then Err ConstraintFailed
  else Ok (rows ++ [mkInterestRow spaceID docID state]).

Fixpoint insertPending (spaceID : Z) (ids : list DocumentID)
    (rows : list InterestRow) : Result (list InterestRow) :=
  match ids with
  | [] => Ok rows
  | docID :: rest =>
      rows' <- insertInterest spaceID docID pending rows ;;
      insertPending spaceID rest rows'
  end.

(** [update spaces set listCreatedAtNanos = :now where spaceID = :spaceID]. *)
Definition updateListCreated (spaceID : Z) (now : Z) (rows : list SpaceRow)
  : list SpaceRow :=
  map (fun r => if sp_spaceID r =? spaceID
                then mkSpaceRow (sp_spaceID r) (sp_space r) now
                                (lastUpdatedAtNanos r) (lastUpdatedDocID r)
                else r) rows.

(** [now] is the value of [time.Now().UnixNano()] read by the call.  The
    early returns after the count and inside the insert loop leave the
    transaction neither committed nor rolled back (the deferred check reads
    the outer [err], which is nil there); nothing it wrote is ever visible,
    so the stored tables are those the transaction started from. *)
Definition setInterestList (db : Database) (space : string)
    (ids : list DocumentID) (now : Z) : Database * option Error :=
  let tx := BeginTxx db in
  match find (spaceNamed space) (spaces (working tx)) with
  | None => (Rollback tx, Some ErrNoRows)
  | Some r =>
      let spaceID := sp_spaceID r in
      let interestCount :=
        Z.of_nat (List.length (filter (fun i => interestOf spaceID i
                                    && negb (InterestState_eqb (in_state i) served))
                                 (interest (working tx)))) in
      if negb (interestCount =? 0) then (committed tx, Some ActiveListExists)
      else
        let cleared := filter (fun i => negb (interestOf spaceID i))
                              (interest (working tx)) in
        match insertPending spaceID ids cleared with
        | Err e => (committed tx, Some e)
        | Ok rows =>
            let w := mkDatabase (updateListCreated spaceID now (spaces (working tx)))
                                rows (docs (working tx)) in
            (Commit (mkTx (committed tx) w), None)
        end
  end.

(** *** [search] *)

(** [protocol.SearchResult]. *)
Record SearchResult (R : Type) : Type := mkSearchResult {
  sr_Space : string;
  sr_ID : DocumentID;
  sr_Snippet : string;
  sr_Rank : R
}.

(** The phrase is not bound as an argument: [fmt.Sprintf(namedQuery, phrase)]
    writes it into the statement text, inside the double quotes of the
    full-text string, inside the single quotes of the SQL literal.  A quote
    character of either kind ends its string early, and a zero byte ends the
    statement text. *)
Definition breaksLiteral (c : ascii) : bool :=
  let n := nat_of_ascii c in
  (n =? 0)%nat || (n =? 34)%nat || (n =? 39)%nat.

(** The phrases that reach the engine as the phrase of the full-text match. *)
Fixpoint plainPhrase (phrase : string) : bool :=
  match phrase with
  | EmptyString => true
  | String c rest => negb (breaksLiteral c) && plainPhrase rest
  end.

Section FullText.

(** The full-text engine: which rows [fts match '"phrase"'], the snippet it
    renders and the rank it orders by. *)
Variable R : Type.
Variable ftsMatch : string -> DocRow -> bool.
Variable snippet : string -> DocRow -> string.
Variable rank : string -> DocRow -> R.
Variable rank_leb : R -> R -> bool.

(** What the engine answers when the statement it receives is not the one
    written in [search]: the phrase is not plain, or the number of spaces is
    not one (the statement holds one placeholder for the spaces, and
    [sqlx.In] expands none for arguments that are no slices, so the
    arguments no longer line up).  The sources do not determine it. *)
Variable splicedQuery :
  Database -> string -> list string -> N -> N -> Result (list (SearchResult R)).

(** [fts join docs on fts.rowid = docs.id left join spaces on docs.spaceID =
    spaces.spaceID where fts match ... and docs.alive and spaces.space in
    (...)]. *)
Definition searchRows (db : Database) (phrase : string) (inSpaces : list string)
  : list (SearchResult R) :=
  flat_map (fun d =>
    if ftsMatch phrase d && alive d then
      flat_map (fun s =>
        if (sp_spaceID s =? d_spaceID d)
           && existsb (String.eqb (sp_space s)) inSpaces
        then [mkSearchResult (sp_space s) (d_docID d) (snippet phrase d) (rank phrase d)]
        else []) (spaces db)
    else []) (docs db).

Fixpoint insertRanked (x : SearchResult R) (l : list (SearchResult R))
  : list (SearchResult R) :=
  match l with
  | [] => [x]
  | y :: rest => if rank_leb (sr_Rank x) (sr_Rank y) then x :: l
                 else y :: insertRanked x rest
  end.

(** [order by rank asc]. *)
Definition orderByRank (l : list (SearchResult R)) : list (SearchResult R) :=
  fold_right insertRanked [] l.

(** [search]: for one space and a plain phrase the statement is the one
    written, with [limit :limit offset :offset], both [uint16]; the [order by]
    leaves the order of rows of equal rank to the engine (here: the order of
    the scan). *)
Definition search (db : Database) (phrase : string) (inSpaces : list string)
    (limit offset : N) : Result (list (SearchResult R)) :=
  match inSpaces with
  | [space] =>
      if plainPhrase phrase then
        Ok (firstn (N.to_nat limit)
              (skipn (N.to_nat offset)
                 (orderByRank (searchRows db phrase [space]))))
      else splicedQuery db phrase inSpaces limit offset
  | _ => splicedQuery db phrase inSpaces limit offset
  end.

End FullText.

End Store.

(** ** The indexer ([runUpdateCycle] and its helpers) *)

Module Indexer.

Import Store.

(** [protocol.IndexUpdateRequest]. *)
Record IndexUpdateRequest : Type := mkIndexUpdateRequest {
  ur_Space : string;
  ur_FromTime : Time;
  ur_AfterDocument : DocumentID;
  ur_Limit : Z
}.

(** [protocol.IndexUpdate]. *)
Record IndexUpdate : Type := mkIndexUpdate {
  iu_Space : string;
  iu_Updates : list DocumentID
}.

(** [protocol.DocumentRequest]. *)
Record DocumentRequest : Type := mkDocumentRequest {
  dr_Space : string;
  dr_Wanted : list DocumentID
}.

(** The options of [Config] the cycle reads: [cfg.Index.*] and
    [cfg.Nats.Topic]. *)
Record Config : Type := mkConfig {
  Spaces : list string;
  ChunkSize : Z;
  MaxOutstanding : Z;
  MaxInterestWait : Duration;
  MaxDocumentWait : Duration;
  Topic : string
}.

(** The calls a cycle makes on the store and on the bus, in order. *)
Inductive Call : Type :=
| CallGetInterestList (space : string)
| CallSetInterestState (space : string) (docID : DocumentID) (state : InterestState)
| CallPublish (topic : string) (request : DocumentRequest)
| CallCommitInterestList (space : string)
| CallGetInterestListState (space : string)
| CallRequestWithContext (deadline : Duration) (topic : string)
                         (request : IndexUpdateRequest)
| CallSetInterestList (space : string) (ids : list DocumentID)
| CallResetRequested (space : string).

(** The indexer's mutable state: the database and the package-level
    [lastDocumentRequest]. *)
Record IndexerState : Type := mkState {
  db : Database;
  lastDocumentRequest : Time
}.

(** The instants [time.Now()] returns at the three places a cycle reads the
    clock. *)
Record Clock : Type := mkClock {
  atRequest : Time;        (* lastDocumentRequest = time.Now() *)
  atCheck : Time;          (* time.Now().After(...) *)
  atListCreation : Time    (* now := time.Now().UnixNano() in setInterestList *)
}.

(** The counters of the loop over the interest list. *)
Record Counts : Type := mkCounts {
  numPending : Z;
  numRequested : Z;
  numServed : Z;
  pendingIDs : list DocumentID
}.

Definition countStep (c : Counts) (interest : Interest) : Counts :=
  match State interest with
  | served => mkCounts (numPending c) (numRequested c) (numServed c + 1) (pendingIDs c)
  | pending => mkCounts (numPending c + 1) (numRequested c) (numServed c)
                        (pendingIDs c ++ [DocID interest])
  | requested => mkCounts (numPending c) (numRequested c + 1) (numServed c) (pendingIDs c)
  end.

Definition countInterests (interests : list Interest) : Counts :=
  fold_left countStep interests (mkCounts 0 0 0 []).

Section Cycle.

Variable cfg : Config.

(** The bus: the outcome of [conn.Publish] and of [conn.RequestWithContext]
    (an error, which includes the deadline passing, or the decoded reply). *)
Variable Publish : string -> DocumentRequest -> option Error.
Variable RequestWithContext :
  Duration -> string -> IndexUpdateRequest -> Result IndexUpdate.

(** The loop of [requestDocuments] over [wanted]. *)
Fixpoint markRequested (d : Database) (space : string) (wanted : list DocumentID)
  : Database * list Call * option Error :=
  match wanted with
  | [] => (d, [], None)
  | docID :: rest =>
      match setInterestState d space docID requested with
      | (d', Some e) =>
          (d', [CallSetInterestState space docID requested],
           Some (Wrapped "Failed to update interest state" e))
      | (d', None) =>
          let '(d'', calls, err) := markRequested d' space rest in
          (d'', CallSetInterestState space docID requested :: calls, err)
      end
  end.

Definition requestDocuments (d : Database) (space : string)
    (wanted : list DocumentID) : Database * list Call * option Error :=
  let topic := (Topic cfg ++ ".document.request")%string in
  let request := mkDocumentRequest space wanted in
  match markRequested d space wanted with
  | (d', calls, Some e) => (d', calls, Some e)
  | (d', calls, None) => (d', calls ++ [CallPublish topic request], Publish topic request)
  end.

Definition requestNextChunk (d : Database) (space : string) (now : Time)
  : Database * list Call * option Error :=
  let topic := (Topic cfg ++ ".index.request")%string in
  match getInterestListState d space with
  | Err e => (d, [CallGetInterestListState space],
              Some (Wrapped "Failed to get interest list state" e))
  | Ok state =>
      let updateRequest :=
        mkIndexUpdateRequest space (lastUpdatedTime state)
                             (LastUpdatedDocID state) (ChunkSize cfg) in
      match RequestWithContext (MaxInterestWait cfg) topic updateRequest with
      | Err e =>
          (d, [CallGetInterestListState space;
               CallRequestWithContext (MaxInterestWait cfg) topic updateRequest],
           Some (Wrapped "NATS request failed" e))
      | Ok update =>
          let calls :=
            [CallGetInterestListState space;
             CallRequestWithContext (MaxInterestWait cfg) topic updateRequest;
             CallSetInterestList (iu_Space update) (iu_Updates update)] in
          match setInterestList d (iu_Space update) (iu_Updates update)
                                (UnixNano now) with
          | (d', Some e) => (d', calls, Some (Wrapped "Failed to set interest list" e))
          | (d', None) => (d', calls, None)
          end
      end
  end.

Definition commitFetched (d : Database) (space : string) : Database * option Error :=
  commitInterestList d space.

(** Step 2 of the cycle: request documents when there is room. *)
Definition requestStep (st : IndexerState) (space : string) (c : Counts) (clock : Clock)
  : IndexerState * Z * list Call :=
  let maxOutstanding := MaxOutstanding cfg in
  let docsToRequest := Z.min (numPending c) (maxOutstanding - numRequested c) in
  if 0 <? docsToRequest then
    match requestDocuments (db st) space
            (firstn (Z.to_nat docsToRequest) (pendingIDs c)) with
    | (d', calls, Some _) => (mkState d' (lastDocumentRequest st), numRequested c, calls)
    | (d', calls, None) =>
        (mkState d' (atRequest clock), numRequested c + docsToRequest, calls)
    end
  else (st, numRequested c, []).

(** The branch taken once the counters are final. *)
Definition finishStep (st : IndexerState) (space : string) (numPending' numRequested' : Z)
    (clock : Clock) : IndexerState * list Call :=
  let allServed := (numPending' =? 0) && (numRequested' =? 0) in
  if allServed then
    match commitFetched (db st) space with
    | (d', Some _) => (mkState d' (lastDocumentRequest st), [CallCommitInterestList space])
    | (d', None) =>
        let '(d'', calls, _) := requestNextChunk d' space (atListCreation clock) in
        (mkState d'' (lastDocumentRequest st), CallCommitInterestList space :: calls)
    end
  else
    let timeout := MaxDocumentWait cfg in
    if negb (timeout =? 0) && (lastDocumentRequest st + timeout <? atCheck clock) then
      (mkState (fst (resetRequested (db st) space)) (lastDocumentRequest st),
       [CallResetRequested space])
    else (st, []).

Definition runUpdateCycle (st : IndexerState) (space : string) (clock : Clock)
  : Z * IndexerState * list Call :=
  match getInterestList (db st) space with
  | Err _ => (0, st, [CallGetInterestList space])
  | Ok interests =>
      let total := Z.of_nat (List.length interests) in
      let c := countInterests interests in
      let '(st1, numRequested', calls1) := requestStep st space c clock in
      let '(st2, calls2) := finishStep st1 space (numPending c) numRequested' clock in
      (total, st2, CallGetInterestList space :: calls1 ++ calls2)
  end.

End Cycle.

End Indexer.

(** ** What the specification words ask of a commit *)

Module Spec.

Import Store.

(** The served interests of [space], joined with the documents of the same
    space and document id, whose document was updated strictly before the
    interest list was created. *)
Definition servedPositions (d : Database) (space : string) : list Position :=
  match find (spaceNamed space) (spaces d) with
  | None => []
  | Some s =>
      flat_map (fun i =>
        if interestOf (sp_spaceID s) i && InterestState_eqb (in_state i) served then
          flat_map (fun r =>
            if docKey (sp_spaceID s) (in_docID i) r
               && (updatedNanos r <? listCreatedAtNanos s)
            then [(updatedNanos r, d_docID r)] else []) (docs d)
        else []) (interest d)
  end.

(** The highest pair in the order of the index position. *)
Fixpoint highest (rows : list Position) : option Position :=
  match rows with
  | [] => None
  | p :: rest =>
      match highest rest with
      | None => Some p
      | Some q => Some (if pos_leb q p then p else q)
      end
  end.

End Spec.

(** The index position stored for [space]. *)
Definition positionOf (d : Database) (space : string) : option Position :=
  match Store.getInterestListState d space with
  | Ok s => Some (LastUpdated s, LastUpdatedDocID s)
  | Err _ => None
  end.

(** ** Concrete stores used by the examples below *)

Module Examples.

(** One space whose chunk was created at 10; two served documents share the
    latest timestamp 5. *)
Definition tieStore : Database :=
  mkDatabase [mkSpaceRow 1 "wp" 10 0 ""]
             [mkInterestRow 1 "a" served; mkInterestRow 1 "b" served]
             [mkDocRow 1 "a" 5 "alpha" true; mkDocRow 1 "b" 5 "beta" true].

(** Two spaces; only ["other"] has a served interest. *)
Definition twoSpaces : Database :=
  mkDatabase [mkSpaceRow 1 "wp" 100 7 "k"; mkSpaceRow 2 "other" 100 0 ""]
             [mkInterestRow 2 "x" served]
             [mkDocRow 2 "x" 50 "text" true].

(** A space whose cursor is already at (200, "c") and whose new chunk holds a
    served document stamped 50. *)
Definition behindStore : Database :=
  mkDatabase [mkSpaceRow 1 "wp" 1000 200 "c"]
             [mkInterestRow 1 "a" served]
             [mkDocRow 1 "a" 50 "old" true].

(** A chunk whose served documents lie after the cursor (0, ""). *)
Definition chunkStore : Database :=
  mkDatabase [mkSpaceRow 1 "wp" 1000 0 ""]
             [mkInterestRow 1 "a" served; mkInterestRow 1 "b" served;
              mkInterestRow 1 "c" served]
             [mkDocRow 1 "b" 100 "bee" true; mkDocRow 1 "a" 50 "ay" true;
              mkDocRow 1 "c" 200 "" false].

(** Two requested interests of ["wp"], no document stored yet. *)
Definition requestedStore : Database :=
  mkDatabase [mkSpaceRow 1 "wp" 1000 0 ""]
             [mkInterestRow 1 "a" requested; mkInterestRow 1 "b" requested]
             [].

(** A live document and a tombstone that still carries a text. *)
Definition mixedBatch : list Document :=
  [mkDocument "a" 50 true "hello"; mkDocument "b" 60 false "ignored"].


(** The engine's report for a single-row [replace]. *)
Definition reportOne (row : DocRow) : Z := 1.


(** A full-text engine that matches every row. *)
Definition matchAll (phrase : string) (row : DocRow) : bool := true.
Definition snippetText (phrase : string) (row : DocRow) : string := txt row.
Definition rankZero (phrase : string) (row : DocRow) : Z := 0.

(** A fresh chunk of three pending interests. *)
Definition pendingStore : Database :=
  mkDatabase [mkSpaceRow 1 "wp" 1000 0 ""]
             [mkInterestRow 1 "a" pending; mkInterestRow 1 "b" pending;
              mkInterestRow 1 "c" pending]
             [].

(** Two requests in flight, one interest still pending. *)
Definition inFlightStore : Database :=
  mkDatabase [mkSpaceRow 1 "wp" 1000 0 ""]
             [mkInterestRow 1 "a" requested; mkInterestRow 1 "b" requested;
              mkInterestRow 1 "c" pending]
             [].

(** Two spaces without interests. *)
Definition idleSpaces : Database :=
  mkDatabase [mkSpaceRow 1 "wp" 0 0 ""; mkSpaceRow 2 "other" 0 0 ""] [] [].

(** ChunkSize 3, MaxOutstanding 2, MaxInterestWait 1000, MaxDocumentWait 500. *)
Definition config : Indexer.Config :=
  Indexer.mkConfig ["wp"; "other"] 3 2 1000 500 "leta".

(** The same configuration with the stall timeout disabled. *)
Definition configNoTimeout : Indexer.Config :=
  Indexer.mkConfig ["wp"; "other"] 3 2 1000 0 "leta".

Definition publishOk (topic : string) (request : Indexer.DocumentRequest)
  : option Error := None.

Definition requestFails (deadline : Duration) (topic : string)
    (request : Indexer.IndexUpdateRequest) : Result Indexer.IndexUpdate :=
  Err BusError.

(** A provider that echoes the requested space. *)
Definition replyEcho (deadline : Duration) (topic : string)
    (request : Indexer.IndexUpdateRequest) : Result Indexer.IndexUpdate :=
  Ok (Indexer.mkIndexUpdate (Indexer.ur_Space request) ["x"; "y"]).

(** A provider whose reply names another space than the one asked for. *)
Definition replyOther (deadline : Duration) (topic : string)
    (request : Indexer.IndexUpdateRequest) : Result Indexer.IndexUpdate :=
  Ok (Indexer.mkIndexUpdate "other" ["x"]).

Definition clock : Indexer.Clock := Indexer.mkClock 5000 5001 7000.

End Examples.

(** ** Runs of commits *)

(** The served interest rows that name a stored document stamped before the
    creation of the list of [space], and those documents, all carry the key
    of [space]. *)
Definition ownRows (d : Database) (space : string) : bool :=
  match find (Store.spaceNamed space) (spaces d) with
  | None => true
  | Some s =>
      forallb (fun i =>
        forallb (fun r =>
          implb (InterestState_eqb (in_state i) served
                 && String.eqb (d_docID r) (in_docID i)
                 && (updatedNanos r <? listCreatedAtNanos s))
                ((in_spaceID i =? sp_spaceID s) && (d_spaceID r =? sp_spaceID s)))
          (docs d)) (interest d)
  end.

(** The latest timestamp among the served documents of [space] is carried by
    one document. *)
Definition singleLatest (d : Database) (space : string) : bool :=
  match Spec.highest (Spec.servedPositions d space) with
  | None => true
  | Some h =>
      forallb (fun c => implb (fst c =? fst h) (String.eqb (snd c) (snd h)))
              (Spec.servedPositions d space)
  end.

(** The highest pair among the served interests of [space], when there is
    one, lies at or after the stored position. *)
Definition highestAhead (d : Database) (space : string) : bool :=
  match Spec.highest (Spec.servedPositions d space), positionOf d space with
  | Some h, Some p => pos_leb p h
  | _, _ => true
  end.

(** A run of successful [commitInterestList] calls for [space].  Between two
    commits the other store operations may rewrite the interest and document
    tables and the list creation time at will; none of them writes the
    position. *)
Inductive CommitRun (space : string) : Database -> Database -> Prop :=
| CommitRun_refl : forall d, CommitRun space d d
| CommitRun_step : forall d d1 d2 d3,
    CommitRun space d d1 ->
    positionOf d2 space = positionOf d1 space ->
    Store.commitInterestList d2 space = (d3, None) ->
    CommitRun space d d3.

(** The same runs, where every commit finds the highest served pair of the
    space at or after the stored position, in a store whose served rows are
    the space's own and whose latest timestamp is carried by one document. *)
Inductive ServedAheadRun (space : string) : Database -> Database -> Prop :=
| ServedAheadRun_refl : forall d, ServedAheadRun space d d
| ServedAheadRun_step : forall d d1 d2 d3,
    ServedAheadRun space d d1 ->
    positionOf d2 space = positionOf d1 space ->
    ownRows d2 space = true ->
    singleLatest d2 space = true ->
    highestAhead d2 space = true ->
    Store.commitInterestList d2 space = (d3, None) ->
    ServedAheadRun space d d3.

(** ** The effect of a document batch *)

Module Batch.

Import Store.

(** What one iteration of the loop of [addDocumentUpdates] writes when the
    row count passes the check: the document row, then the interest state. *)
Definition applyDoc (spaceID : Z) (w : Database) (doc : Document) : Database :=
  let w1 := withDocs w (replaceDoc (docRowOf spaceID doc) (docs w)) in
  withInterest w1 (updateInterestState spaceID (ID doc) served (interest w1)).

(** The document table after the [replace into docs] of each row in turn. *)
Definition replaceAll (rows : list DocRow) (table : list DocRow) : list DocRow :=
  fold_left (fun t row => replaceDoc row t) rows table.

(** A row whose primary key is the key of none of [rows]. *)
Definition keyNotIn (rows : list DocRow) (r : DocRow) : bool :=
  forallb (fun row => negb (docKey (d_spaceID row) (d_docID row) r)) rows.

(** The interest table once the rows of [spaceID] whose document id is among
    [ids] are served. *)
Definition markServed (spaceID : Z) (ids : list DocumentID)
    (rows : list InterestRow) : list InterestRow :=
  map (fun i => if interestOf spaceID i && existsb (String.eqb (in_docID i)) ids
                then mkInterestRow (in_spaceID i) (in_docID i) served
                else i) rows.

(** A document row of another space than [spaceID]. *)
Definition otherSpace (spaceID : Z) (r : DocRow) : bool := negb (d_spaceID r =? spaceID).

End Batch.

(** ** The indexer as a transition system *)

Module System.

Import Store Indexer.

(** The primary key of the interest table. *)
Definition interestKeyOf (r : InterestRow) : Z * DocumentID :=
  (in_spaceID r, in_docID r).

Definition interestKeysUnique (d : Database) : Prop :=
  NoDup (map interestKeyOf (interest d)).

Definition inState (spaceID : Z) (state : InterestState) (r : InterestRow) : bool :=
  interestOf spaceID r && InterestState_eqb (in_state r) state.

(** [select count( * ) from ... where ...] over interest rows. *)
Definition count (f : InterestRow -> bool) (rows : list InterestRow) : Z :=
  Z.of_nat (List.length (filter f rows)).

(** [count(interest where state = ? and spaceID = ?)]. *)
Definition stateCount (spaceID : Z) (state : InterestState) (d : Database) : Z :=
  count (inState spaceID state) (interest d).

(** An entry of [getInterestList] in a given state. *)
Definition isState (state : InterestState) (i : Interest) : bool :=
  InterestState_eqb (State i) state.

(** The interest table after the [setInterestState(..., requested)] calls of
    [requestDocuments] for [wanted]. *)
Definition transitions (spaceID : Z) (wanted : list DocumentID)
    (rows : list InterestRow) : list InterestRow :=
  fold_left (fun t docID => updateInterestState spaceID docID requested t) wanted rows.

(** The bound of the specification: no space has more than
    [MaxOutstanding] requested rows. *)
Definition boundedOutstanding (cfg : Config) (d : Database) : Prop :=
  forall spaceID, stateCount spaceID requested d <= MaxOutstanding cfg.

(** The identity of the registered spaces: their ids and names. *)
Definition spaceKeys (d : Database) : list (Z * string) :=
  map (fun r => (sp_spaceID r, sp_space r)) (spaces d).

(** The two table invariants of a running indexer. *)
Definition Healthy (cfg : Config) (d : Database) : Prop :=
  interestKeysUnique d /\ boundedOutstanding cfg d.

(** The row [resetRequested] writes in place of [r]. *)
Definition resetOne (spaceID : Z) (r : InterestRow) : InterestRow :=
  if InterestState_eqb (in_state r) requested && interestOf spaceID r
  then mkInterestRow (in_spaceID r) (in_docID r) pending else r.

(** What [resetRequested] does to one interest row. *)
Definition resetRow (spaceID : Z) (r r' : InterestRow) : Prop :=
  (in_spaceID r = spaceID /\ in_state r = requested
   /\ r' = mkInterestRow (in_spaceID r) (in_docID r) pending)
  \/ (~ (in_spaceID r = spaceID /\ in_state r = requested) /\ r' = r).

(** The loop of [requestDocuments] as the document sink sees it: between two
    transitions to [requested] the sink may commit any number of batches. *)
Inductive Marking (space : string) : list DocumentID -> Database -> Database -> Prop :=
| Marking_done : forall d, Marking space [] d d
| Marking_set : forall docID rest d d' d'',
    setInterestState d space docID requested = (d', None) ->
    Marking space rest d' d'' ->
    Marking space (docID :: rest) d d''
| Marking_sink : forall rowsAffected sinkSpace batch ids d d'',
    Marking space ids (fst (addDocumentUpdates rowsAffected d sinkSpace batch)) d'' ->
    Marking space ids d d''.

(** One step of the running indexer: a cycle for some space, with whatever
    the bus and the clock answer, or a batch written by the document sink. *)
Inductive IndexerStep (cfg : Config) : IndexerState -> IndexerState -> Prop :=
| Step_cycle : forall Publish RequestWithContext st space clock,
    IndexerStep cfg st
      (snd (fst (runUpdateCycle cfg Publish RequestWithContext st space clock)))
| Step_sink : forall rowsAffected st space batch,
    IndexerStep cfg st
      (mkState (fst (addDocumentUpdates rowsAffected (db st) space batch))
               (lastDocumentRequest st)).

Inductive IndexerRun (cfg : Config) : IndexerState -> IndexerState -> Prop :=
| Run_refl : forall st, IndexerRun cfg st st
| Run_step : forall st st' st'',
    IndexerRun cfg st st' -> IndexerStep cfg st' st'' -> IndexerRun cfg st st''.

End System.

(** ** Startup and the main loop ([StartIndexer], [main]) *)

Module Startup.

Import Store Indexer.

(** The first loop of [StartIndexer]: [clearInterestList] for every
    configured space, stopping at the first error. *)
Fixpoint clearInterestLists (d : Database) (configured : list string)
  : Database * option Error :=
  match configured with
  | [] => (d, None)
  | space :: rest =>
      match clearInterestList d space with
      | (d', Some e) => (d', Some (Wrapped "Failed to clear interest list" e))
      | (d', None) => clearInterestLists d' rest
      end
  end.

(** [cfg.Index.CycleWait] and [cfg.Index.EmptyCycleWait]. *)
Record Pacing : Type := mkPacing {
  CycleWait : Duration;
  EmptyCycleWait : Duration
}.

Section Tick.

Variable cfg : Config.
Variable Publish : string -> DocumentRequest -> option Error.
Variable RequestWithContext :
  Duration -> string -> IndexUpdateRequest -> Result IndexUpdate.

(** What the clock shows during the cycle at each position of the loop over
    the spaces. *)
Variable clockAt : nat -> Clock.

(** [for _, space := range idx.cfg.Index.Spaces { totalInterests +=
    idx.runUpdateCycle(space) }], starting at position [n]. *)
Fixpoint runCycles (n : nat) (st : IndexerState) (configured : list string)
  : Z * IndexerState * list Call :=
  match configured with
  | [] => (0, st, [])
  | space :: rest =>
      let '(total, st1, calls1) :=
        runUpdateCycle cfg Publish RequestWithContext st space (clockAt n) in
      let '(totals, st2, calls2) := runCycles (S n) st1 rest in
      (total + totals, st2, calls1 ++ calls2)
  end.

(** One pass of the loop of [main]: the cycles, then the throttle the
    [select] waits for. *)
Definition mainTick (pacing : Pacing) (st : IndexerState)
  : Duration * IndexerState * list Call :=
  let '(totalInterests, st', calls) := runCycles 0 st (Spaces cfg) in
  let cycleThrottle :=
    if totalInterests =? 0 then EmptyCycleWait pacing else CycleWait pacing in
  (cycleThrottle, st', calls).

End Tick.

End Startup.

(** ** Opening the database ([initDB], [getDatabaseURL],
       [registerCustomDriver]) *)

Module Opening.

Import Store.

Section Schema.

(** Modelled from the spec: the column defaults of [spaces] (the migrations
    are not part of the sources) for the columns the insert leaves out. *)
Variable defaultListCreatedAtNanos : Z.
Variable defaultLastUpdatedDocID : DocumentID.

(** Modelled from the spec: [spaceID] is the internal key of [spaces], an
    integer primary key the engine assigns: one more than the largest key in
    the table. *)
Definition nextSpaceID (rows : list SpaceRow) : Z :=
  fold_right (fun r m => Z.max (sp_spaceID r) m) 0 rows + 1.

(** [insert into spaces (space, lastUpdatedAtNanos) values(?, 0) on conflict
    do nothing], under the unique space name. *)
Definition createSpace (rows : list SpaceRow) (space : string) : list SpaceRow :=
  if existsb (spaceNamed space) rows then rows
  else rows ++ [mkSpaceRow (nextSpaceID rows) space defaultListCreatedAtNanos 0
                           defaultLastUpdatedDocID].

(** The loop at the end of [initDB]. *)
Definition createSpaces (rows : list SpaceRow) (configured : list string)
  : list SpaceRow :=
  fold_left createSpace configured rows.

End Schema.

(** [strings.Replace(abspath, " ", "%20", -1)]. *)
Fixpoint escapeSpaces (path : string) : string :=
  match path with
  | EmptyString => EmptyString
  | String c rest =>
      if Ascii.eqb c " "%char then ("%20" ++ escapeSpaces rest)%string
      else String c (escapeSpaces rest)
  end.

(** Whether a string holds a space character, and how many. *)
Fixpoint hasSpace (s : string) : bool :=
  match s with
  | EmptyString => false
  | String c rest => Ascii.eqb c " "%char || hasSpace rest
  end.

Fixpoint countSpaces (s : string) : nat :=
  match s with
  | EmptyString => 0%nat
  | String c rest =>
      ((if Ascii.eqb c " "%char then 1 else 0) + countSpaces rest)%nat
  end.

(** [type connectionMode bool]. *)
Definition connectionMode := bool.
Definition readOnly : connectionMode := true.
Definition readWrite : connectionMode := false.

(** [getDatabaseURL] once [filepath.Abs] has returned [abspath]. *)
Definition getDatabaseURL (abspath : string) (mode : connectionMode) : string :=
  let escapedPath := escapeSpaces abspath in
  if Bool.eqb mode readOnly then
    ("file:" ++ escapedPath
     ++ "?_journal=WAL&_query_only=true&_foreign_keys=true&_timeout=500&cache=shared")%string
  else
    ("file:" ++ escapedPath
     ++ "?_journal=WAL&_foreign_keys=true&_timeout=500&cache=private&_sync=1&_rt=true")%string.

(** The loop of Go's [sort.Search(n, f)]: [for i < j { h := (i+j)/2; if !f(h)
    { i = h + 1 } else { j = h } }]; each pass shortens [j - i], so [fuel]
    passes are enough when [j - i <= fuel]. *)
Fixpoint searchLoop (fuel : nat) (f : nat -> bool) (i j : nat) : nat * nat :=
  match fuel with
  | O => (i, j)
  | S fuel' =>
      if (i <? j)%nat then
        let h := ((i + j) / 2)%nat in
        if negb (f h) then searchLoop fuel' f (h + 1)%nat j
        else searchLoop fuel' f i h
      else (i, j)
  end.

Definition Search (n : nat) (f : nat -> bool) : nat :=
  fst (searchLoop n f 0%nat n).

Definition driver : string := "sqlite3_letarette".

(** What [registerCustomDriver] does with the driver list [sql.Drivers()]
    returns: it calls [sql.Register], which panics for a name that is
    registered already, or it skips the registration. *)
Inductive RegisterOutcome : Type :=
| Skipped
| Registered
| RegisterTwicePanic.

Definition registerCustomDriver (drivers : list string) : RegisterOutcome :=
  if (Search (List.length drivers)
             (fun i => String.eqb (nth i drivers EmptyString) driver)
      =? List.length drivers)%nat
  then if existsb (String.eqb driver) drivers then RegisterTwicePanic else Registered
  else Skipped.

End Opening.

(** ** Stemmer settings ([getStemmerState], [setStemmerState]) *)

Module Stemmer.

(** [snowball.Settings], as its fields are used. *)
Record Settings : Type := mkSettings {
  Stemmers : list string;
  RemoveDiacritics : bool;
  TokenCharacters : string;
  Separators : string
}.

(** Modelled from the spec: [stemmerstate(languages, removeDiacritics,
    tokenCharacters, separators, updated)]. *)
Record StemmerRow : Type := mkStemmerRow {
  languages : string;
  removeDiacritics : bool;
  tokenCharacters : string;
  separators : string;
  updated : Time
}.

(** [strings.Split(s, ",")]: the pieces between the commas, one more than
    there are commas. *)
Fixpoint splitComma (s : string) : list string :=
  match s with
  | EmptyString => [EmptyString]
  | String c rest =>
      if Ascii.eqb c ","%char then EmptyString :: splitComma rest
      else match splitComma rest with
           | [] => [String c EmptyString]
           | piece :: pieces => String c piece :: pieces
           end
  end.

(** Whether a stemmer name holds a comma. *)
Fixpoint hasComma (s : string) : bool :=
  match s with
  | EmptyString => false
  | String c rest => Ascii.eqb c ","%char || hasComma rest
  end.

(** [strings.Join(elems, ",")]. *)
Fixpoint joinComma (elems : list string) : string :=
  match elems with
  | [] => EmptyString
  | [x] => x
  | x :: rest => (x ++ "," ++ joinComma rest)%string
  end.

(** The zero [time.Time] a failed [Get] leaves in [state.Updated]. *)
Definition zeroTime : Time := -62135596800000000000.

(** [getStemmerState]: the first row of [stemmerstate], or the zero settings
    together with [sql.ErrNoRows]. *)
Definition getStemmerState (rows : list StemmerRow) : Settings * Time * option Error :=
  match rows with
  | [] => (mkSettings [] false EmptyString EmptyString, zeroTime, Some ErrNoRows)
  | r :: _ =>
      let stemmers :=
        if (String.length (languages r) =? 0)%nat then []
        else splitComma (languages r) in
      (mkSettings stemmers (removeDiacritics r) (tokenCharacters r) (separators r),
       updated r, None)
  end.

(** [setStemmerState]: insert the default row when the table has none, then
    [update stemmerstate set languages = ?, removeDiacritics = ?,
    tokenCharacters = ?, separators = ?] on every row.  [insertedAt] is the
    value the engine gives [updated] in an inserted row. *)
Definition setStemmerState (rows : list StemmerRow) (state : Settings)
    (insertedAt : Time) : list StemmerRow * option Error :=
  let '(_, _, err) := getStemmerState rows in
  let rows1 :=
    match err with
    | Some ErrNoRows =>
        rows ++ [mkStemmerRow EmptyString false EmptyString EmptyString insertedAt]
    | _ => rows
    end in
  let languages := joinComma (Stemmers state) in
  (map (fun r => mkStemmerRow languages (RemoveDiacritics state)
                              (TokenCharacters state) (Separators state) (updated r))
       rows1,
   None).

End Stemmer.

(** ** Stores and settings for the examples of the later sections *)

Module Samples.

(** A chunk left behind by a crash: one row in each state. *)
Definition crashedStore : Database :=
  mkDatabase [mkSpaceRow 1 "wp" 1000 0 ""; mkSpaceRow 2 "other" 0 0 ""]
             [mkInterestRow 1 "a" pending; mkInterestRow 2 "k" requested;
              mkInterestRow 1 "b" requested; mkInterestRow 1 "c" served]
             [mkDocRow 1 "c" 30 "sea" true].

(** Two registered spaces without any interest or document. *)
Definition coldStore : Database :=
  mkDatabase [mkSpaceRow 1 "wp" 0 0 ""; mkSpaceRow 2 "other" 0 0 ""] [] [].

(** A provider with nothing to report for the space asked for. *)
Definition replyNothing (deadline : Duration) (topic : string)
    (request : Indexer.IndexUpdateRequest) : Result Indexer.IndexUpdate :=
  Ok (Indexer.mkIndexUpdate (Indexer.ur_Space request) []).

Definition clockAt (n : nat) : Indexer.Clock :=
  Indexer.mkClock (5000 + Z.of_nat n) (5001 + Z.of_nat n) (7000 + Z.of_nat n).

Definition pacing : Startup.Pacing := Startup.mkPacing 100 10000.

(** The position is (200, "c"); one served document of the new chunk is
    stamped after it, one before. *)
Definition straddleStore : Database :=
  mkDatabase [mkSpaceRow 1 "wp" 1000 200 "c"]
             [mkInterestRow 1 "d" served; mkInterestRow 1 "e" served]
             [mkDocRow 1 "d" 250 "dee" true; mkDocRow 1 "e" 150 "ee" true].

(** A tombstone followed, in the same batch, by a live document of the same
    id. *)
Definition revivedBatch : list Document :=
  [mkDocument "b" 60 false "ignored"; mkDocument "b" 70 true "hello"].

(** A provider that echoes the space and names one document twice. *)
Definition replyRepeated (deadline : Duration) (topic : string)
    (request : Indexer.IndexUpdateRequest) : Result Indexer.IndexUpdate :=
  Ok (Indexer.mkIndexUpdate (Indexer.ur_Space request) ["x"; "x"]).

(** An engine that rejects every statement other than the one written. *)
Definition engineRejects (db : Database) (phrase : string)
    (inSpaces : list string) (limit offset : N)
  : Result (list (Store.SearchResult Z)) :=
  Err (Wrapped "statement rejected" ErrNoRows).

Definition settings : Stemmer.Settings :=
  Stemmer.mkSettings ["english"; "swedish"] true "#" "-".

End Samples.

(** ** The order of a result page ([order by rank asc]) *)

Module Ranking.

Section Order.

Variable R : Type.
Variable rank_leb : R -> R -> bool.

(** Every result ranks at or below the one that follows it. *)
Fixpoint rankedAsc (l : list (Store.SearchResult R)) : bool :=
  match l with
  | [] => true
  | x :: rest =>
      match rest with
      | [] => true
      | y :: _ => rank_leb (Store.sr_Rank x) (Store.sr_Rank y)
      end && rankedAsc rest
  end.

End Order.

End Ranking.

(** * Properties *)

(** ** Byte order on document identifiers *)

Lemma ascii_compare_refl (a : ascii) : Ascii.compare a a = Eq.
Proof. unfold Ascii.compare. apply N.compare_refl. Qed.

Lemma ascii_compare_lt_trans (a b c : ascii) :
  Ascii.compare a b = Lt -> Ascii.compare b c = Lt -> Ascii.compare a c = Lt.
Proof.
  unfold Ascii.compare. rewrite !N.compare_lt_iff. apply N.lt_trans.
Qed.

Lemma string_compare_refl (s : string) : String.compare s s = Eq.
Proof.
  induction s as [|a s IH]; simpl; [reflexivity|].
  now rewrite ascii_compare_refl.
Qed.

Lemma string_compare_lt_trans (s1 : string) :
  forall s2 s3, String.compare s1 s2 = Lt -> String.compare s2 s3 = Lt ->
                String.compare s1 s3 = Lt.
Proof.
  induction s1 as [|a s1 IH]; intros [|b s2] [|c s3]; simpl; try congruence.
  destruct (Ascii.compare a b) eqn:Hab; try discriminate.
  - apply Ascii.compare_eq_iff in Hab; subst b.
    destruct (Ascii.compare a c) eqn:Hac; try discriminate; auto.
    intros H1 H2. eapply IH; eassumption.
  - destruct (Ascii.compare b c) eqn:Hbc; try discriminate.
    + apply Ascii.compare_eq_iff in Hbc; subst c. now rewrite Hab.
    + intros _ _. now rewrite (ascii_compare_lt_trans _ _ _ Hab Hbc).
Qed.

Lemma docID_leb_refl (a : DocumentID) : docID_leb a a = true.
Proof. unfold docID_leb. now rewrite string_compare_refl. Qed.

Lemma docID_leb_trans (a b c : DocumentID) :
  docID_leb a b = true -> docID_leb b c = true -> docID_leb a c = true.
Proof.
  unfold docID_leb.
  destruct (String.compare a b) eqn:Hab; try discriminate;
    destruct (String.compare b c) eqn:Hbc; try discriminate; intros _ _.
  - apply String.compare_eq_iff in Hab, Hbc. subst. now rewrite string_compare_refl.
  - apply String.compare_eq_iff in Hab. subst. now rewrite Hbc.
  - apply String.compare_eq_iff in Hbc. subst. now rewrite Hab.
  - now rewrite (string_compare_lt_trans _ _ _ Hab Hbc).
Qed.

Lemma pos_le_refl (p : Position) : pos_le p p.
Proof.
  unfold pos_le, pos_leb. rewrite Z.eqb_refl, docID_leb_refl.
  now rewrite orb_true_r.
Qed.

Lemma pos_le_trans (p q r : Position) : pos_le p q -> pos_le q r -> pos_le p r.
Proof.
  unfold pos_le, pos_leb. intros H1 H2.
  apply orb_true_iff in H1. apply orb_true_iff in H2. apply orb_true_iff.
  destruct H1 as [H1|H1], H2 as [H2|H2];
    rewrite ?andb_true_iff, ?Z.ltb_lt, ?Z.eqb_eq in *.
  - left. lia.
  - left. destruct H2. lia.
  - left. destruct H1. lia.
  - destruct H1 as [E1 L1], H2 as [E2 L2]. right. split; [lia|].
    eapply docID_leb_trans; eassumption.
Qed.

(** ** [commitInterestList] *)

Module CommitFacts.

Import Store.

Lemma firstOrdered_In (rows : list Position) :
  forall p, firstOrdered rows = Some p -> In p rows.
Proof.
  induction rows as [|q rows IH]; simpl; intros p H; [discriminate|].
  destruct (firstOrdered rows) as [m|] eqn:Hm.
  - destruct (orderedBefore q m); inversion H; subst; auto.
  - inversion H; auto.
Qed.

Lemma firstOrdered_None (rows : list Position) :
  firstOrdered rows = None -> rows = [].
Proof.
  destruct rows as [|q rows]; simpl; [reflexivity|].
  destruct (firstOrdered rows); discriminate.
Qed.

(** The timestamp of the selected row is the greatest among the rows. *)
Lemma firstOrdered_timestamp (rows : list Position) :
  forall p, firstOrdered rows = Some p ->
            forall c, In c rows -> fst c <= fst p.
Proof.
  induction rows as [|q rows IH]; simpl; intros p H c Hc; [contradiction|].
  destruct (firstOrdered rows) as [m|] eqn:Hm.
  - specialize (IH m eq_refl).
    unfold orderedBefore in H.
    destruct (fst m <? fst q) eqn:Hlt; simpl in H.
    + inversion H; subst p. apply Z.ltb_lt in Hlt.
      destruct Hc as [->|Hc]; [lia|]. specialize (IH c Hc). lia.
    + apply Z.ltb_ge in Hlt.
      destruct (fst q =? fst m) eqn:Heq; simpl in H.
      * apply Z.eqb_eq in Heq.
        assert (fst p = fst m) as Hp
          by (destruct (docID_leb (snd q) (snd m)); inversion H; subst; lia).
        destruct Hc as [->|Hc]; [lia|]. specialize (IH c Hc). lia.
      * inversion H; subst p. apply Z.eqb_neq in Heq.
        destruct Hc as [->|Hc]; [lia|]. now apply IH.
  - inversion H; subst p. apply firstOrdered_None in Hm. subst rows.
    destruct Hc as [->|[]]. lia.
Qed.

Lemma find_updateIndexPosition (space : string) (p : Position) (rows : list SpaceRow) :
  forall r, find (spaceNamed space) rows = Some r ->
    find (spaceNamed space) (updateIndexPosition space p rows)
    = Some (mkSpaceRow (sp_spaceID r) (sp_space r) (listCreatedAtNanos r) (fst p) (snd p)).
Proof.
  induction rows as [|s rows IH]; simpl; intros r H; [discriminate|].
  destruct (spaceNamed space s) eqn:Hs.
  - inversion H; subst s. simpl. unfold spaceNamed in *. simpl. now rewrite Hs.
  - simpl. rewrite Hs. now apply IH.
Qed.

Lemma find_updateIndexPosition_None (space : string) (p : Position) (rows : list SpaceRow) :
  find (spaceNamed space) rows = None ->
  find (spaceNamed space) (updateIndexPosition space p rows) = None.
Proof.
  induction rows as [|s rows IH]; simpl; intros H; [reflexivity|].
  destruct (spaceNamed space s) eqn:Hs; [discriminate|].
  simpl. rewrite Hs. now apply IH.
Qed.

(** The two ways a commit returns success. *)
Lemma commit_success (d d' : Database) (space : string) :
  commitInterestList d space = (d', None) ->
  (commitCandidates d space = [] /\ d' = d)
  \/ (exists p, firstOrdered (commitCandidates d space) = Some p
                /\ d' = withSpaces d (updateIndexPosition space p (spaces d))).
Proof.
  unfold commitInterestList. simpl.
  destruct (firstOrdered (commitCandidates d space)) as [p|] eqn:Hf.
  - destruct (negb _); intros H; inversion H; subst.
    right. exists p. split; reflexivity.
  - intros H; inversion H; subst. left. split; [|reflexivity].
    now apply firstOrdered_None.
Qed.

Lemma positionOf_commit (d d' : Database) (space : string) (p : Position) :
  commitInterestList d space = (d', None) ->
  positionOf d space = Some p ->
  positionOf d' space = Some p
  \/ (exists c, In c (commitCandidates d space) /\ positionOf d' space = Some c).
Proof.
  intros Hc Hp. destruct (commit_success _ _ Hc) as [[_ ->]|[c [Hf ->]]]; [now left|].
  right. exists c. split; [now apply firstOrdered_In|].
  unfold positionOf, getInterestListState in *. simpl.
  destruct (find (spaceNamed space) (spaces d)) as [r|] eqn:Hr; [|discriminate].
  rewrite (find_updateIndexPosition _ c _ Hr). simpl. now destruct c.
Qed.

End CommitFacts.

(** C1 (the code departs from the claim), evaluated at two stores.
    At [Examples.twoSpaces] the space ["wp"] has no served interest, yet
    [commitInterestList] moves its position from (7, "k") to (50, "x"), the
    document of a served interest of ["other"]: the query neither restricts
    [interest] to the space nor joins the documents on the space.
    At [Examples.tieStore] both served documents carry the latest timestamp
    5: the stored position is (5, "a"), the lowest document id among them,
    where the highest pair of the space's served interests is (5, "b"). *)
Theorem commitInterestList_departs_from_highest_position :
  (Spec.servedPositions Examples.twoSpaces "wp" = []
   /\ positionOf Examples.twoSpaces "wp" = Some (7, "k")
   /\ snd (Store.commitInterestList Examples.twoSpaces "wp") = None
   /\ positionOf (fst (Store.commitInterestList Examples.twoSpaces "wp")) "wp"
      = Some (50, "x"))
  /\ (Store.commitInterestList Examples.tieStore "wp"
      = (mkDatabase [mkSpaceRow 1 "wp" 10 5 "a"]
                    (interest Examples.tieStore) (docs Examples.tieStore), None)
      /\ Spec.highest (Spec.servedPositions Examples.tieStore "wp") = Some (5, "b")).
Proof.
  split.
  - repeat split; vm_compute; reflexivity.
  - split; vm_compute; reflexivity.
Qed.

(** What the commit does store: a row the query selects, whose timestamp is
    the greatest of the selected rows (all of them below the list creation
    time of the space). *)
Lemma commitInterestList_timestamp (d d' : Database) (space : string) (p p' : Position) :
  Store.commitInterestList d space = (d', None) ->
  positionOf d space = Some p ->
  positionOf d' space = Some p' ->
  (Store.commitCandidates d space = [] /\ p' = p)
  \/ (In p' (Store.commitCandidates d space)
      /\ forall c, In c (Store.commitCandidates d space) -> fst c <= fst p').
Proof.
  intros Hc Hp Hp'.
  destruct (CommitFacts.commit_success _ _ Hc) as [[He ->]|[c [Hf ->]]].
  - left. split; [assumption|congruence].
  - right.
    assert (p' = c) as ->.
    { unfold positionOf, Store.getInterestListState in *. simpl in Hp'.
      destruct (find (Store.spaceNamed space) (spaces d)) as [r|] eqn:Hr; [|discriminate].
      rewrite (CommitFacts.find_updateIndexPosition _ c _ Hr) in Hp'.
      simpl in Hp'. destruct c; simpl in *; congruence. }
    split; [now apply CommitFacts.firstOrdered_In|].
    now apply CommitFacts.firstOrdered_timestamp.
Qed.


(** ** [setInterestList] *)

Module ListFacts.

Import Store.

Lemma filter_length_zero {A : Type} (f : A -> bool) (l : list A) :
  Z.of_nat (List.length (filter f l)) = 0 <-> (forall x, In x l -> f x = false).
Proof.
  induction l as [|a l IH]; simpl.
  - split; [intros _ x []|reflexivity].
  - destruct (f a) eqn:Ha; simpl.
    + split; [lia|]. intros H. specialize (H a (or_introl eq_refl)). congruence.
    + rewrite IH. split.
      * intros H x [<-|Hx]; auto.
      * intros H x Hx. apply H. now right.
Qed.

Lemma cleared_has_no_key (spaceID : Z) (docID : DocumentID) (rows : list InterestRow) :
  existsb (interestKey spaceID docID)
          (filter (fun i => negb (interestOf spaceID i)) rows) = false.
Proof.
  induction rows as [|r rows IH]; simpl; [reflexivity|].
  destruct (interestOf spaceID r) eqn:Hr; simpl; [assumption|].
  rewrite IH. unfold interestKey, interestOf in *. now rewrite Hr.
Qed.

Lemma insertPending_fresh (spaceID : Z) (ids : list DocumentID) :
  forall rows,
    NoDup ids ->
    (forall id, In id ids -> existsb (interestKey spaceID id) rows = false) ->
    insertPending spaceID ids rows
    = Ok (rows ++ map (fun id => mkInterestRow spaceID id pending) ids).
Proof.
  induction ids as [|id ids IH]; simpl; intros rows Hnd Hfresh.
  - now rewrite app_nil_r.
  - unfold insertInterest. rewrite (Hfresh id (or_introl eq_refl)). simpl.
    inversion Hnd as [|? ? Hnotin Hnd']; subst.
    rewrite IH; [now rewrite <- app_assoc|assumption|].
    intros id' Hin. rewrite existsb_app, (Hfresh id' (or_intror Hin)). simpl.
    unfold interestKey. simpl. rewrite Z.eqb_refl. simpl.
    rewrite orb_false_r. apply String.eqb_neq. intros ->. contradiction.
Qed.

Lemma find_updateListCreated (space : string) (now : Z) (rows : list SpaceRow) :
  forall r, find (spaceNamed space) rows = Some r ->
    find (spaceNamed space) (updateListCreated (sp_spaceID r) now rows)
    = Some (mkSpaceRow (sp_spaceID r) (sp_space r) now
                       (lastUpdatedAtNanos r) (lastUpdatedDocID r)).
Proof.
  induction rows as [|s rows IH]; simpl; intros r H; [discriminate|].
  destruct (spaceNamed space s) eqn:Hs.
  - inversion H; subst s. rewrite Z.eqb_refl. simpl.
    unfold spaceNamed in *. simpl. now rewrite Hs.
  - destruct (sp_spaceID s =? sp_spaceID r); simpl;
      unfold spaceNamed in *; simpl; rewrite Hs; now apply IH.
Qed.

End ListFacts.

(** C3 as stated fails: with no interest row at all (so every existing row is
    served), the call fails for a space the [spaces] table does not hold, and
    for a list that repeats a document id. *)
Lemma setInterestList_fails_without_active_list :
  let d := mkDatabase [mkSpaceRow 1 "wp" 0 0 ""] [] [] in
  (forall i, In i (interest d) -> in_state i = served)
  /\ Store.setInterestList d "nope" ["a"] 5 = (d, Some ErrNoRows)
  /\ Store.setInterestList d "wp" ["a"; "a"] 5 = (d, Some ConstraintFailed).
Proof.
  simpl. split; [intros i []|]. split; vm_compute; reflexivity.
Qed.

(** C3 (amended).  For a space held by the [spaces] table and a list without
    repeated document ids, [setInterestList] succeeds exactly when every
    interest row of the space is served.  On success the space's interest
    rows are deleted, the list is inserted as pending rows, and the space's
    [listCreatedAtNanos] is the current time; otherwise the call fails with
    [ActiveListExists] and the store is unchanged. *)
Theorem setInterestList_iff_all_served
    (d : Database) (space : string) (ids : list DocumentID) (now : Z) (r : SpaceRow) :
  find (Store.spaceNamed space) (spaces d) = Some r ->
  NoDup ids ->
  let allServed :=
    forall i, In i (interest d) -> in_spaceID i = sp_spaceID r -> in_state i = served in
  let result := Store.setInterestList d space ids now in
  (snd result = None <-> allServed)
  /\ (allServed ->
      interest (fst result)
      = filter (fun i => negb (Store.interestOf (sp_spaceID r) i)) (interest d)
        ++ map (fun id => mkInterestRow (sp_spaceID r) id pending) ids
      /\ spaces (fst result) = Store.updateListCreated (sp_spaceID r) now (spaces d)
      /\ docs (fst result) = docs d
      /\ Store.getInterestListState (fst result) space
         = Ok (mkInterestListState now (lastUpdatedAtNanos r) (lastUpdatedDocID r)))
  /\ (~ allServed -> result = (d, Some ActiveListExists)).
Proof.
  intros Hfind Hnd allServed result.
  set (active := fun i => Store.interestOf (sp_spaceID r) i
                          && negb (InterestState_eqb (in_state i) served)).
  assert (Z.of_nat (List.length (filter active (interest d))) = 0 <-> allServed) as Hcount.
  { rewrite ListFacts.filter_length_zero. unfold allServed, active, Store.interestOf.
    split; intros H i Hi.
    - intros Hs. specialize (H i Hi). rewrite Hs, Z.eqb_refl in H. simpl in H.
      destruct (in_state i); simpl in H; congruence.
    - destruct (in_spaceID i =? sp_spaceID r) eqn:Hs; [|reflexivity].
      apply Z.eqb_eq in Hs. rewrite (H i Hi Hs). reflexivity. }
  assert (allServed ->
          result = (mkDatabase (Store.updateListCreated (sp_spaceID r) now (spaces d))
                      (filter (fun i => negb (Store.interestOf (sp_spaceID r) i)) (interest d)
                       ++ map (fun id => mkInterestRow (sp_spaceID r) id pending) ids)
                      (docs d), None)) as Hok.
  { intros Hall. apply Hcount in Hall.
    unfold result, Store.setInterestList. simpl. rewrite Hfind.
    fold active. rewrite Hall. simpl.
    rewrite ListFacts.insertPending_fresh; [reflexivity|assumption|].
    intros id _. apply ListFacts.cleared_has_no_key. }
  assert (~ allServed -> result = (d, Some ActiveListExists)) as Hfail.
  { intros Hnot. unfold result, Store.setInterestList. simpl. rewrite Hfind.
    fold active.
    destruct (Z.of_nat (List.length (filter active (interest d))) =? 0) eqn:Hz.
    - apply Z.eqb_eq in Hz. apply Hcount in Hz. contradiction.
    - reflexivity. }
  split; [|split].
  - split.
    + intros Hnone.
      destruct (Z.of_nat (List.length (filter active (interest d))) =? 0) eqn:Hz.
      * apply Z.eqb_eq in Hz. now apply Hcount.
      * exfalso. unfold result, Store.setInterestList in Hnone. simpl in Hnone.
        rewrite Hfind in Hnone. fold active in Hnone. rewrite Hz in Hnone.
        simpl in Hnone. discriminate.
    + intros Hall. rewrite (Hok Hall). reflexivity.
  - intros Hall. rewrite (Hok Hall). simpl. repeat split.
    unfold Store.getInterestListState. simpl.
    now rewrite (ListFacts.find_updateListCreated _ now _ Hfind).
  - exact Hfail.
Qed.

Lemma setInterestList_iff_all_served_witness :
  find (Store.spaceNamed "wp") (spaces Examples.chunkStore)
  = Some (mkSpaceRow 1 "wp" 1000 0 "")
  /\ NoDup ["x"; "y"]
  /\ snd (Store.setInterestList Examples.chunkStore "wp" ["x"; "y"] 77) = None
  /\ interest (fst (Store.setInterestList Examples.chunkStore "wp" ["x"; "y"] 77))
     = [mkInterestRow 1 "x" pending; mkInterestRow 1 "y" pending].
Proof.
  assert (NoDup ["x"; "y"]) as Hnd.
  { repeat constructor; simpl; intuition discriminate. }
  split; [reflexivity|]. split; [exact Hnd|].
  destruct (@setInterestList_iff_all_served Examples.chunkStore "wp" ["x"; "y"] 77
              (mkSpaceRow 1 "wp" 1000 0 "") eq_refl Hnd) as [Hiff [Hok _]].
  assert (forall i, In i (interest Examples.chunkStore) ->
                    in_spaceID i = 1 -> in_state i = served) as Hall.
  { intros i Hi _. simpl in Hi. destruct Hi as [<-|[<-|[<-|[]]]]; reflexivity. }
  split.
  - apply Hiff. exact Hall.
  - destruct (Hok Hall) as [Hi _]. exact Hi.
Defined.

(** ** [addDocumentUpdates] *)

Module DocFacts.

Import Store Batch.

Section WithEngine.

Variable rowsAffected : DocRow -> Z.

Lemma docLoop_all_one (spaceID : Z) (batch : list Document) :
  forall w,
    (forall doc, In doc batch -> rowsAffected (docRowOf spaceID doc) = 1) ->
    docLoop rowsAffected spaceID w batch = Ok (fold_left (applyDoc spaceID) batch w).
Proof.
  induction batch as [|doc batch IH]; simpl; intros w H; [reflexivity|].
  unfold docStep. rewrite (H doc (or_introl eq_refl)). simpl.
  apply IH. intros doc' Hin. apply H. now right.
Qed.

Lemma docLoop_some_not_one (spaceID : Z) (batch : list Document) :
  forall w doc,
    In doc batch -> rowsAffected (docRowOf spaceID doc) <> 1 ->
    docLoop rowsAffected spaceID w batch = Err DocWriteFailed.
Proof.
  induction batch as [|d0 batch IH]; simpl; intros w doc Hin Hne; [contradiction|].
  unfold docStep.
  destruct (rowsAffected (docRowOf spaceID d0) =? 1) eqn:H0; simpl; [|reflexivity].
  destruct Hin as [->|Hin].
  - apply Z.eqb_eq in H0. contradiction.
  - eapply IH; eassumption.
Qed.

Lemma docLoop_ok_inv (spaceID : Z) (batch : list Document) :
  forall w w',
    docLoop rowsAffected spaceID w batch = Ok w' ->
    forall doc, In doc batch -> rowsAffected (docRowOf spaceID doc) = 1.
Proof.
  intros w w' Hok doc Hin.
  destruct (Z.eq_dec (rowsAffected (docRowOf spaceID doc)) 1) as [E|N]; [assumption|].
  rewrite (@docLoop_some_not_one spaceID batch w doc Hin N) in Hok. discriminate.
Qed.

End WithEngine.

(** *** The tables after the loop *)

Lemma spaces_fold (spaceID : Z) (batch : list Document) :
  forall w, spaces (fold_left (applyDoc spaceID) batch w) = spaces w.
Proof.
  induction batch as [|doc batch IH]; simpl; intros w; [reflexivity|].
  now rewrite IH.
Qed.

Lemma docs_fold (spaceID : Z) (batch : list Document) :
  forall w, docs (fold_left (applyDoc spaceID) batch w)
            = replaceAll (map (docRowOf spaceID) batch) (docs w).
Proof.
  induction batch as [|doc batch IH]; simpl; intros w; [reflexivity|].
  now rewrite IH.
Qed.

Lemma markServed_cons (spaceID : Z) (id : DocumentID) (ids : list DocumentID)
    (rows : list InterestRow) :
  markServed spaceID ids (updateInterestState spaceID id served rows)
  = markServed spaceID (id :: ids) rows.
Proof.
  unfold markServed, updateInterestState. rewrite map_map.
  apply map_ext. intros i. unfold interestKey, interestOf. simpl.
  destruct (in_spaceID i =? spaceID) eqn:Hs; simpl; [|now rewrite Hs].
  destruct (String.eqb (in_docID i) id) eqn:Hid; simpl.
  - rewrite Hs. simpl. now destruct (existsb (String.eqb (in_docID i)) ids).
  - rewrite Hs. reflexivity.
Qed.

Lemma interest_fold (spaceID : Z) (batch : list Document) :
  forall w, interest (fold_left (applyDoc spaceID) batch w)
            = markServed spaceID (map ID batch) (interest w).
Proof.
  induction batch as [|doc batch IH]; simpl; intros w.
  - unfold markServed. simpl. rewrite <- (map_id (interest w)) at 1.
    apply map_ext. intros i. now rewrite andb_false_r.
  - rewrite IH. simpl. apply markServed_cons.
Qed.

Lemma markServed_idempotent (spaceID : Z) (ids : list DocumentID)
    (rows : list InterestRow) :
  markServed spaceID ids (markServed spaceID ids rows) = markServed spaceID ids rows.
Proof.
  unfold markServed. rewrite map_map. apply map_ext. intros i.
  destruct (interestOf spaceID i && existsb (String.eqb (in_docID i)) ids) eqn:H;
    [|now rewrite H].
  unfold interestOf in *. simpl. now rewrite H.
Qed.




End DocFacts.

Module ReplaceFacts.

Import Store Batch.

Lemma docKey_self (r : DocRow) : docKey (d_spaceID r) (d_docID r) r = true.
Proof. unfold docKey. now rewrite Z.eqb_refl, String.eqb_refl. Qed.

Lemma docKey_eq (spaceID : Z) (docID : DocumentID) (r : DocRow) :
  docKey spaceID docID r = true <-> d_spaceID r = spaceID /\ d_docID r = docID.
Proof.
  unfold docKey. now rewrite andb_true_iff, Z.eqb_eq, String.eqb_eq.
Qed.

Lemma docKey_docRowOf (spaceID : Z) (x y : Document) :
  docKey (d_spaceID (docRowOf spaceID x)) (d_docID (docRowOf spaceID x))
         (docRowOf spaceID y)
  = String.eqb (ID y) (ID x).
Proof.
  unfold docKey, docRowOf. cbn [d_spaceID d_docID]. now rewrite Z.eqb_refl.
Qed.

Lemma replaceDoc_In_new (row : DocRow) (t : list DocRow) : In row (replaceDoc row t).
Proof. unfold replaceDoc. apply in_or_app. right. now left. Qed.

Lemma replaceDoc_In_inv (row : DocRow) (t : list DocRow) (r : DocRow) :
  In r (replaceDoc row t) ->
  r = row \/ (In r t /\ docKey (d_spaceID row) (d_docID row) r = false).
Proof.
  unfold replaceDoc. intros H. apply in_app_or in H. destruct H as [H|[H|[]]].
  - apply filter_In in H. destruct H as [Hin Hk]. right. split; [assumption|].
    now apply negb_true_iff in Hk.
  - now left.
Qed.

Lemma replaceDoc_In_other (row : DocRow) (t : list DocRow) (r : DocRow) :
  In r t -> docKey (d_spaceID row) (d_docID row) r = false ->
  In r (replaceDoc row t).
Proof.
  intros Hin Hk. unfold replaceDoc. apply in_or_app. left.
  apply filter_In. split; [assumption|]. now rewrite Hk.
Qed.

Lemma replaceAll_keeps (post : list DocRow) (row : DocRow) :
  forall t,
    (forall p, In p post -> docKey (d_spaceID p) (d_docID p) row = false) ->
    In row t -> In row (replaceAll post t).
Proof.
  induction post as [|p post IH]; simpl; intros t Hpost Hin; [assumption|].
  apply IH; [intros q Hq; apply Hpost; now right|].
  apply replaceDoc_In_other; [assumption|]. apply Hpost. now left.
Qed.

Lemma replaceAll_keeps_unique (post : list DocRow) (row : DocRow) :
  forall t,
    (forall p, In p post -> docKey (d_spaceID row) (d_docID row) p = false) ->
    (forall r, In r t -> docKey (d_spaceID row) (d_docID row) r = true -> r = row) ->
    forall r, In r (replaceAll post t) ->
              docKey (d_spaceID row) (d_docID row) r = true -> r = row.
Proof.
  induction post as [|p post IH]; simpl; intros t Hpost Huniq; [assumption|].
  apply IH; [intros q Hq; apply Hpost; now right|].
  intros r Hr Hk. apply replaceDoc_In_inv in Hr. destruct Hr as [->|[Hr _]].
  - rewrite (Hpost p (or_introl eq_refl)) in Hk. discriminate.
  - now apply Huniq.
Qed.

(** The last row written for a key is in the table afterwards. *)
Lemma replaceAll_last (pre post : list DocRow) (row : DocRow) (t : list DocRow) :
  (forall p, In p post -> docKey (d_spaceID p) (d_docID p) row = false) ->
  In row (replaceAll (pre ++ row :: post) t).
Proof.
  intros Hpost. unfold replaceAll. rewrite fold_left_app. simpl.
  apply replaceAll_keeps; [assumption|apply replaceDoc_In_new].
Qed.

(** ... and it is the only row of its key. *)
Lemma replaceAll_last_unique (pre post : list DocRow) (row : DocRow) (t : list DocRow) :
  (forall p, In p post -> docKey (d_spaceID row) (d_docID row) p = false) ->
  forall r, In r (replaceAll (pre ++ row :: post) t) ->
            docKey (d_spaceID row) (d_docID row) r = true -> r = row.
Proof.
  intros Hpost. unfold replaceAll. rewrite fold_left_app. simpl.
  apply replaceAll_keeps_unique; [assumption|].
  intros r Hr Hk. apply replaceDoc_In_inv in Hr. destruct Hr as [->|[_ Hf]];
    [reflexivity|congruence].
Qed.

Lemma replaceAll_In_inv (rows : list DocRow) :
  forall t r, In r (replaceAll rows t) -> In r t \/ In r rows.
Proof.
  induction rows as [|row rows IH]; simpl; intros t r H; [now left|].
  apply IH in H. destruct H as [H|H]; [|right; now right].
  apply replaceDoc_In_inv in H. destruct H as [->|[H _]]; [right; now left|now left].
Qed.


Lemma filter_filter {A : Type} (f g : A -> bool) (l : list A) :
  filter f (filter g l) = filter (fun x => g x && f x) l.
Proof.
  induction l as [|a l IH]; simpl; [reflexivity|].
  destruct (g a); simpl; [destruct (f a)|]; now rewrite IH.
Qed.

(** The table after a batch: the rows no key of the batch touches, then what
    the batch writes into an empty table. *)
Lemma replaceAll_closed_form (rows : list DocRow) :
  forall t, replaceAll rows t = filter (keyNotIn rows) t ++ replaceAll rows [].
Proof.
  induction rows as [|row rows IH]; intros t.
  - simpl. rewrite app_nil_r. unfold keyNotIn. simpl.
    induction t as [|a t IHt]; simpl; [reflexivity|]. now rewrite <- IHt.
  - simpl. rewrite (IH (replaceDoc row t)), (IH (replaceDoc row [])).
    unfold replaceDoc at 1 2. simpl.
    rewrite filter_app, filter_filter, <- app_assoc. reflexivity.
Qed.

Lemma keyNotIn_of_member (rows : list DocRow) (r : DocRow) :
  In r rows -> keyNotIn rows r = false.
Proof.
  intros Hin. unfold keyNotIn.
  destruct (forallb _ rows) eqn:H; [|reflexivity].
  rewrite forallb_forall in H. specialize (H r Hin).
  now rewrite docKey_self in H.
Qed.

Lemma filter_none {A : Type} (f : A -> bool) (l : list A) :
  (forall x, In x l -> f x = false) -> filter f l = [].
Proof.
  induction l as [|a l IH]; simpl; intros H; [reflexivity|].
  rewrite (H a (or_introl eq_refl)). apply IH. intros x Hx. apply H. now right.
Qed.

Lemma filter_same {A : Type} (f : A -> bool) (l : list A) :
  filter f (filter f l) = filter f l.
Proof.
  rewrite filter_filter. apply filter_ext. intros a. now destruct (f a).
Qed.

(** Writing the same batch again changes nothing. *)
Lemma replaceAll_idempotent (rows t : list DocRow) :
  replaceAll rows (replaceAll rows t) = replaceAll rows t.
Proof.
  rewrite (replaceAll_closed_form rows (replaceAll rows t)).
  rewrite (replaceAll_closed_form rows t) at 1.
  rewrite filter_app, filter_same.
  rewrite (filter_none (keyNotIn rows) (replaceAll rows [])).
  - rewrite app_nil_r. symmetry. apply replaceAll_closed_form.
  - intros r Hr. apply replaceAll_In_inv in Hr. destruct Hr as [[]|Hr].
    now apply keyNotIn_of_member.
Qed.

End ReplaceFacts.

Lemma Database_ext (a b : Database) :
  spaces a = spaces b -> interest a = interest b -> docs a = docs b -> a = b.
Proof. destruct a, b; simpl; intros; subst; reflexivity. Qed.

(** The outcome of a batch in which every upsert reports one row. *)
Lemma addDocumentUpdates_all_one
    (rowsAffected : DocRow -> Z) (d : Database) (space : string)
    (batch : list Document) (spaceID : Z) :
  Store.getSpaceID d space = Ok spaceID ->
  (forall doc, In doc batch -> rowsAffected (Store.docRowOf spaceID doc) = 1) ->
  Store.addDocumentUpdates rowsAffected d space batch
  = (fold_left (Batch.applyDoc spaceID) batch d, None).
Proof.
  intros Hs Hone. unfold Store.addDocumentUpdates. rewrite Hs. simpl.
  now rewrite (DocFacts.docLoop_all_one rowsAffected spaceID batch d Hone).
Qed.

(** The row of the last document written for a key is the stored row of
    that key. *)
Lemma last_document_row_stored
    (rowsAffected : DocRow -> Z) (d : Database) (space : string) (spaceID : Z)
    (pre post : list Document) (doc : Document) :
  Store.getSpaceID d space = Ok spaceID ->
  (forall x, In x (pre ++ doc :: post) ->
             rowsAffected (Store.docRowOf spaceID x) = 1) ->
  (forall p, In p post -> ID p <> ID doc) ->
  let result := Store.addDocumentUpdates rowsAffected d space (pre ++ doc :: post) in
  snd result = None
  /\ spaces (fst result) = spaces d
  /\ In (Store.docRowOf spaceID doc) (docs (fst result))
  /\ forall r, In r (docs (fst result)) ->
               d_spaceID r = spaceID -> d_docID r = ID doc ->
               r = Store.docRowOf spaceID doc.
Proof.
  intros Hs Hone Hpost result. unfold result.
  rewrite (addDocumentUpdates_all_one rowsAffected d space (pre ++ doc :: post) Hs Hone).
  simpl. rewrite DocFacts.spaces_fold, DocFacts.docs_fold.
  split; [reflexivity|]. split; [reflexivity|].
  rewrite map_app. simpl. split.
  - apply ReplaceFacts.replaceAll_last. intros p Hp.
    apply in_map_iff in Hp. destruct Hp as [x [<- Hx]].
    rewrite ReplaceFacts.docKey_docRowOf. apply String.eqb_neq.
    intros E. now apply (Hpost x Hx).
  - intros r Hr E1 E2.
    apply (ReplaceFacts.replaceAll_last_unique
             (map (Store.docRowOf spaceID) pre)
             (map (Store.docRowOf spaceID) post)
             (Store.docRowOf spaceID doc) (docs d)); [|exact Hr|].
    + intros p Hp. apply in_map_iff in Hp. destruct Hp as [x [<- Hx]].
      rewrite ReplaceFacts.docKey_docRowOf. apply String.eqb_neq. now apply Hpost.
    + apply ReplaceFacts.docKey_eq. now split.
Qed.


(** C9.  When applying a batch succeeds, applying the same batch again
    succeeds as well and leaves the store exactly as the first application
    left it. *)
Theorem addDocumentUpdates_idempotent
    (rowsAffected : DocRow -> Z) (d d1 : Database) (space : string)
    (batch : list Document) :
  Store.addDocumentUpdates rowsAffected d space batch = (d1, None) ->
  Store.addDocumentUpdates rowsAffected d1 space batch = (d1, None).
Proof.
  intros H1. unfold Store.addDocumentUpdates in H1.
  destruct (Store.getSpaceID d space) as [spaceID|e] eqn:Hs; [|discriminate].
  simpl in H1.
  destruct (Store.docLoop rowsAffected spaceID d batch) as [w|e] eqn:Hloop;
    [|discriminate].
  pose proof (DocFacts.docLoop_ok_inv rowsAffected spaceID batch d Hloop) as Hone.
  rewrite (DocFacts.docLoop_all_one rowsAffected spaceID batch d Hone) in Hloop.
  inversion Hloop; subst w. inversion H1; subst d1. clear H1 Hloop.
  assert (Store.getSpaceID (fold_left (Batch.applyDoc spaceID) batch d) space
          = Ok spaceID) as Hs'.
  { unfold Store.getSpaceID in *. now rewrite DocFacts.spaces_fold. }
  rewrite (addDocumentUpdates_all_one rowsAffected _ space batch Hs' Hone).
  f_equal. apply Database_ext.
  - now rewrite !DocFacts.spaces_fold.
  - rewrite DocFacts.interest_fold, (DocFacts.interest_fold spaceID batch d).
    apply DocFacts.markServed_idempotent.
  - rewrite DocFacts.docs_fold, (DocFacts.docs_fold spaceID batch d).
    apply ReplaceFacts.replaceAll_idempotent.
Qed.


(** ** [search] *)

Module SearchFacts.

Import Store.

Section WithFullText.

Variable R : Type.
Variable ftsMatch : string -> DocRow -> bool.
Variable snippet : string -> DocRow -> string.
Variable rank : string -> DocRow -> R.
Variable rank_leb : R -> R -> bool.
Variable splicedQuery :
  Database -> string -> list string -> N -> N -> Result (list (SearchResult R)).

Lemma insertRanked_In (x y : SearchResult R) (l : list (SearchResult R)) :
  In x (insertRanked rank_leb y l) -> x = y \/ In x l.
Proof.
  induction l as [|z l IH]; simpl.
  - intros [<-|[]]. now left.
  - destruct (rank_leb (sr_Rank y) (sr_Rank z)); simpl.
    + intros [<-|[<-|H]]; auto.
    + intros [<-|H]; auto. destruct (IH H); auto.
Qed.

Lemma orderByRank_In (x : SearchResult R) (l : list (SearchResult R)) :
  In x (orderByRank rank_leb l) -> In x l.
Proof.
  induction l as [|y l IH]; simpl; [auto|].
  intros H. apply insertRanked_In in H. destruct H as [->|H]; auto.
Qed.

Lemma In_firstn {A : Type} (n : nat) (l : list A) (x : A) :
  In x (firstn n l) -> In x l.
Proof.
  intros H. rewrite <- (firstn_skipn n l). apply in_or_app. now left.
Qed.

Lemma In_skipn {A : Type} (n : nat) (l : list A) (x : A) :
  In x (skipn n l) -> In x l.
Proof.
  intros H. rewrite <- (firstn_skipn n l). apply in_or_app. now right.
Qed.

(** For one space and a plain phrase the page is a window of the ranked
    rows of the query. *)
Lemma search_plain (d : Database) (phrase space : string) (limit offset : N) :
  plainPhrase phrase = true ->
  search ftsMatch snippet rank rank_leb splicedQuery d phrase [space] limit offset
  = Ok (firstn (N.to_nat limit)
          (skipn (N.to_nat offset)
             (orderByRank rank_leb
                (searchRows ftsMatch snippet rank d phrase [space])))).
Proof. intros H. unfold search. now rewrite H. Qed.

(** Every row of the query is a live document that matches the phrase,
    joined with the row of its space, which carries one of the names asked
    for. *)
Lemma searchRows_inv (d : Database) (phrase : string) (inSpaces : list string)
    (res : SearchResult R) :
  In res (searchRows ftsMatch snippet rank d phrase inSpaces) ->
  In (sr_Space res) inSpaces
  /\ exists row s,
       In row (docs d) /\ alive row = true /\ ftsMatch phrase row = true
       /\ In s (spaces d) /\ sp_spaceID s = d_spaceID row
       /\ sp_space s = sr_Space res
       /\ sr_ID res = d_docID row
       /\ sr_Snippet res = snippet phrase row
       /\ sr_Rank res = rank phrase row.
Proof.
  unfold searchRows. intros H. apply in_flat_map in H.
  destruct H as [row [Hrow H]].
  destruct (ftsMatch phrase row) eqn:Hm; [|contradiction].
  destruct (alive row) eqn:Ha; [|contradiction].
  cbn [andb] in H. apply in_flat_map in H. destruct H as [s [Hs H]].
  destruct (sp_spaceID s =? d_spaceID row) eqn:Hid; [|contradiction].
  destruct (existsb (String.eqb (sp_space s)) inSpaces) eqn:He;
    [|contradiction].
  destruct H as [<-|[]]. cbn [sr_Space sr_ID sr_Snippet sr_Rank].
  split.
  - apply existsb_exists in He. destruct He as [x [Hx He]].
    apply String.eqb_eq in He. now subst x.
  - exists row, s. apply Z.eqb_eq in Hid. auto 10.
Qed.

(** Every result of a page comes from such a row of the space asked for. *)
Lemma search_inv (d : Database) (phrase space : string)
    (limit offset : N) (page : list (SearchResult R)) (res : SearchResult R) :
  plainPhrase phrase = true ->
  search ftsMatch snippet rank rank_leb splicedQuery d phrase [space] limit offset
  = Ok page ->
  In res page ->
  sr_Space res = space
  /\ exists row s,
       In row (docs d) /\ alive row = true /\ ftsMatch phrase row = true
       /\ In s (spaces d) /\ sp_spaceID s = d_spaceID row
       /\ sp_space s = sr_Space res
       /\ sr_ID res = d_docID row
       /\ sr_Snippet res = snippet phrase row
       /\ sr_Rank res = rank phrase row.
Proof.
  intros Hplain Hpage H.
  rewrite (@search_plain d phrase space limit offset Hplain) in Hpage.
  inversion Hpage; subst page.
  apply In_firstn, In_skipn, orderByRank_In in H.
  apply searchRows_inv in H. destruct H as [[Hs|[]] H].
  split; [now symmetry|exact H].
Qed.

End WithFullText.

Lemma find_named_In (space : string) (rows : list SpaceRow) (r : SpaceRow) :
  find (spaceNamed space) rows = Some r -> In r rows /\ sp_space r = space.
Proof.
  intros H. apply find_some in H. destruct H as [Hin Hn].
  split; [assumption|]. now apply String.eqb_eq in Hn.
Qed.

Lemma NoDup_map_inj {A B : Type} (f : A -> B) (l : list A) :
  NoDup (map f l) -> forall a b, In a l -> In b l -> f a = f b -> a = b.
Proof.
  induction l as [|x l IH]; simpl; intros Hnd a b Ha Hb Hf; [contradiction|].
  inversion Hnd as [|? ? Hnotin Hnd']; subst.
  destruct Ha as [->|Ha], Hb as [->|Hb]; auto.
  - exfalso. apply Hnotin. rewrite Hf. now apply in_map.
  - exfalso. apply Hnotin. rewrite <- Hf. now apply in_map.
Qed.

(** With unique space names, the rows named [space] carry the id
    [getSpaceID] returns. *)
Lemma unique_name_spaceID (d : Database) (space : string) (spaceID : Z) (s : SpaceRow) :
  NoDup (map sp_space (spaces d)) ->
  getSpaceID d space = Ok spaceID ->
  In s (spaces d) -> sp_space s = space -> sp_spaceID s = spaceID.
Proof.
  intros Hnd Hget Hin Hname. unfold getSpaceID in Hget.
  destruct (find (spaceNamed space) (spaces d)) as [r|] eqn:Hr; [|discriminate].
  inversion Hget; subst spaceID.
  apply find_named_In in Hr. destruct Hr as [Hrin Hrname].
  now rewrite (NoDup_map_inj sp_space (spaces d) Hnd s r Hin Hrin) by congruence.
Qed.

End SearchFacts.

(** C8 as stated fails: a document with [Alive = false] is not the stored
    row when a later document of the same batch carries its id.  At
    [Samples.revivedBatch] the call succeeds, the stored row of ["b"] is alive
    with its text, the tombstone is not stored, and a search returns ["b"]. *)
Lemma later_document_replaces_tombstone :
  let result :=
    Store.addDocumentUpdates Examples.reportOne Examples.requestedStore "wp"
                             Samples.revivedBatch in
  In (mkDocument "b" 60 false "ignored") Samples.revivedBatch
  /\ snd result = None
  /\ docs (fst result) = [mkDocRow 1 "b" (UnixNano 70) "hello" true]
  /\ Store.search Examples.matchAll Examples.snippetText Examples.rankZero Z.leb
        Samples.engineRejects (fst result) "hello" ["wp"] 10 0
     = Ok [Store.mkSearchResult "wp" "b" "hello" 0].
Proof.
  vm_compute. split; [now left|]. repeat split.
Qed.

(** C8 (amended).  A document with [Alive = false] is stored as a tombstone:
    right after its iteration the transaction's document table holds, for its
    key, the single row with [alive = false] and [txt] empty, whatever [Text]
    it came with.  When no later document of the batch carries the same id,
    that row is the stored row after the call, and no search of the space for
    a plain phrase (one the statement text carries unchanged) returns the
    document. *)
Theorem tombstone_stored_and_not_searchable
    (R : Type) (ftsMatch : string -> DocRow -> bool)
    (snippet : string -> DocRow -> string) (rank : string -> DocRow -> R)
    (rank_leb : R -> R -> bool)
    (splicedQuery :
       Database -> string -> list string -> N -> N
       -> Result (list (Store.SearchResult R)))
    (rowsAffected : DocRow -> Z) (d : Database) (space : string) (spaceID : Z)
    (pre post : list Document) (doc : Document) :
  Store.getSpaceID d space = Ok spaceID ->
  NoDup (map sp_space (spaces d)) ->
  (forall x, In x (pre ++ doc :: post) ->
             rowsAffected (Store.docRowOf spaceID x) = 1) ->
  Alive doc = false ->
  let tombstone := mkDocRow spaceID (ID doc) (UnixNano (Updated doc)) "" false in
  (exists w,
      Store.docLoop rowsAffected spaceID d (pre ++ [doc]) = Ok w
      /\ In tombstone (docs w)
      /\ forall r, In r (docs w) ->
                   d_spaceID r = spaceID -> d_docID r = ID doc -> r = tombstone)
  /\ ((forall p, In p post -> ID p <> ID doc) ->
      let result := Store.addDocumentUpdates rowsAffected d space (pre ++ doc :: post) in
      snd result = None
      /\ In tombstone (docs (fst result))
      /\ (forall r, In r (docs (fst result)) ->
                    d_spaceID r = spaceID -> d_docID r = ID doc ->
                    alive r = false /\ txt r = "")
      /\ forall phrase limit offset page res,
           Store.plainPhrase phrase = true ->
           Store.search ftsMatch snippet rank rank_leb splicedQuery (fst result)
                        phrase [space] limit offset = Ok page ->
           In res page ->
           Store.sr_ID res <> ID doc).
Proof.
  intros Hs Hnd Hone Hdead tombstone.
  assert (Store.docRowOf spaceID doc = tombstone) as Hrow.
  { unfold Store.docRowOf, tombstone. now rewrite Hdead. }
  split.
  - exists (fold_left (Batch.applyDoc spaceID) (pre ++ [doc]) d).
    split.
    { apply DocFacts.docLoop_all_one. intros x Hx. apply Hone.
      apply in_app_or in Hx. apply in_or_app.
      destruct Hx as [Hx|[<-|[]]]; [now left|right; now left]. }
    rewrite DocFacts.docs_fold, map_app. simpl. rewrite Hrow. split.
    + apply ReplaceFacts.replaceAll_last. intros p [].
    + intros r Hr E1 E2.
      apply (ReplaceFacts.replaceAll_last_unique
               (map (Store.docRowOf spaceID) pre) [] tombstone (docs d));
        [intros p []|exact Hr|].
      apply ReplaceFacts.docKey_eq. now split.
  - intros Hpost result.
    destruct (@last_document_row_stored rowsAffected d space spaceID pre post doc
                Hs Hone Hpost) as [Hnone [Hspaces [Hin Huniq]]].
    rewrite Hrow in Hin, Huniq.
    fold result in Hnone, Hspaces, Hin, Huniq.
    split; [assumption|]. split; [assumption|]. split.
    + intros r Hr E1 E2. rewrite (Huniq r Hr E1 E2). now split.
    + intros phrase limit offset page res Hplain Hpage Hres Hid.
      destruct (@SearchFacts.search_inv R ftsMatch snippet rank rank_leb
                  splicedQuery (fst result) phrase space limit offset page res
                  Hplain Hpage Hres)
        as [Hsp [row [s [Hrow' [Halive [_ [Hsin [Hsid [Hname [Hdoc _]]]]]]]]]].
      assert (sp_spaceID s = spaceID) as Hsid'.
      { apply (@SearchFacts.unique_name_spaceID (fst result) space spaceID s).
        - now rewrite Hspaces.
        - unfold Store.getSpaceID in *. now rewrite Hspaces.
        - assumption.
        - congruence. }
      assert (row = tombstone) as ->.
      { apply Huniq; [assumption|congruence|congruence]. }
      simpl in Halive. discriminate.
Qed.

(** *** The theorems above at concrete batches *)


Lemma addDocumentUpdates_idempotent_witness :
  let d1 := fst (Store.addDocumentUpdates Examples.reportOne Examples.requestedStore
                                          "wp" Examples.mixedBatch) in
  Store.addDocumentUpdates Examples.reportOne Examples.requestedStore "wp"
                           Examples.mixedBatch = (d1, None)
  /\ Store.addDocumentUpdates Examples.reportOne d1 "wp" Examples.mixedBatch
     = (d1, None).
Proof.
  intros d1. split; [vm_compute; reflexivity|].
  apply (@addDocumentUpdates_idempotent Examples.reportOne Examples.requestedStore).
  vm_compute. reflexivity.
Defined.


Lemma tombstone_stored_and_not_searchable_witness :
  Store.getSpaceID Examples.requestedStore "wp" = Ok 1
  /\ NoDup (map sp_space (spaces Examples.requestedStore))
  /\ Store.plainPhrase "hello" = true
  /\ In (mkDocRow 1 "b" 60 "" false)
        (docs (fst (Store.addDocumentUpdates Examples.reportOne
                      Examples.requestedStore "wp" Examples.mixedBatch)))
  /\ forall page res,
       Store.search Examples.matchAll Examples.snippetText
         Examples.rankZero Z.leb Samples.engineRejects
         (fst (Store.addDocumentUpdates Examples.reportOne
                 Examples.requestedStore "wp" Examples.mixedBatch))
         "hello" ["wp"] 10 0 = Ok page ->
       In res page -> Store.sr_ID res <> "b".
Proof.
  assert (NoDup (map sp_space (spaces Examples.requestedStore))) as Hnd.
  { simpl. repeat constructor. simpl. tauto. }
  split; [reflexivity|]. split; [exact Hnd|]. split; [reflexivity|].
  destruct (@tombstone_stored_and_not_searchable Z Examples.matchAll
              Examples.snippetText Examples.rankZero Z.leb Samples.engineRejects
              Examples.reportOne
              Examples.requestedStore "wp" 1
              [mkDocument "a" 50 true "hello"] [] (mkDocument "b" 60 false "ignored")
              eq_refl Hnd (fun x _ => eq_refl) eq_refl) as [_ Hafter].
  destruct (Hafter (fun p (H : In p []) => match H with end))
    as [_ [Hin [_ Hsearch]]].
  split; [exact Hin|]. intros page res Hpage Hres.
  exact (Hsearch "hello"%string 10%N 0%N page res eq_refl Hpage Hres).
Defined.

(** ** The interest table under the cycle's writes *)

Module InterestFacts.

Import Store Indexer System.

Lemma count_nil (f : InterestRow -> bool) : count f [] = 0.
Proof. reflexivity. Qed.

Lemma count_cons (f : InterestRow -> bool) (r : InterestRow) (rows : list InterestRow) :
  count f (r :: rows) = (if f r then 1 else 0) + count f rows.
Proof.
  unfold count. simpl. destruct (f r); simpl List.length; lia.
Qed.

Lemma count_app (f : InterestRow -> bool) (l1 l2 : list InterestRow) :
  count f (l1 ++ l2) = count f l1 + count f l2.
Proof.
  unfold count. rewrite filter_app, length_app. lia.
Qed.

Lemma count_nonneg (f : InterestRow -> bool) (rows : list InterestRow) :
  0 <= count f rows.
Proof. unfold count. lia. Qed.

(** A rewrite of the rows that creates no row satisfying [f] does not raise
    the count. *)
Lemma count_map_le (f : InterestRow -> bool) (g : InterestRow -> InterestRow)
    (rows : list InterestRow) :
  (forall r, f (g r) = true -> f r = true) ->
  count f (map g rows) <= count f rows.
Proof.
  intros H. induction rows as [|r rows IH]; simpl; [unfold count; simpl; lia|].
  rewrite !count_cons. specialize (H r).
  destruct (f (g r)); destruct (f r); try lia;
    specialize (H eq_refl); discriminate.
Qed.

Lemma count_filter_le (f g : InterestRow -> bool) (rows : list InterestRow) :
  count f (filter g rows) <= count f rows.
Proof.
  induction rows as [|r rows IH]; simpl; [lia|].
  destruct (g r); rewrite !count_cons; destruct (f r); lia.
Qed.

Lemma keys_updateInterestState (spaceID : Z) (docID : DocumentID)
    (state : InterestState) (rows : list InterestRow) :
  map interestKeyOf (updateInterestState spaceID docID state rows)
  = map interestKeyOf rows.
Proof.
  unfold updateInterestState. rewrite map_map. apply map_ext.
  intros r. now destruct (interestKey spaceID docID r).
Qed.

Lemma interestKey_iff (spaceID : Z) (docID : DocumentID) (r : InterestRow) :
  interestKey spaceID docID r = true <-> interestKeyOf r = (spaceID, docID).
Proof.
  unfold interestKey, interestKeyOf.
  rewrite andb_true_iff, Z.eqb_eq, String.eqb_eq.
  split; [intros [-> ->]; reflexivity|intros H; inversion H; auto].
Qed.

Lemma update_without_key (spaceID : Z) (docID : DocumentID) (state : InterestState)
    (rows : list InterestRow) :
  ~ In (spaceID, docID) (map interestKeyOf rows) ->
  updateInterestState spaceID docID state rows = rows.
Proof.
  intros H. unfold updateInterestState. rewrite <- (map_id rows) at 2.
  apply map_ext_in. intros r Hr.
  destruct (interestKey spaceID docID r) eqn:Hk; [|reflexivity].
  exfalso. apply H. apply interestKey_iff in Hk. rewrite <- Hk. now apply in_map.
Qed.

(** Under the primary key, one transition raises the number of requested
    rows of its space by at most one, and of no other space. *)
Lemma update_requested_le (spaceID other : Z) (docID : DocumentID)
    (rows : list InterestRow) :
  NoDup (map interestKeyOf rows) ->
  count (inState other requested) (updateInterestState spaceID docID requested rows)
  <= count (inState other requested) rows + (if other =? spaceID then 1 else 0).
Proof.
  induction rows as [|r rows IH]; simpl; intros Hnd.
  - rewrite count_nil. destruct (other =? spaceID); lia.
  - inversion Hnd as [|? ? Hnotin Hnd']; subst.
    destruct (interestKey spaceID docID r) eqn:Hk.
    + fold (updateInterestState spaceID docID requested rows).
      apply interestKey_iff in Hk.
      rewrite update_without_key by (rewrite <- Hk; assumption).
      rewrite !count_cons. unfold inState at 1, interestOf. simpl.
      assert (in_spaceID r = spaceID) as Hs by (inversion Hk; reflexivity).
      rewrite andb_true_r, Hs, (Z.eqb_sym other spaceID).
      destruct (spaceID =? other); destruct (inState other requested r); lia.
    + fold (updateInterestState spaceID docID requested rows).
      rewrite !count_cons. specialize (IH Hnd').
      destruct (inState other requested r); lia.
Qed.

(** A pending row of the key becomes requested: exactly one more. *)
Lemma update_requested_exact (spaceID : Z) (docID : DocumentID)
    (rows : list InterestRow) :
  NoDup (map interestKeyOf rows) ->
  In (mkInterestRow spaceID docID pending) rows ->
  count (inState spaceID requested) (updateInterestState spaceID docID requested rows)
  = count (inState spaceID requested) rows + 1.
Proof.
  induction rows as [|r rows IH]; simpl; intros Hnd Hin; [contradiction|].
  inversion Hnd as [|? ? Hnotin Hnd']; subst.
  fold (updateInterestState spaceID docID requested rows).
  destruct Hin as [->|Hin].
  - unfold interestKey at 1. simpl. rewrite Z.eqb_refl, String.eqb_refl. simpl.
    rewrite update_without_key by exact Hnotin.
    rewrite !count_cons. unfold inState at 1 3, interestOf.
    cbn [in_spaceID in_state InterestState_eqb].
    rewrite Z.eqb_refl. cbn [andb]. lia.
  - destruct (interestKey spaceID docID r) eqn:Hk.
    + exfalso. apply Hnotin. apply interestKey_iff in Hk. rewrite Hk.
      change (spaceID, docID) with (interestKeyOf (mkInterestRow spaceID docID pending)).
      now apply in_map.
    + rewrite !count_cons, (IH Hnd' Hin). lia.
Qed.

Lemma update_keeps_other (spaceID : Z) (docID : DocumentID) (state : InterestState)
    (rows : list InterestRow) (r : InterestRow) :
  In r rows -> interestKey spaceID docID r = false ->
  In r (updateInterestState spaceID docID state rows).
Proof.
  intros Hin Hk. unfold updateInterestState. apply in_map_iff.
  exists r. now rewrite Hk.
Qed.

Lemma update_makes_requested (spaceID : Z) (docID : DocumentID)
    (rows : list InterestRow) (r : InterestRow) :
  In r rows -> interestKey spaceID docID r = true ->
  In (mkInterestRow spaceID docID requested)
     (updateInterestState spaceID docID requested rows).
Proof.
  intros Hin Hk. unfold updateInterestState. apply in_map_iff.
  exists r. rewrite Hk. split; [|assumption].
  apply interestKey_iff in Hk. inversion Hk. reflexivity.
Qed.

End InterestFacts.

(** ** The counters and the request loop of the cycle *)

Module CycleFacts.

Import Store Indexer System InterestFacts.

Lemma fold_countStep (l : list Interest) :
  forall c0,
    fold_left countStep l c0
    = mkCounts
        (numPending c0 + Z.of_nat (List.length (filter (isState pending) l)))
        (numRequested c0 + Z.of_nat (List.length (filter (isState requested) l)))
        (numServed c0 + Z.of_nat (List.length (filter (isState served) l)))
        (pendingIDs c0 ++ map DocID (filter (isState pending) l)).
Proof.
  induction l as [|i l IH]; intros c0; simpl.
  - rewrite !Z.add_0_r, app_nil_r. now destruct c0.
  - rewrite IH. unfold countStep, isState.
    destruct (State i); simpl; rewrite <- ?app_assoc; simpl; f_equal; lia.
Qed.

Lemma filter_map_comm {A B : Type} (f : B -> bool) (g : A -> B) (l : list A) :
  filter f (map g l) = map g (filter (fun x => f (g x)) l).
Proof.
  induction l as [|a l IH]; simpl; [reflexivity|].
  destruct (f (g a)); simpl; now rewrite IH.
Qed.

Lemma filter_and {A : Type} (f g : A -> bool) (l : list A) :
  filter f (filter g l) = filter (fun x => g x && f x) l.
Proof.
  induction l as [|a l IH]; simpl; [reflexivity|].
  destruct (g a); simpl; [destruct (f a)|]; now rewrite IH.
Qed.

(** The counters of the cycle are the counts of the space's rows, and
    [pendingIDs] lists its pending rows in table order. *)
Lemma counts_of_table (d : Database) (space : string) (spaceID : Z)
    (interests : list Interest) :
  getSpaceID d space = Ok spaceID ->
  getInterestList d space = Ok interests ->
  numPending (countInterests interests) = stateCount spaceID pending d
  /\ numRequested (countInterests interests) = stateCount spaceID requested d
  /\ numServed (countInterests interests) = stateCount spaceID served d
  /\ pendingIDs (countInterests interests)
     = map in_docID (filter (inState spaceID pending) (interest d))
  /\ Z.of_nat (List.length interests)
     = Z.of_nat (List.length (filter (interestOf spaceID) (interest d))).
Proof.
  intros Hs Hget. unfold getInterestList in Hget. rewrite Hs in Hget. simpl in Hget.
  inversion Hget; subst interests. clear Hget.
  unfold countInterests. rewrite fold_countStep. simpl.
  unfold stateCount, count.
  rewrite !filter_map_comm, !length_map, !filter_and, map_map. simpl.
  repeat split; try reflexivity.
Qed.

Lemma markRequested_ok (space : string) (spaceID : Z) (wanted : list DocumentID) :
  forall d,
    getSpaceID d space = Ok spaceID ->
    markRequested d space wanted
    = (withInterest d (transitions spaceID wanted (interest d)),
       map (fun docID => CallSetInterestState space docID requested) wanted,
       None).
Proof.
  induction wanted as [|docID wanted IH]; intros d Hs; simpl.
  - unfold withInterest. now destruct d.
  - unfold setInterestState. rewrite Hs.
    rewrite (IH (withInterest d (updateInterestState spaceID docID requested (interest d))))
      by exact Hs.
    reflexivity.
Qed.

Lemma keys_transitions (spaceID : Z) (wanted : list DocumentID) :
  forall rows, map interestKeyOf (transitions spaceID wanted rows)
               = map interestKeyOf rows.
Proof.
  induction wanted as [|docID wanted IH]; intros rows; simpl; [reflexivity|].
  unfold transitions in *. simpl. now rewrite IH, keys_updateInterestState.
Qed.

Lemma transitions_le (spaceID other : Z) (wanted : list DocumentID) :
  forall rows,
    NoDup (map interestKeyOf rows) ->
    count (inState other requested) (transitions spaceID wanted rows)
    <= count (inState other requested) rows
       + (if other =? spaceID then Z.of_nat (List.length wanted) else 0).
Proof.
  induction wanted as [|docID wanted IH]; intros rows Hnd.
  - simpl. destruct (other =? spaceID); lia.
  - unfold transitions in *. simpl fold_left.
    specialize (IH (updateInterestState spaceID docID requested rows)).
    rewrite keys_updateInterestState in IH. specialize (IH Hnd).
    pose proof (update_requested_le spaceID other docID rows Hnd) as H1.
    simpl List.length. destruct (other =? spaceID); lia.
Qed.

Lemma transitions_exact (spaceID : Z) (wanted : list DocumentID) :
  forall rows,
    NoDup (map interestKeyOf rows) ->
    NoDup wanted ->
    (forall docID, In docID wanted -> In (mkInterestRow spaceID docID pending) rows) ->
    count (inState spaceID requested) (transitions spaceID wanted rows)
    = count (inState spaceID requested) rows + Z.of_nat (List.length wanted)
    /\ forall docID, In docID wanted ->
         In (mkInterestRow spaceID docID requested) (transitions spaceID wanted rows).
Proof.
  induction wanted as [|docID wanted IH]; intros rows Hnd Hw Hpending.
  - simpl. split; [lia|intros ? []].
  - inversion Hw as [|? ? Hnotin Hw']; subst.
    unfold transitions in *. simpl fold_left.
    destruct (IH (updateInterestState spaceID docID requested rows)) as [Hc Hr].
    + now rewrite keys_updateInterestState.
    + assumption.
    + intros id Hid. apply update_keeps_other; [apply Hpending; now right|].
      unfold interestKey. simpl. rewrite Z.eqb_refl. simpl.
      apply String.eqb_neq. intros ->. contradiction.
    + split.
      * rewrite Hc, (update_requested_exact spaceID docID rows Hnd)
          by (apply Hpending; now left).
        simpl List.length. lia.
      * intros id [<-|Hid]; [|now apply Hr].
        assert (In (mkInterestRow spaceID docID requested)
                   (updateInterestState spaceID docID requested rows)) as Hin.
        { apply update_makes_requested with (r := mkInterestRow spaceID docID pending);
            [apply Hpending; now left|].
          unfold interestKey. simpl. now rewrite Z.eqb_refl, String.eqb_refl. }
        clear - Hin Hnotin.
        revert Hin. generalize (updateInterestState spaceID docID requested rows).
        induction wanted as [|x wanted IHw]; intros t Hin; simpl; [assumption|].
        apply IHw; [intros H; apply Hnotin; now right|].
        apply update_keeps_other; [assumption|].
        unfold interestKey. simpl. rewrite Z.eqb_refl. simpl.
        apply String.eqb_neq. intros ->. apply Hnotin. now left.
Qed.

Lemma pending_ids_NoDup (spaceID : Z) (state : InterestState) (rows : list InterestRow) :
  NoDup (map interestKeyOf rows) ->
  NoDup (map in_docID (filter (inState spaceID state) rows)).
Proof.
  induction rows as [|r rows IH]; simpl; intros Hnd; [constructor|].
  inversion Hnd as [|? ? Hnotin Hnd']; subst.
  destruct (inState spaceID state r) eqn:Hr; simpl; [|now apply IH].
  constructor; [|now apply IH].
  intros Hin. apply in_map_iff in Hin. destruct Hin as [r' [Hd Hr']].
  apply filter_In in Hr'. destruct Hr' as [Hin' Hst'].
  apply Hnotin. apply in_map_iff. exists r'. split; [|assumption].
  unfold inState, interestOf in *.
  apply andb_true_iff in Hr, Hst'. destruct Hr as [Hr _], Hst' as [Hst' _].
  apply Z.eqb_eq in Hr, Hst'. unfold interestKeyOf. congruence.
Qed.

Lemma pending_id_row (spaceID : Z) (rows : list InterestRow) (docID : DocumentID) :
  In docID (map in_docID (filter (inState spaceID pending) rows)) ->
  In (mkInterestRow spaceID docID pending) rows.
Proof.
  intros H. apply in_map_iff in H. destruct H as [r [Hd Hr]].
  apply filter_In in Hr. destruct Hr as [Hin Hst].
  unfold inState, interestOf in Hst. apply andb_true_iff in Hst.
  destruct Hst as [Hs Hp]. apply Z.eqb_eq in Hs.
  destruct r as [s i st]; simpl in *. subst.
  destruct st; simpl in Hp; try discriminate. assumption.
Qed.

Lemma NoDup_firstn {A : Type} (n : nat) (l : list A) : NoDup l -> NoDup (firstn n l).
Proof.
  intros H. rewrite <- (firstn_skipn n l) in H. now apply NoDup_app_remove_r in H.
Qed.

End CycleFacts.

(** ** Preservation of the table invariants *)

Module HealthFacts.

Import Store Indexer System InterestFacts CycleFacts.

Section WithConfig.

Variable cfg : Config.

(** Rows may change state, but never to [requested], and keep their keys. *)
Lemma healthy_map (d : Database) (g : InterestRow -> InterestRow) :
  (forall r, interestKeyOf (g r) = interestKeyOf r) ->
  (forall r, in_state (g r) = requested -> g r = r) ->
  Healthy cfg d -> Healthy cfg (withInterest d (map g (interest d))).
Proof.
  intros Hkey Hreq [Hu Hb]. split.
  - unfold interestKeysUnique in *. simpl. rewrite map_map.
    now rewrite (map_ext _ interestKeyOf Hkey).
  - intros other. unfold stateCount. simpl.
    apply Z.le_trans with (count (inState other requested) (interest d)); [|apply Hb].
    apply count_map_le. intros r H.
    unfold inState in *. apply andb_true_iff in H. destruct H as [Ho Hst].
    assert (in_state (g r) = requested) as Hst'
      by (destruct (in_state (g r)); simpl in Hst; congruence).
    rewrite (Hreq r Hst') in Ho, Hst. now rewrite Ho, Hst.
Qed.

Lemma healthy_same_interest (d d' : Database) :
  interest d' = interest d -> Healthy cfg d -> Healthy cfg d'.
Proof.
  intros E [Hu Hb]. split.
  - unfold interestKeysUnique. now rewrite E.
  - intros other. unfold stateCount. rewrite E. apply Hb.
Qed.

Lemma healthy_addDocumentUpdates (rowsAffected : DocRow -> Z) (d : Database)
    (space : string) (batch : list Document) :
  Healthy cfg d -> Healthy cfg (fst (addDocumentUpdates rowsAffected d space batch)).
Proof.
  intros H. unfold addDocumentUpdates.
  destruct (getSpaceID d space) as [spaceID|e]; [|exact H]. simpl.
  destruct (docLoop rowsAffected spaceID d batch) as [w|e] eqn:Hloop; [|exact H].
  simpl.
  pose proof (DocFacts.docLoop_ok_inv rowsAffected spaceID batch d Hloop) as Hone.
  rewrite (DocFacts.docLoop_all_one rowsAffected spaceID batch d Hone) in Hloop.
  inversion Hloop; subst w.
  apply healthy_same_interest
    with (d := withInterest d (Batch.markServed spaceID (map ID batch) (interest d))).
  - now rewrite DocFacts.interest_fold.
  - apply healthy_map; [| |exact H].
    + intros r. now destruct (interestOf spaceID r && _).
    + intros r. destruct (interestOf spaceID r && _); [discriminate|reflexivity].
Qed.

Lemma healthy_resetRequested (d : Database) (space : string) :
  Healthy cfg d -> Healthy cfg (fst (resetRequested d space)).
Proof.
  intros H. unfold resetRequested.
  destruct (getSpaceID d space) as [spaceID|e]; [|exact H]. simpl.
  apply healthy_map; [| |exact H].
  - intros r. now destruct (InterestState_eqb (in_state r) requested && _).
  - intros r. destruct (InterestState_eqb (in_state r) requested && _);
      [discriminate|reflexivity].
Qed.

Lemma interest_commitInterestList (d : Database) (space : string) :
  interest (fst (commitInterestList d space)) = interest d.
Proof.
  unfold commitInterestList. simpl.
  destruct (firstOrdered (commitCandidates d space)); [|reflexivity].
  now destruct (negb _).
Qed.

Lemma spaces_find_commitInterestList (d : Database) (space name : string) :
  (exists r, find (spaceNamed name) (spaces d) = Some r) ->
  exists r', find (spaceNamed name) (spaces (fst (commitInterestList d space))) = Some r'.
Proof.
  intros [r Hr]. unfold commitInterestList. simpl.
  destruct (firstOrdered (commitCandidates d space)) as [p|]; [|eauto].
  destruct (negb _); simpl; [eauto|].
  clear - Hr. induction (spaces d) as [|s rows IH]; simpl in *; [discriminate|].
  destruct (spaceNamed name s) eqn:Hs.
  - destruct (spaceNamed space s); simpl; unfold spaceNamed in *; simpl;
      rewrite Hs; eauto.
  - destruct (spaceNamed space s); simpl; unfold spaceNamed in *; simpl;
      rewrite Hs; now apply IH.
Qed.

Lemma insertPending_result (spaceID : Z) (ids : list DocumentID) :
  forall rows rows',
    insertPending spaceID ids rows = Ok rows' ->
    rows' = rows ++ map (fun id => mkInterestRow spaceID id pending) ids
    /\ (NoDup (map interestKeyOf rows) -> NoDup (map interestKeyOf rows')).
Proof.
  induction ids as [|id ids IH]; simpl; intros rows rows' H.
  - inversion H; subst. rewrite app_nil_r. auto.
  - unfold insertInterest in H.
    destruct (existsb (interestKey spaceID id) rows) eqn:He; [discriminate|].
    simpl in H. destruct (IH _ _ H) as [-> Hnd]. split.
    + now rewrite <- app_assoc.
    + intros Hrows. apply Hnd. rewrite map_app. simpl.
      apply NoDup_app; [assumption|repeat constructor; intros []|].
      intros k Hin [<-|[]]. apply in_map_iff in Hin.
      destruct Hin as [r [Hk Hr]].
      assert (existsb (interestKey spaceID id) rows = true) as Ht; [|congruence].
      apply existsb_exists. exists r. split; [assumption|].
      now apply interestKey_iff.
Qed.

Lemma NoDup_map_filter {A B : Type} (f : A -> B) (g : A -> bool) (l : list A) :
  NoDup (map f l) -> NoDup (map f (filter g l)).
Proof.
  induction l as [|a l IH]; simpl; intros H; [constructor|].
  inversion H as [|? ? Hnotin H']; subst.
  destruct (g a); simpl; [|now apply IH].
  constructor; [|now apply IH].
  intros Hin. apply Hnotin. apply in_map_iff in Hin.
  destruct Hin as [x [Hx Hf]]. apply filter_In in Hf. destruct Hf as [Hf _].
  rewrite <- Hx. now apply in_map.
Qed.

Lemma count_requested_pending_rows (other spaceID : Z) (ids : list DocumentID) :
  count (inState other requested)
        (map (fun id => mkInterestRow spaceID id pending) ids) = 0.
Proof.
  induction ids as [|id ids IH]; simpl; [reflexivity|].
  rewrite count_cons, IH. unfold inState. simpl. now rewrite andb_false_r.
Qed.

Lemma healthy_setInterestList (d : Database) (space : string)
    (ids : list DocumentID) (now : Z) :
  Healthy cfg d -> Healthy cfg (fst (setInterestList d space ids now)).
Proof.
  intros H. unfold setInterestList. simpl.
  destruct (find (spaceNamed space) (spaces d)) as [r|]; [|exact H].
  destruct (negb _); [exact H|].
  destruct (insertPending (sp_spaceID r) ids _) as [rows|e] eqn:Hins; [|exact H].
  simpl. destruct H as [Hu Hb].
  destruct (insertPending_result _ _ _ Hins) as [-> Hnd]. split.
  - unfold interestKeysUnique. simpl. apply Hnd. now apply NoDup_map_filter.
  - intros other. unfold stateCount. simpl.
    rewrite count_app, count_requested_pending_rows, Z.add_0_r.
    apply Z.le_trans with (count (inState other requested) (interest d)); [|apply Hb].
    apply count_filter_le.
Qed.

Section WithBus.

Variable Publish : string -> DocumentRequest -> option Error.
Variable RequestWithContext :
  Duration -> string -> IndexUpdateRequest -> Result IndexUpdate.

Lemma healthy_requestNextChunk (d : Database) (space : string) (now : Time) :
  Healthy cfg d ->
  Healthy cfg (fst (fst (requestNextChunk cfg RequestWithContext d space now))).
Proof.
  intros H. unfold requestNextChunk.
  destruct (getInterestListState d space) as [state|e]; [|exact H].
  destruct (RequestWithContext _ _ _) as [update|e]; [|exact H].
  pose proof (healthy_setInterestList (iu_Space update) (iu_Updates update)
                                      (UnixNano now) H) as H'.
  now destruct (setInterestList d (iu_Space update) (iu_Updates update) (UnixNano now))
    as [d' [e|]].
Qed.

(** The store after [requestDocuments], whatever [Publish] answers. *)
Lemma requestDocuments_store (d : Database) (space : string) (spaceID : Z)
    (wanted : list DocumentID) :
  getSpaceID d space = Ok spaceID ->
  requestDocuments cfg Publish d space wanted
  = (withInterest d (transitions spaceID wanted (interest d)),
     map (fun docID => CallSetInterestState space docID requested) wanted
     ++ [CallPublish (Topic cfg ++ ".document.request")%string
                     (mkDocumentRequest space wanted)],
     Publish (Topic cfg ++ ".document.request")%string (mkDocumentRequest space wanted)).
Proof.
  intros Hs. unfold requestDocuments. now rewrite (markRequested_ok space wanted d Hs).
Qed.

Lemma getSpaceID_of_getInterestList (d : Database) (space : string)
    (interests : list Interest) :
  getInterestList d space = Ok interests ->
  exists spaceID, getSpaceID d space = Ok spaceID.
Proof.
  unfold getInterestList. destruct (getSpaceID d space) as [spaceID|e]; simpl;
    [eauto|discriminate].
Qed.

Lemma healthy_requestStep (st : IndexerState) (space : string)
    (interests : list Interest) (clock : Clock) :
  Healthy cfg (db st) ->
  getInterestList (db st) space = Ok interests ->
  Healthy cfg (db (fst (fst (requestStep cfg Publish st space
                                         (countInterests interests) clock)))).
Proof.
  intros H Hget.
  destruct (getSpaceID_of_getInterestList _ _ Hget) as [spaceID Hs].
  destruct (counts_of_table _ _ Hs Hget) as [_ [HR _]].
  unfold requestStep.
  set (want := Z.min (numPending (countInterests interests))
                     (MaxOutstanding cfg - numRequested (countInterests interests))).
  destruct (0 <? want) eqn:Hw; [|exact H].
  rewrite (requestDocuments_store (db st) space _ Hs).
  set (wanted := firstn (Z.to_nat want) (pendingIDs (countInterests interests))).
  assert (Healthy cfg (withInterest (db st)
                         (transitions spaceID wanted (interest (db st))))) as H'.
  { destruct H as [Hu Hb]. split.
    - unfold interestKeysUnique. simpl. now rewrite keys_transitions.
    - intros other. unfold stateCount. simpl.
      pose proof (transitions_le spaceID other wanted (interest (db st)) Hu) as Hle.
      pose proof (Hb other) as Hbo. unfold stateCount in Hbo.
      destruct (other =? spaceID) eqn:Ho; [|lia].
      apply Z.eqb_eq in Ho. subst other.
      assert (Z.of_nat (List.length wanted) <= want) as Hlen.
      { unfold wanted.
        pose proof (firstn_le_length (Z.to_nat want)
                      (pendingIDs (countInterests interests))) as Hl.
        apply Z.ltb_lt in Hw. lia. }
      unfold stateCount in HR. unfold want in Hlen. lia. }
  now destruct (Publish _ _).
Qed.

Lemma healthy_finishStep (st : IndexerState) (space : string)
    (numPending' numRequested' : Z) (clock : Clock) :
  Healthy cfg (db st) ->
  Healthy cfg (db (fst (finishStep cfg RequestWithContext st space
                                   numPending' numRequested' clock))).
Proof.
  intros H. unfold finishStep, commitFetched.
  destruct ((numPending' =? 0) && (numRequested' =? 0)).
  - pose proof (@healthy_same_interest (db st) (fst (commitInterestList (db st) space))
                  (interest_commitInterestList (db st) space) H) as Hc.
    destruct (commitInterestList (db st) space) as [d' [e|]]; simpl in *; [exact Hc|].
    pose proof (@healthy_requestNextChunk d' space (atListCreation clock) Hc) as Hn.
    now destruct (requestNextChunk cfg RequestWithContext d' space (atListCreation clock))
      as [[d'' calls] err].
  - destruct (negb _ && _); [|exact H]. simpl. now apply healthy_resetRequested.
Qed.

Lemma healthy_runUpdateCycle (st : IndexerState) (space : string) (clock : Clock) :
  Healthy cfg (db st) ->
  Healthy cfg (db (snd (fst (runUpdateCycle cfg Publish RequestWithContext
                                            st space clock)))).
Proof.
  intros H. unfold runUpdateCycle.
  destruct (getInterestList (db st) space) as [interests|e] eqn:Hget; [|exact H].
  pose proof (@healthy_requestStep st space interests clock H Hget) as H1.
  destruct (requestStep cfg Publish st space (countInterests interests) clock)
    as [[st1 nr] calls1].
  simpl in H1.
  pose proof (@healthy_finishStep st1 space (numPending (countInterests interests))
                                  nr clock H1) as H2.
  now destruct (finishStep cfg RequestWithContext st1 space
                           (numPending (countInterests interests)) nr clock)
    as [st2 calls2].
Qed.

End WithBus.

Lemma healthy_step (st st' : IndexerState) :
  IndexerStep cfg st st' -> Healthy cfg (db st) -> Healthy cfg (db st').
Proof.
  intros Hstep H. destruct Hstep.
  - now apply healthy_runUpdateCycle.
  - simpl. now apply healthy_addDocumentUpdates.
Qed.

Lemma healthy_run (st st' : IndexerState) :
  IndexerRun cfg st st' -> Healthy cfg (db st) -> Healthy cfg (db st').
Proof.
  intros Hrun H. induction Hrun as [st|st st' st'' Hrun IH Hstep]; [assumption|].
  apply (healthy_step Hstep). now apply IH.
Qed.

(** Inside the loop of [requestDocuments], with the sink writing in between:
    every state seen has at most the requested rows at the start plus the
    transitions made so far. *)
Lemma marking_bound (space : string) (spaceID : Z) (ids : list DocumentID)
    (d d' : Database) :
  Marking space ids d d' ->
  getSpaceID d space = Ok spaceID ->
  interestKeysUnique d ->
  interestKeysUnique d'
  /\ stateCount spaceID requested d'
     <= stateCount spaceID requested d + Z.of_nat (List.length ids).
Proof.
  intros Hm. induction Hm as [d|docID rest d d1 d2 Hset Hm IH
                               |rowsAffected sinkSpace batch ids d d2 Hm IH];
    intros Hs Hu.
  - split; [assumption|simpl; lia].
  - unfold setInterestState in Hset. rewrite Hs in Hset.
    inversion Hset; subst d1. clear Hset.
    destruct IH as [Hu2 Hle].
    + exact Hs.
    + unfold interestKeysUnique. simpl. now rewrite keys_updateInterestState.
    + split; [assumption|].
      pose proof (update_requested_le spaceID spaceID docID (interest d) Hu) as H1.
      rewrite Z.eqb_refl in H1. unfold stateCount in *. simpl in Hle.
      simpl List.length. lia.
  - set (d1 := fst (addDocumentUpdates rowsAffected d sinkSpace batch)) in *.
    assert (spaces d1 = spaces d /\ interestKeysUnique d1
            /\ stateCount spaceID requested d1 <= stateCount spaceID requested d)
      as [Hsp [Hu1 Hle1]].
    { unfold d1, addDocumentUpdates.
      destruct (getSpaceID d sinkSpace) as [sid|e]; [|simpl; repeat split; auto; lia].
      simpl.
      destruct (docLoop rowsAffected sid d batch) as [w|e] eqn:Hloop;
        [|simpl; repeat split; auto; lia].
      simpl.
      pose proof (DocFacts.docLoop_ok_inv rowsAffected sid batch d Hloop) as Hone.
      rewrite (DocFacts.docLoop_all_one rowsAffected sid batch d Hone) in Hloop.
      inversion Hloop; subst w.
      split; [apply DocFacts.spaces_fold|].
      unfold interestKeysUnique, stateCount.
      rewrite DocFacts.interest_fold. unfold Batch.markServed. split.
      - rewrite map_map.
        rewrite (map_ext _ interestKeyOf); [exact Hu|].
        intros r. now destruct (interestOf sid r && _).
      - apply count_map_le. intros r.
        destruct (interestOf sid r && _); [|trivial].
        unfold inState. simpl. now rewrite andb_false_r. }
    destruct IH as [Hu2 Hle].
    + unfold getSpaceID in *. now rewrite Hsp.
    + exact Hu1.
    + split; [assumption|lia].
Qed.

End WithConfig.

End HealthFacts.

(** ** The update cycle *)

Lemma finishStep_calls (cfg : Indexer.Config)
    (RequestWithContext :
       Duration -> string -> Indexer.IndexUpdateRequest -> Result Indexer.IndexUpdate)
    (st : Indexer.IndexerState) (space : string) (numPending' numRequested' : Z)
    (clock : Indexer.Clock) :
  forall c, In c (snd (Indexer.finishStep cfg RequestWithContext st space
                                          numPending' numRequested' clock)) ->
    (forall t r, c <> Indexer.CallPublish t r)
    /\ (forall s i x, c <> Indexer.CallSetInterestState s i x).
Proof.
  intros c. unfold Indexer.finishStep, Indexer.commitFetched.
  destruct ((numPending' =? 0) && (numRequested' =? 0)).
  - destruct (Store.commitInterestList (Indexer.db st) space) as [d' [e|]]; simpl.
    + intros [<-|[]]. split; discriminate.
    + unfold Indexer.requestNextChunk.
      destruct (Store.getInterestListState d' space) as [state|e]; simpl.
      * destruct (RequestWithContext _ _ _) as [update|e]; simpl.
        -- destruct (Store.setInterestList d' _ _ _) as [d'' [e|]]; simpl;
             intros [<-|[<-|[<-|[<-|[]]]]]; split; discriminate.
        -- intros [<-|[<-|[<-|[]]]]; split; discriminate.
      * intros [<-|[<-|[]]]; split; discriminate.
  - destruct (negb _ && _); simpl; [intros [<-|[]]; split; discriminate|intros []].
Qed.

(** C4.  In a cycle with [P] pending and [R] requested rows (the counts of the
    space's rows in the interest table), [want = min(P, MaxOutstanding - R)]
    documents are requested when [want > 0]: the first [want] pending rows, in
    table order, are set to [requested] one by one and then a single
    [DocumentRequest] naming exactly them is published; afterwards the space
    has [R + want] requested rows.  The number of requested rows of a space
    stays within [MaxOutstanding] inside the request loop, with the document
    sink writing in between, and in every state the indexer reaches. *)
Theorem requested_rows_bounded_by_MaxOutstanding
    (cfg : Indexer.Config)
    (Publish : string -> Indexer.DocumentRequest -> option Error)
    (RequestWithContext :
       Duration -> string -> Indexer.IndexUpdateRequest -> Result Indexer.IndexUpdate)
    (st : Indexer.IndexerState) (space : string) (spaceID : Z)
    (interests : list Interest) (clock : Indexer.Clock) :
  System.Healthy cfg (Indexer.db st) ->
  Store.getSpaceID (Indexer.db st) space = Ok spaceID ->
  Store.getInterestList (Indexer.db st) space = Ok interests ->
  let c := Indexer.countInterests interests in
  let P := Indexer.numPending c in
  let R := Indexer.numRequested c in
  let want := Z.min P (Indexer.MaxOutstanding cfg - R) in
  let wanted := firstn (Z.to_nat want) (Indexer.pendingIDs c) in
  let topic := (Indexer.Topic cfg ++ ".document.request")%string in
  P = System.stateCount spaceID pending (Indexer.db st)
  /\ R = System.stateCount spaceID requested (Indexer.db st)
  /\ Indexer.pendingIDs c
     = map in_docID (filter (System.inState spaceID pending)
                            (interest (Indexer.db st)))
  /\ (0 < want ->
      Z.of_nat (List.length wanted) = want
      /\ (exists calls2,
             snd (Indexer.runUpdateCycle cfg Publish RequestWithContext st space clock)
             = Indexer.CallGetInterestList space
               :: (map (fun docID => Indexer.CallSetInterestState space docID requested)
                       wanted
                   ++ [Indexer.CallPublish topic
                         (Indexer.mkDocumentRequest space wanted)])
               ++ calls2
             /\ forall t r, ~ In (Indexer.CallPublish t r) calls2)
      /\ (let st1 := fst (fst (Indexer.requestStep cfg Publish st space c clock)) in
          (forall docID, In docID wanted ->
             In (mkInterestRow spaceID docID requested) (interest (Indexer.db st1)))
          /\ System.stateCount spaceID requested (Indexer.db st1) = R + want
          /\ R + want <= Indexer.MaxOutstanding cfg)
      /\ (forall k d', System.Marking space (firstn k wanted) (Indexer.db st) d' ->
                       System.stateCount spaceID requested d'
                       <= Indexer.MaxOutstanding cfg))
  /\ (forall st', System.IndexerRun cfg st st' ->
                  System.boundedOutstanding cfg (Indexer.db st')).
Proof.
  intros Hh Hs Hget c P R want wanted topic.
  destruct (CycleFacts.counts_of_table _ _ Hs Hget) as [HP [HR [_ [Hids _]]]].
  fold c in HP, HR, Hids. fold P in HP. fold R in HR.
  split; [exact HP|]. split; [exact HR|]. split; [exact Hids|].
  split; [|intros st' Hrun; exact (proj2 (HealthFacts.healthy_run Hrun Hh))].
  intros Hwant.
  destruct Hh as [Hu Hb].
  assert (Z.of_nat (List.length (Indexer.pendingIDs c)) = P) as Hlen.
  { rewrite Hids, length_map, HP. reflexivity. }
  assert (Z.of_nat (List.length wanted) = want) as Hwl.
  { unfold wanted. rewrite length_firstn. unfold want in *. lia. }
  assert (NoDup wanted) as Hnd.
  { unfold wanted. apply CycleFacts.NoDup_firstn. rewrite Hids.
    now apply CycleFacts.pending_ids_NoDup. }
  assert (forall docID, In docID wanted ->
            In (mkInterestRow spaceID docID pending) (interest (Indexer.db st))) as Hpend.
  { intros docID Hin. apply CycleFacts.pending_id_row. rewrite <- Hids.
    unfold wanted in Hin. now apply SearchFacts.In_firstn in Hin. }
  destruct (@CycleFacts.transitions_exact spaceID wanted (interest (Indexer.db st))
              Hu Hnd Hpend) as [Hexact Hreq].
  assert (Indexer.requestStep cfg Publish st space c clock
          = (match Publish topic (Indexer.mkDocumentRequest space wanted) with
             | Some _ => (Indexer.mkState
                            (Store.withInterest (Indexer.db st)
                               (System.transitions spaceID wanted
                                  (interest (Indexer.db st))))
                            (Indexer.lastDocumentRequest st), R)
             | None => (Indexer.mkState
                          (Store.withInterest (Indexer.db st)
                             (System.transitions spaceID wanted
                                (interest (Indexer.db st))))
                          (Indexer.atRequest clock), R + want)
             end,
             map (fun docID => Indexer.CallSetInterestState space docID requested) wanted
             ++ [Indexer.CallPublish topic (Indexer.mkDocumentRequest space wanted)]))
    as Hstep.
  { unfold Indexer.requestStep. fold c. fold P. fold R. fold want.
    apply Z.ltb_lt in Hwant. rewrite Hwant. fold wanted.
    rewrite (HealthFacts.requestDocuments_store cfg Publish (Indexer.db st) space
               wanted Hs).
    fold topic. now destruct (Publish topic _). }
  split; [exact Hwl|]. split; [|split].
  - unfold Indexer.runUpdateCycle. rewrite Hget. fold c. rewrite Hstep.
    fold P.
    destruct (Publish topic _);
      match goal with
      | |- context [Indexer.finishStep ?a ?b ?s ?sp ?p ?r ?cl] =>
          pose proof (@finishStep_calls a b s sp p r cl) as Hcalls;
          destruct (Indexer.finishStep a b s sp p r cl) as [st2 calls2]
      end; simpl in *; exists calls2;
      (split; [reflexivity|]); intros t r Hin;
      destruct (Hcalls _ Hin) as [Hp _]; now apply (Hp t r).
  - rewrite Hstep. unfold System.stateCount.
    assert (R + want <= Indexer.MaxOutstanding cfg) as Hmax by (unfold want; lia).
    destruct (Publish topic _); simpl;
      (split; [exact Hreq|]); (split; [|exact Hmax]);
      rewrite Hexact, Hwl; unfold System.stateCount in HR; lia.
  - intros k d' Hm.
    destruct (HealthFacts.marking_bound Hm Hs Hu) as [_ Hle].
    rewrite length_firstn in Hle.
    assert (R + want <= Indexer.MaxOutstanding cfg) as Hmax by (unfold want; lia).
    lia.
Qed.

Lemma requested_rows_bounded_by_MaxOutstanding_witness :
  System.Healthy Examples.config Examples.pendingStore
  /\ Store.getSpaceID Examples.pendingStore "wp" = Ok 1
  /\ Store.getInterestList Examples.pendingStore "wp"
     = Ok [mkInterest "a" pending; mkInterest "b" pending; mkInterest "c" pending]
  /\ System.stateCount 1 requested
       (Indexer.db (fst (fst (Indexer.requestStep Examples.config Examples.publishOk
                                (Indexer.mkState Examples.pendingStore 0) "wp"
                                (Indexer.countInterests
                                   [mkInterest "a" pending; mkInterest "b" pending;
                                    mkInterest "c" pending])
                                Examples.clock))))
     = 0 + 2.
Proof.
  assert (System.Healthy Examples.config Examples.pendingStore) as Hh.
  { split.
    - unfold System.interestKeysUnique, System.interestKeyOf. simpl.
      repeat (apply NoDup_cons; [simpl; intuition congruence|]). apply NoDup_nil.
    - intros spaceID.
      unfold System.stateCount, System.count, System.inState, Store.interestOf. simpl.
      rewrite !andb_false_r. simpl. lia. }
  split; [exact Hh|]. split; [reflexivity|]. split; [reflexivity|].
  destruct (@requested_rows_bounded_by_MaxOutstanding Examples.config
              Examples.publishOk Examples.requestFails
              (Indexer.mkState Examples.pendingStore 0) "wp" 1
              [mkInterest "a" pending; mkInterest "b" pending; mkInterest "c" pending]
              Examples.clock Hh eq_refl eq_refl)
    as [_ [_ [_ [Hreq _]]]].
  destruct (Hreq eq_refl) as [_ [_ [[_ [Hcount _]] _]]].
  exact Hcount.
Defined.

(** *** The stall timeout *)

Module StallFacts.

Import Store Indexer System.

Lemma Forall2_map_self {A : Type} (P : A -> A -> Prop) (g : A -> A) (l : list A) :
  (forall x, P x (g x)) -> Forall2 P l (map g l).
Proof.
  intros H. induction l as [|a l IH]; simpl; constructor; auto.
Qed.

(** [resetRequested] turns the requested rows of the space into pending rows
    and touches nothing else. *)
Lemma resetRequested_effect (d : Database) (space : string) (spaceID : Z) :
  getSpaceID d space = Ok spaceID ->
  snd (resetRequested d space) = None
  /\ spaces (fst (resetRequested d space)) = spaces d
  /\ docs (fst (resetRequested d space)) = docs d
  /\ Forall2 (resetRow spaceID) (interest d) (interest (fst (resetRequested d space))).
Proof.
  intros Hs. unfold resetRequested. rewrite Hs. simpl.
  repeat split. apply Forall2_map_self. intros r. unfold resetRow, interestOf.
  destruct (in_state r) eqn:Hst; simpl;
    try (right; split; [intros [_ H]; discriminate|reflexivity]).
  destruct (in_spaceID r =? spaceID) eqn:Hid.
  - apply Z.eqb_eq in Hid. left. auto.
  - apply Z.eqb_neq in Hid. right. split; [intros [H _]; contradiction|reflexivity].
Qed.

Section WithBus.

Variable cfg : Config.
Variable Publish : string -> DocumentRequest -> option Error.
Variable RequestWithContext :
  Duration -> string -> IndexUpdateRequest -> Result IndexUpdate.

Lemma requestStep_effect (st : IndexerState) (space : string) (spaceID : Z)
    (c : Counts) (clock : Clock) :
  getSpaceID (db st) space = Ok spaceID ->
  spaces (db (fst (fst (requestStep cfg Publish st space c clock)))) = spaces (db st)
  /\ docs (db (fst (fst (requestStep cfg Publish st space c clock)))) = docs (db st)
  /\ forall s, ~ In (CallResetRequested s)
                    (snd (requestStep cfg Publish st space c clock)).
Proof.
  intros Hs. unfold requestStep.
  destruct (0 <? Z.min (numPending c) (MaxOutstanding cfg - numRequested c));
    [|simpl; repeat split; auto].
  rewrite (HealthFacts.requestDocuments_store cfg Publish (db st) space _ Hs).
  assert (forall s wanted t r,
             ~ In (CallResetRequested s)
                  (map (fun docID => CallSetInterestState space docID requested) wanted
                   ++ [CallPublish t r])) as Hno.
  { intros s wanted t r Hin. apply in_app_or in Hin. destruct Hin as [Hin|[Hin|[]]].
    - apply in_map_iff in Hin. destruct Hin as [x [Hx _]]. discriminate.
    - discriminate. }
  destruct (Publish _ _); simpl; repeat split; auto.
Qed.

Lemma finishStep_without_timeout (st : IndexerState) (space : string)
    (numPending' numRequested' : Z) (clock : Clock) :
  MaxDocumentWait cfg = 0 ->
  forall s, ~ In (CallResetRequested s)
                 (snd (finishStep cfg RequestWithContext st space
                                  numPending' numRequested' clock)).
Proof.
  intros Hz s. unfold finishStep, commitFetched.
  destruct ((numPending' =? 0) && (numRequested' =? 0)).
  - destruct (commitInterestList (db st) space) as [d' [e|]]; simpl.
    + intros [H|[]]. discriminate.
    + unfold requestNextChunk.
      destruct (getInterestListState d' space) as [state|e]; simpl.
      * destruct (RequestWithContext _ _ _) as [update|e]; simpl.
        -- destruct (setInterestList d' _ _ _) as [d'' [e|]]; simpl;
             intros [H|[H|[H|[H|[]]]]]; discriminate.
        -- intros [H|[H|[H|[]]]]; discriminate.
      * intros [H|[H|[]]]; discriminate.
  - rewrite Hz. simpl. intros [].
Qed.

End WithBus.

End StallFacts.

(** C7.  When work remains after the request step of a cycle and
    [MaxDocumentWait] is positive and shorter than the time since
    [lastDocumentRequest], the cycle calls [resetRequested] for the space:
    every requested row of the space becomes pending, every other interest
    row, the documents and the spaces stay as they are.  With
    [MaxDocumentWait] 0 the cycle makes no [resetRequested] call. *)
Theorem stalled_cycle_resets_requested
    (cfg : Indexer.Config)
    (Publish : string -> Indexer.DocumentRequest -> option Error)
    (RequestWithContext :
       Duration -> string -> Indexer.IndexUpdateRequest -> Result Indexer.IndexUpdate)
    (st : Indexer.IndexerState) (space : string) (spaceID : Z)
    (interests : list Interest) (clock : Indexer.Clock) :
  Store.getSpaceID (Indexer.db st) space = Ok spaceID ->
  Store.getInterestList (Indexer.db st) space = Ok interests ->
  let c := Indexer.countInterests interests in
  let step := Indexer.requestStep cfg Publish st space c clock in
  let st1 := fst (fst step) in
  let numRequested' := snd (fst step) in
  let cycle := Indexer.runUpdateCycle cfg Publish RequestWithContext st space clock in
  ((Indexer.numPending c =? 0) && (numRequested' =? 0) = false ->
   (0 < Indexer.MaxDocumentWait cfg ->
    Indexer.MaxDocumentWait cfg
    < Indexer.atCheck clock - Indexer.lastDocumentRequest st1 ->
    cycle = (Z.of_nat (List.length interests),
             Indexer.mkState (fst (Store.resetRequested (Indexer.db st1) space))
                             (Indexer.lastDocumentRequest st1),
             Indexer.CallGetInterestList space
             :: snd step ++ [Indexer.CallResetRequested space])
    /\ snd (Store.resetRequested (Indexer.db st1) space) = None
    /\ spaces (fst (Store.resetRequested (Indexer.db st1) space))
       = spaces (Indexer.db st1)
    /\ docs (fst (Store.resetRequested (Indexer.db st1) space))
       = docs (Indexer.db st1)
    /\ Forall2 (System.resetRow spaceID) (interest (Indexer.db st1))
               (interest (fst (Store.resetRequested (Indexer.db st1) space))))
   /\ (Indexer.MaxDocumentWait cfg = 0 ->
       cycle = (Z.of_nat (List.length interests), st1,
                Indexer.CallGetInterestList space :: snd step ++ [])))
  /\ (Indexer.MaxDocumentWait cfg = 0 ->
      forall s, ~ In (Indexer.CallResetRequested s) (snd cycle)).
Proof.
  intros Hs Hget c step st1 numRequested' cycle.
  destruct (StallFacts.requestStep_effect cfg Publish st space c clock Hs)
    as [Hsp [_ Hnoreset]].
  fold step in Hsp, Hnoreset. fold st1 in Hsp.
  assert (Store.getSpaceID (Indexer.db st1) space = Ok spaceID) as Hs1.
  { unfold Store.getSpaceID in *. now rewrite Hsp. }
  assert (cycle
          = (Z.of_nat (List.length interests),
             fst (Indexer.finishStep cfg RequestWithContext st1 space
                                     (Indexer.numPending c) numRequested' clock),
             Indexer.CallGetInterestList space
             :: snd step
                ++ snd (Indexer.finishStep cfg RequestWithContext st1 space
                                           (Indexer.numPending c) numRequested' clock)))
    as Hcycle.
  { unfold cycle, Indexer.runUpdateCycle. rewrite Hget. fold c. fold step.
    unfold st1, numRequested'. destruct step as [[s1 nr] calls1]. simpl.
    now destruct (Indexer.finishStep cfg RequestWithContext s1 space
                                     (Indexer.numPending c) nr clock). }
  split.
  - intros Hwork. split.
    + intros Hpos Hlate. rewrite Hcycle. unfold Indexer.finishStep. rewrite Hwork.
      assert (negb (Indexer.MaxDocumentWait cfg =? 0)
              && (Indexer.lastDocumentRequest st1 + Indexer.MaxDocumentWait cfg
                  <? Indexer.atCheck clock) = true) as Ht.
      { apply andb_true_iff. split.
        - apply negb_true_iff. apply Z.eqb_neq. lia.
        - apply Z.ltb_lt. lia. }
      rewrite Ht. simpl. split; [reflexivity|].
      exact (StallFacts.resetRequested_effect (Indexer.db st1) space Hs1).
    + intros Hz. rewrite Hcycle. unfold Indexer.finishStep. rewrite Hwork, Hz.
      simpl. reflexivity.
  - intros Hz s. rewrite Hcycle. simpl. intros [H|Hin]; [discriminate|].
    apply in_app_or in Hin. destruct Hin as [Hin|Hin].
    + exact (Hnoreset s Hin).
    + exact (StallFacts.finishStep_without_timeout cfg RequestWithContext st1 space
               (Indexer.numPending c) numRequested' clock Hz s Hin).
Qed.

Lemma stalled_cycle_resets_requested_witness :
  Store.getSpaceID Examples.inFlightStore "wp" = Ok 1
  /\ Store.getInterestList Examples.inFlightStore "wp"
     = Ok [mkInterest "a" requested; mkInterest "b" requested; mkInterest "c" pending]
  /\ Indexer.runUpdateCycle Examples.config Examples.publishOk Examples.requestFails
       (Indexer.mkState Examples.inFlightStore 0) "wp" Examples.clock
     = (3,
        Indexer.mkState
          (mkDatabase [mkSpaceRow 1 "wp" 1000 0 ""]
                      [mkInterestRow 1 "a" pending; mkInterestRow 1 "b" pending;
                       mkInterestRow 1 "c" pending] [])
          0,
        [Indexer.CallGetInterestList "wp"; Indexer.CallResetRequested "wp"]).
Proof.
  split; [reflexivity|]. split; [reflexivity|].
  destruct (@stalled_cycle_resets_requested Examples.config Examples.publishOk
              Examples.requestFails (Indexer.mkState Examples.inFlightStore 0)
              "wp" 1
              [mkInterest "a" requested; mkInterest "b" requested;
               mkInterest "c" pending]
              Examples.clock eq_refl eq_refl) as [Hwork _].
  destruct (Hwork eq_refl) as [Hreset _].
  destruct (Hreset eq_refl eq_refl) as [Hcycle _].
  exact Hcycle.
Defined.

(** ** Clearing and installing interest lists *)

Module ClearFacts.

Import Store.

Lemma filter_of_cleared (spaceID other : Z) (rows : list InterestRow) :
  filter (interestOf other) (filter (fun i => negb (interestOf spaceID i)) rows)
  = if other =? spaceID then [] else filter (interestOf other) rows.
Proof.
  induction rows as [|r rows IH]; simpl; [now destruct (other =? spaceID)|].
  unfold interestOf in *.
  destruct (in_spaceID r =? spaceID) eqn:Hs; simpl.
  - rewrite IH. apply Z.eqb_eq in Hs.
    destruct (other =? spaceID) eqn:Ho; [reflexivity|].
    rewrite Hs, Z.eqb_sym, Ho. reflexivity.
  - rewrite IH. destruct (other =? spaceID) eqn:Ho.
    + apply Z.eqb_eq in Ho. subst other. now rewrite Hs.
    + reflexivity.
Qed.

Lemma getSpaceID_same_spaces (d d' : Database) (space : string) :
  spaces d' = spaces d -> getSpaceID d' space = getSpaceID d space.
Proof. intros E. unfold getSpaceID. now rewrite E. Qed.

Lemma clear_registered (d : Database) (space : string) (spaceID : Z) :
  getSpaceID d space = Ok spaceID ->
  clearInterestList d space
  = (withInterest d (filter (fun i => negb (interestOf spaceID i)) (interest d)), None).
Proof. intros Hs. unfold clearInterestList. now rewrite Hs. Qed.

Lemma getInterestList_after_clear (d : Database) (space other : string)
    (spaceID otherID : Z) :
  getSpaceID d space = Ok spaceID ->
  getSpaceID d other = Ok otherID ->
  getInterestList (fst (clearInterestList d space)) other
  = if otherID =? spaceID then Ok [] else getInterestList d other.
Proof.
  intros Hs Ho. rewrite (clear_registered d space Hs). simpl.
  unfold getInterestList.
  unfold getSpaceID in *. simpl. rewrite Ho. simpl. rewrite filter_of_cleared.
  now destruct (otherID =? spaceID).
Qed.

End ClearFacts.

Module InstallFacts.

Import Store.

Lemma setInterestList_when_served (d : Database) (space : string)
    (ids : list DocumentID) (now : Z) (r : SpaceRow) :
  find (spaceNamed space) (spaces d) = Some r ->
  NoDup ids ->
  (forall i, In i (interest d) -> in_spaceID i = sp_spaceID r -> in_state i = served) ->
  setInterestList d space ids now
  = (mkDatabase (updateListCreated (sp_spaceID r) now (spaces d))
                (filter (fun i => negb (interestOf (sp_spaceID r) i)) (interest d)
                 ++ map (fun id => mkInterestRow (sp_spaceID r) id pending) ids)
                (docs d), None).
Proof.
  intros Hfind Hnd Hall. unfold setInterestList. simpl. rewrite Hfind.
  assert (Z.of_nat (List.length
            (filter (fun i => interestOf (sp_spaceID r) i
                              && negb (InterestState_eqb (in_state i) served))
                    (interest d))) = 0) as Hz.
  { apply ListFacts.filter_length_zero. intros i Hi. unfold interestOf.
    destruct (in_spaceID i =? sp_spaceID r) eqn:Hs; [|reflexivity].
    apply Z.eqb_eq in Hs. now rewrite (Hall i Hi Hs). }
  rewrite Hz. simpl.
  rewrite ListFacts.insertPending_fresh; [reflexivity|assumption|].
  intros id _. apply ListFacts.cleared_has_no_key.
Qed.

Lemma find_name_updateListCreated (name : string) (spaceID now : Z)
    (rows : list SpaceRow) :
  option_map sp_spaceID (find (spaceNamed name) (updateListCreated spaceID now rows))
  = option_map sp_spaceID (find (spaceNamed name) rows).
Proof.
  induction rows as [|s rows IH]; simpl; [reflexivity|].
  destruct (sp_spaceID s =? spaceID); unfold spaceNamed in *; simpl;
    destruct (String.eqb (sp_space s) name); simpl; auto.
Qed.

Lemma getSpaceID_updateListCreated (d : Database) (name : string) (spaceID now : Z)
    (rows : list InterestRow) (t : list DocRow) :
  getSpaceID (mkDatabase (updateListCreated spaceID now (spaces d)) rows t) name
  = getSpaceID d name.
Proof.
  unfold getSpaceID. simpl.
  pose proof (find_name_updateListCreated name spaceID now (spaces d)) as H.
  destruct (find (spaceNamed name) (updateListCreated spaceID now (spaces d)));
    destruct (find (spaceNamed name) (spaces d)); simpl in H; congruence.
Qed.

Lemma filter_pending_rows (spaceID other : Z) (ids : list DocumentID) :
  filter (interestOf other) (map (fun id => mkInterestRow spaceID id pending) ids)
  = if spaceID =? other then map (fun id => mkInterestRow spaceID id pending) ids
    else [].
Proof.
  induction ids as [|id ids IH]; simpl; [now destruct (spaceID =? other)|].
  unfold interestOf in *. simpl. rewrite IH. now destruct (spaceID =? other).
Qed.

(** The lists read back after a successful [setInterestList]. *)
Lemma getInterestList_installed (d : Database) (space other : string)
    (ids : list DocumentID) (now : Z) (r : SpaceRow) :
  find (spaceNamed space) (spaces d) = Some r ->
  NoDup ids ->
  (forall i, In i (interest d) -> in_spaceID i = sp_spaceID r -> in_state i = served) ->
  getInterestList (fst (setInterestList d space ids now)) other
  = match getSpaceID d other with
    | Ok otherID =>
        if otherID =? sp_spaceID r
        then Ok (map (fun id => mkInterest id pending) ids)
        else getInterestList d other
    | Err e => Err e
    end.
Proof.
  intros Hfind Hnd Hall.
  rewrite (setInterestList_when_served d space now Hfind Hnd Hall). simpl.
  unfold getInterestList. rewrite getSpaceID_updateListCreated.
  destruct (getSpaceID d other) as [otherID|e]; simpl; [|reflexivity].
  rewrite filter_app, ClearFacts.filter_of_cleared, filter_pending_rows.
  rewrite (Z.eqb_sym (sp_spaceID r) otherID).
  destruct (otherID =? sp_spaceID r); simpl.
  - now rewrite map_map.
  - now rewrite app_nil_r.
Qed.

End InstallFacts.

(** *** The next chunk *)

Module ChunkFacts.

Import Store Indexer System.

(** A commit keeps the row of every name, with its key. *)
Lemma commit_keeps_row (d : Database) (space name : string) (r : SpaceRow) :
  find (spaceNamed name) (spaces d) = Some r ->
  exists r',
    find (spaceNamed name) (spaces (fst (commitInterestList d space))) = Some r'
    /\ sp_spaceID r' = sp_spaceID r.
Proof.
  intros Hr. unfold commitInterestList. cbn [BeginTxx working committed].
  destruct (firstOrdered (commitCandidates d space)) as [p|];
    [|cbn [fst Rollback committed]; eauto].
  destruct (negb _); cbn [fst Rollback Commit committed working withSpaces spaces];
    [eauto|].
  clear - Hr. induction (spaces d) as [|s rows IH]; simpl in *; [discriminate|].
  destruct (spaceNamed name s) eqn:Hs.
  - inversion Hr; subst s.
    destruct (spaceNamed space r); simpl; unfold spaceNamed in *; simpl;
      rewrite Hs; eauto.
  - destruct (spaceNamed space s); simpl; unfold spaceNamed in *; simpl;
      rewrite Hs; now apply IH.
Qed.

Lemma no_row_in_state (state : InterestState) (l : list Interest) :
  Z.of_nat (List.length (filter (isState state) l)) = 0 ->
  forall i, In i l -> State i <> state.
Proof.
  intros H i Hi He.
  assert (In i (filter (isState state) l)) as Hin.
  { apply filter_In. split; [exact Hi|]. unfold isState. rewrite He.
    now destruct state. }
  destruct (filter (isState state) l); [contradiction|simpl in H; lia].
Qed.

(** A list without pending and requested entries comes from served rows. *)
Lemma fully_served_rows (d : Database) (space : string) (spaceID : Z)
    (interests : list Interest) :
  getSpaceID d space = Ok spaceID ->
  getInterestList d space = Ok interests ->
  numPending (countInterests interests) = 0 ->
  numRequested (countInterests interests) = 0 ->
  forall i, In i (interest d) -> in_spaceID i = spaceID -> in_state i = served.
Proof.
  intros Hs Hget HP HR i Hi Hid.
  unfold getInterestList in Hget. rewrite Hs in Hget. simpl in Hget.
  inversion Hget; subst interests. clear Hget.
  unfold countInterests in HP, HR. rewrite CycleFacts.fold_countStep in HP, HR.
  cbn [numPending numRequested] in HP, HR.
  assert (In (mkInterest (in_docID i) (in_state i))
             (map (fun r => mkInterest (in_docID r) (in_state r))
                  (filter (interestOf spaceID) (interest d)))) as Hin.
  { apply in_map_iff. exists i. split; [reflexivity|].
    apply filter_In. split; [exact Hi|].
    unfold interestOf. rewrite Hid. apply Z.eqb_refl. }
  rewrite Z.add_0_l in HP, HR.
  pose proof (@no_row_in_state pending _ HP _ Hin) as H1.
  pose proof (@no_row_in_state requested _ HR _ Hin) as H2.
  cbn [State] in H1, H2. destruct (in_state i); congruence.
Qed.

End ChunkFacts.

(** C6 as stated fails: the list is installed for the space the reply names,
    and only when [setInterestList] accepts it.  Asked for ["wp"], the
    provider [Examples.replyOther] answers for ["other"]; the cycle gives the
    list to ["other"] and leaves ["wp"] without one.  The provider
    [Samples.replyRepeated] echoes ["wp"] and names ["x"] twice: the cycle
    calls [setInterestList], the second insert breaks the primary key, and
    ["wp"] keeps the served rows of the old chunk. *)
Lemma next_chunk_installed_for_reply_space :
  (let result :=
     Indexer.runUpdateCycle Examples.config Examples.publishOk Examples.replyOther
       (Indexer.mkState Examples.idleSpaces 0) "wp" Examples.clock in
   In (Indexer.CallRequestWithContext 1000 "leta.index.request"
         (Indexer.mkIndexUpdateRequest "wp" 0 "" 3)) (snd result)
   /\ ~ In (Indexer.CallSetInterestList "wp" ["x"]) (snd result)
   /\ In (Indexer.CallSetInterestList "other" ["x"]) (snd result)
   /\ Store.getInterestList (Indexer.db (snd (fst result))) "wp" = Ok []
   /\ Store.getInterestList (Indexer.db (snd (fst result))) "other"
      = Ok [mkInterest "x" pending])
  /\ (let result :=
        Indexer.runUpdateCycle Examples.config Examples.publishOk
          Samples.replyRepeated (Indexer.mkState Examples.chunkStore 0) "wp"
          Examples.clock in
      In (Indexer.CallSetInterestList "wp" ["x"; "x"]) (snd result)
      /\ Store.getInterestList (Indexer.db (snd (fst result))) "wp"
         = Ok [mkInterest "a" served; mkInterest "b" served;
               mkInterest "c" served]).
Proof.
  split.
  - vm_compute. split; [|split; [|split; [|split]]].
    + do 3 right. left. reflexivity.
    + intros [H|[H|[H|[H|[H|[]]]]]]; discriminate.
    + do 4 right. left. reflexivity.
    + reflexivity.
    + reflexivity.
  - vm_compute. split; [|reflexivity].
    do 4 right. left. reflexivity.
Qed.

(** C6 (amended).  When the chunk is fully served (no pending and no
    requested row) and the commit succeeds, the cycle reads the position of
    the space after the commit, sends one [IndexUpdateRequest] with that
    space, [FromTime] and [AfterDocument] the position, [Limit = ChunkSize]
    and deadline [MaxInterestWait], and calls [setInterestList] with the
    updates of the reply for the space the reply names.  When the provider
    echoes the requested space and names no document twice, the call
    succeeds: the space then holds the received ids as its interest list,
    each once and all pending, created at the time of the call. *)
Theorem served_chunk_requests_next_chunk
    (cfg : Indexer.Config)
    (Publish : string -> Indexer.DocumentRequest -> option Error)
    (RequestWithContext :
       Duration -> string -> Indexer.IndexUpdateRequest -> Result Indexer.IndexUpdate)
    (st : Indexer.IndexerState) (space : string) (interests : list Interest)
    (clock : Indexer.Clock) (d1 : Database) :
  Store.getInterestList (Indexer.db st) space = Ok interests ->
  Indexer.numPending (Indexer.countInterests interests) = 0 ->
  Indexer.numRequested (Indexer.countInterests interests) = 0 ->
  Store.commitInterestList (Indexer.db st) space = (d1, None) ->
  exists state,
    Store.getInterestListState d1 space = Ok state
    /\ positionOf d1 space = Some (LastUpdated state, LastUpdatedDocID state)
    /\ let topic := (Indexer.Topic cfg ++ ".index.request")%string in
       let request :=
         Indexer.mkIndexUpdateRequest space (Unix0 (LastUpdated state))
                                      (LastUpdatedDocID state) (Indexer.ChunkSize cfg) in
       let cycle :=
         Indexer.runUpdateCycle cfg Publish RequestWithContext st space clock in
       (forall update,
           RequestWithContext (Indexer.MaxInterestWait cfg) topic request = Ok update ->
           cycle
           = (Z.of_nat (List.length interests),
              Indexer.mkState
                (fst (Store.setInterestList d1 (Indexer.iu_Space update)
                        (Indexer.iu_Updates update)
                        (UnixNano (Indexer.atListCreation clock))))
                (Indexer.lastDocumentRequest st),
              [Indexer.CallGetInterestList space;
               Indexer.CallCommitInterestList space;
               Indexer.CallGetInterestListState space;
               Indexer.CallRequestWithContext (Indexer.MaxInterestWait cfg) topic request;
               Indexer.CallSetInterestList (Indexer.iu_Space update)
                                           (Indexer.iu_Updates update)])
           /\ (Indexer.iu_Space update = space ->
               Indexer.db (snd (fst cycle))
               = fst (Store.setInterestList d1 space (Indexer.iu_Updates update)
                        (UnixNano (Indexer.atListCreation clock))))
           /\ (Indexer.iu_Space update = space ->
               NoDup (Indexer.iu_Updates update) ->
               exists l,
                 Store.getInterestList (Indexer.db (snd (fst cycle))) space = Ok l
                 /\ Permutation l (map (fun id => mkInterest id pending)
                                       (Indexer.iu_Updates update))
                 /\ Store.getInterestListState (Indexer.db (snd (fst cycle))) space
                    = Ok (mkInterestListState
                            (UnixNano (Indexer.atListCreation clock))
                            (LastUpdated state) (LastUpdatedDocID state))))
       /\ (forall e,
             RequestWithContext (Indexer.MaxInterestWait cfg) topic request = Err e ->
             cycle
             = (Z.of_nat (List.length interests),
                Indexer.mkState d1 (Indexer.lastDocumentRequest st),
                [Indexer.CallGetInterestList space;
                 Indexer.CallCommitInterestList space;
                 Indexer.CallGetInterestListState space;
                 Indexer.CallRequestWithContext (Indexer.MaxInterestWait cfg)
                                                topic request])).
Proof.
  intros Hget HP HR Hcommit.
  destruct (HealthFacts.getSpaceID_of_getInterestList _ _ Hget) as [spaceID Hs].
  assert (exists r, find (Store.spaceNamed space) (spaces (Indexer.db st)) = Some r)
    as Hfind.
  { unfold Store.getSpaceID in Hs.
    destruct (find (Store.spaceNamed space) (spaces (Indexer.db st))) as [r|];
      [eauto|discriminate]. }
  destruct Hfind as [r Hr].
  assert (spaceID = sp_spaceID r) as Hid.
  { unfold Store.getSpaceID in Hs. rewrite Hr in Hs. congruence. }
  destruct (ChunkFacts.commit_keeps_row (Indexer.db st) space space Hr)
    as [r1 [Hr1 Hid1]].
  rewrite Hcommit in Hr1. simpl in Hr1.
  assert (forall i, In i (interest d1) -> in_spaceID i = sp_spaceID r1 ->
                    in_state i = served) as Hall1.
  { intros i Hi Hsid.
    pose proof (HealthFacts.interest_commitInterestList (Indexer.db st) space)
      as Hsame.
    rewrite Hcommit in Hsame. simpl in Hsame. rewrite Hsame in Hi.
    apply (@ChunkFacts.fully_served_rows (Indexer.db st) space spaceID interests
             Hs Hget HP HR i Hi). congruence. }
  exists (mkInterestListState (listCreatedAtNanos r1) (lastUpdatedAtNanos r1)
                              (lastUpdatedDocID r1)).
  assert (Store.getInterestListState d1 space
          = Ok (mkInterestListState (listCreatedAtNanos r1) (lastUpdatedAtNanos r1)
                                    (lastUpdatedDocID r1))) as Hstate.
  { unfold Store.getInterestListState. now rewrite Hr1. }
  split; [exact Hstate|]. split.
  { unfold positionOf. now rewrite Hstate. }
  intros topic request cycle.
  assert (cycle
          = (Z.of_nat (List.length interests),
             Indexer.mkState
               (fst (fst (Indexer.requestNextChunk cfg RequestWithContext d1 space
                            (Indexer.atListCreation clock))))
               (Indexer.lastDocumentRequest st),
             Indexer.CallGetInterestList space
             :: Indexer.CallCommitInterestList space
             :: snd (fst (Indexer.requestNextChunk cfg RequestWithContext d1 space
                            (Indexer.atListCreation clock)))))
    as Hcycle.
  { unfold cycle, Indexer.runUpdateCycle. rewrite Hget.
    unfold Indexer.requestStep. rewrite HP, HR.
    assert ((0 <? Z.min 0 (Indexer.MaxOutstanding cfg - 0)) = false) as Hno
      by (apply Z.ltb_ge; lia).
    rewrite Hno. unfold Indexer.finishStep, Indexer.commitFetched. simpl.
    rewrite Hcommit.
    now destruct (Indexer.requestNextChunk cfg RequestWithContext d1 space
                    (Indexer.atListCreation clock)) as [[d2 calls] err]. }
  split.
  - intros update Hreply.
    assert (cycle
            = (Z.of_nat (List.length interests),
               Indexer.mkState
                 (fst (Store.setInterestList d1 (Indexer.iu_Space update)
                         (Indexer.iu_Updates update)
                         (UnixNano (Indexer.atListCreation clock))))
                 (Indexer.lastDocumentRequest st),
               [Indexer.CallGetInterestList space;
                Indexer.CallCommitInterestList space;
                Indexer.CallGetInterestListState space;
                Indexer.CallRequestWithContext (Indexer.MaxInterestWait cfg) topic request;
                Indexer.CallSetInterestList (Indexer.iu_Space update)
                                            (Indexer.iu_Updates update)])) as Hc.
    { rewrite Hcycle. unfold Indexer.requestNextChunk. rewrite Hstate.
      unfold topic, request in Hreply |- *. unfold lastUpdatedTime. rewrite Hreply.
      now destruct (Store.setInterestList d1 (Indexer.iu_Space update)
                      (Indexer.iu_Updates update)
                      (UnixNano (Indexer.atListCreation clock))) as [d2 [e|]]. }
    split; [exact Hc|]. split.
    { intros Hecho. rewrite Hc. simpl. now rewrite Hecho. }
    intros Hecho Hnd. rewrite Hc. cbn [fst snd Indexer.db]. rewrite Hecho.
    exists (map (fun id => mkInterest id pending) (Indexer.iu_Updates update)).
    split; [|split; [apply Permutation_refl|]].
    + rewrite (InstallFacts.getInterestList_installed d1 space space
                 (UnixNano (Indexer.atListCreation clock)) Hr1 Hnd Hall1).
      unfold Store.getSpaceID. now rewrite Hr1, Z.eqb_refl.
    + rewrite (InstallFacts.setInterestList_when_served d1 space
                 (UnixNano (Indexer.atListCreation clock)) Hr1 Hnd Hall1).
      unfold Store.getInterestListState. cbn [fst spaces].
      now rewrite (@ListFacts.find_updateListCreated space
                     (UnixNano (Indexer.atListCreation clock)) _ r1 Hr1).
  - intros e Hreply. rewrite Hcycle. unfold Indexer.requestNextChunk. rewrite Hstate.
    unfold topic, request in Hreply |- *. unfold lastUpdatedTime. rewrite Hreply.
    reflexivity.
Qed.

Lemma served_chunk_requests_next_chunk_witness :
  let d1 := fst (Store.commitInterestList Examples.chunkStore "wp") in
  Store.getInterestList Examples.chunkStore "wp"
  = Ok [mkInterest "a" served; mkInterest "b" served; mkInterest "c" served]
  /\ Store.commitInterestList Examples.chunkStore "wp" = (d1, None)
  /\ exists state,
       Store.getInterestListState d1 "wp" = Ok state
       /\ positionOf d1 "wp" = Some (LastUpdated state, LastUpdatedDocID state)
       /\ Indexer.runUpdateCycle Examples.config Examples.publishOk Examples.replyEcho
            (Indexer.mkState Examples.chunkStore 0) "wp" Examples.clock
          = (3,
             Indexer.mkState
               (fst (Store.setInterestList d1 "wp" ["x"; "y"] 7000)) 0,
             [Indexer.CallGetInterestList "wp";
              Indexer.CallCommitInterestList "wp";
              Indexer.CallGetInterestListState "wp";
              Indexer.CallRequestWithContext 1000 "leta.index.request"
                (Indexer.mkIndexUpdateRequest "wp" (Unix0 (LastUpdated state))
                                              (LastUpdatedDocID state) 3);
              Indexer.CallSetInterestList "wp" ["x"; "y"]])
       /\ exists l,
            Store.getInterestList
              (Indexer.db
                 (snd (fst (Indexer.runUpdateCycle Examples.config
                              Examples.publishOk Examples.replyEcho
                              (Indexer.mkState Examples.chunkStore 0) "wp"
                              Examples.clock)))) "wp" = Ok l
            /\ Permutation l [mkInterest "x" pending; mkInterest "y" pending].
Proof.
  intros d1. split; [reflexivity|]. split; [reflexivity|].
  destruct (@served_chunk_requests_next_chunk Examples.config Examples.publishOk
              Examples.replyEcho (Indexer.mkState Examples.chunkStore 0) "wp"
              [mkInterest "a" served; mkInterest "b" served; mkInterest "c" served]
              Examples.clock d1 eq_refl eq_refl eq_refl eq_refl)
    as [state [Hstate [Hpos [Hok _]]]].
  exists state. split; [exact Hstate|]. split; [exact Hpos|].
  destruct (Hok (Indexer.mkIndexUpdate "wp" ["x"; "y"]) eq_refl)
    as [Hcycle [_ Hinstalled]].
  split; [exact Hcycle|].
  assert (NoDup ["x"; "y"]) as Hnd.
  { repeat (apply NoDup_cons; [simpl; intuition discriminate|]). apply NoDup_nil. }
  destruct (Hinstalled eq_refl Hnd) as [l [Hl [Hperm _]]].
  exists l. split; [exact Hl|exact Hperm].
Defined.

(** * Further properties of the store and the indexer *)

(** ** Clearing interest lists ([clearInterestList], [StartIndexer]) *)

(** X1.  [clearInterestList] of a registered space succeeds, leaves the
    spaces and the documents alone, and deletes exactly the interest rows of
    the space: its interest list is empty afterwards and the list of every
    space with another id reads as before. *)
Theorem clearInterestList_empties_only_the_space
    (d : Database) (space : string) (spaceID : Z) :
  Store.getSpaceID d space = Ok spaceID ->
  let d' := fst (Store.clearInterestList d space) in
  snd (Store.clearInterestList d space) = None
  /\ spaces d' = spaces d
  /\ docs d' = docs d
  /\ Store.getInterestList d' space = Ok []
  /\ (forall r, In r (interest d') <-> In r (interest d) /\ in_spaceID r <> spaceID)
  /\ (forall other otherID,
        Store.getSpaceID d other = Ok otherID -> otherID <> spaceID ->
        Store.getInterestList d' other = Store.getInterestList d other).
Proof.
  intros Hs d'.
  pose proof (ClearFacts.getInterestList_after_clear d space space Hs Hs) as Hself.
  rewrite Z.eqb_refl in Hself.
  unfold d'. split; [|split; [|split; [|split; [exact Hself|split]]]].
  - now rewrite (ClearFacts.clear_registered d space Hs).
  - now rewrite (ClearFacts.clear_registered d space Hs).
  - now rewrite (ClearFacts.clear_registered d space Hs).
  - intros r. rewrite (ClearFacts.clear_registered d space Hs). simpl.
    rewrite filter_In. unfold Store.interestOf.
    rewrite negb_true_iff, Z.eqb_neq. tauto.
  - intros other otherID Ho Hne.
    rewrite (ClearFacts.getInterestList_after_clear d space other Hs Ho).
    apply Z.eqb_neq in Hne. now rewrite Hne.
Qed.

Lemma clearInterestList_empties_only_the_space_witness :
  Store.getSpaceID Samples.crashedStore "wp" = Ok 1
  /\ Store.getInterestList (fst (Store.clearInterestList Samples.crashedStore "wp")) "wp"
     = Ok []
  /\ Store.getInterestList (fst (Store.clearInterestList Samples.crashedStore "wp"))
                           "other"
     = Store.getInterestList Samples.crashedStore "other".
Proof.
  split; [reflexivity|].
  destruct (@clearInterestList_empties_only_the_space Samples.crashedStore "wp" 1
              eq_refl) as [_ [_ [_ [Hself [_ Hother]]]]].
  split; [exact Hself|].
  apply (Hother "other" 2); [reflexivity|discriminate].
Defined.

(** ** Installing and reading an interest list *)

(** X2.  A list installed by a successful [setInterestList] reads back
    through [getInterestList] as the same document ids, each once and all
    pending, in whatever order the scan gives; the lists of spaces with
    another id read as before. *)
Theorem setInterestList_then_getInterestList
    (d : Database) (space : string) (ids : list DocumentID) (now : Z) (r : SpaceRow) :
  find (Store.spaceNamed space) (spaces d) = Some r ->
  NoDup ids ->
  (forall i, In i (interest d) -> in_spaceID i = sp_spaceID r -> in_state i = served) ->
  let d' := fst (Store.setInterestList d space ids now) in
  (exists l,
      Store.getInterestList d' space = Ok l
      /\ Permutation l (map (fun id => mkInterest id pending) ids))
  /\ (forall other otherID,
        Store.getSpaceID d other = Ok otherID -> otherID <> sp_spaceID r ->
        Store.getInterestList d' other = Store.getInterestList d other)
  /\ docs d' = docs d.
Proof.
  intros Hfind Hnd Hall d'. unfold d'. split; [|split].
  - rewrite (InstallFacts.getInterestList_installed d space space now Hfind Hnd Hall).
    unfold Store.getSpaceID. rewrite Hfind, Z.eqb_refl.
    eexists. split; [reflexivity|apply Permutation_refl].
  - intros other otherID Ho Hne.
    rewrite (InstallFacts.getInterestList_installed d space other now Hfind Hnd Hall).
    rewrite Ho. apply Z.eqb_neq in Hne. now rewrite Hne.
  - now rewrite (InstallFacts.setInterestList_when_served d space now Hfind Hnd Hall).
Qed.

Lemma setInterestList_then_getInterestList_witness :
  find (Store.spaceNamed "wp") (spaces Examples.chunkStore)
  = Some (mkSpaceRow 1 "wp" 1000 0 "")
  /\ NoDup ["x"; "y"]
  /\ exists l,
       Store.getInterestList
         (fst (Store.setInterestList Examples.chunkStore "wp" ["x"; "y"] 77)) "wp"
       = Ok l
       /\ Permutation l [mkInterest "x" pending; mkInterest "y" pending].
Proof.
  assert (NoDup ["x"; "y"]) as Hnd.
  { repeat (apply NoDup_cons; [simpl; intuition discriminate|]). apply NoDup_nil. }
  split; [reflexivity|]. split; [exact Hnd|].
  refine (proj1 (@setInterestList_then_getInterestList Examples.chunkStore "wp"
                   ["x"; "y"] 77 (mkSpaceRow 1 "wp" 1000 0 "") eq_refl Hnd _)).
  intros i Hi _. simpl in Hi. destruct Hi as [<-|[<-|[<-|[]]]]; reflexivity.
Defined.

(** X3.  Recovery after a crash: once [clearInterestList] has run for a
    registered space, [setInterestList] succeeds for every list without
    repeated ids, whatever state the rows of the old chunk were in, and
    [getInterestList] returns the ids of the new list, each once and all
    pending, in whatever order the scan gives. *)
Theorem clearInterestList_then_setInterestList
    (d : Database) (space : string) (ids : list DocumentID) (now : Z) (r : SpaceRow) :
  find (Store.spaceNamed space) (spaces d) = Some r ->
  NoDup ids ->
  let cleared := fst (Store.clearInterestList d space) in
  snd (Store.setInterestList cleared space ids now) = None
  /\ exists l,
       Store.getInterestList (fst (Store.setInterestList cleared space ids now))
                             space = Ok l
       /\ Permutation l (map (fun id => mkInterest id pending) ids).
Proof.
  intros Hfind Hnd cleared.
  assert (Store.getSpaceID d space = Ok (sp_spaceID r)) as Hs.
  { unfold Store.getSpaceID. now rewrite Hfind. }
  assert (cleared = Store.withInterest d
                      (filter (fun i => negb (Store.interestOf (sp_spaceID r) i))
                              (interest d))) as Hc.
  { unfold cleared. now rewrite (ClearFacts.clear_registered d space Hs). }
  assert (find (Store.spaceNamed space) (spaces cleared) = Some r) as Hfind'.
  { now rewrite Hc. }
  assert (forall i, In i (interest cleared) -> in_spaceID i = sp_spaceID r ->
                    in_state i = served) as Hall.
  { intros i Hi Hsid. rewrite Hc in Hi. simpl in Hi. apply filter_In in Hi.
    destruct Hi as [_ Hn]. unfold Store.interestOf in Hn.
    rewrite Hsid, Z.eqb_refl in Hn. discriminate. }
  split.
  - now rewrite (InstallFacts.setInterestList_when_served cleared space now
                   Hfind' Hnd Hall).
  - rewrite (InstallFacts.getInterestList_installed cleared space space now
               Hfind' Hnd Hall).
    unfold Store.getSpaceID. rewrite Hfind', Z.eqb_refl.
    eexists. split; [reflexivity|apply Permutation_refl].
Qed.

Lemma clearInterestList_then_setInterestList_witness :
  find (Store.spaceNamed "wp") (spaces Samples.crashedStore)
  = Some (mkSpaceRow 1 "wp" 1000 0 "")
  /\ NoDup ["x"; "y"]
  /\ snd (Store.setInterestList Samples.crashedStore "wp" ["x"; "y"] 77)
     = Some ActiveListExists
  /\ snd (Store.setInterestList (fst (Store.clearInterestList Samples.crashedStore "wp"))
                                "wp" ["x"; "y"] 77) = None.
Proof.
  assert (NoDup ["x"; "y"]) as Hnd.
  { repeat (apply NoDup_cons; [simpl; intuition discriminate|]). apply NoDup_nil. }
  split; [reflexivity|]. split; [exact Hnd|]. split; [reflexivity|].
  exact (proj1 (@clearInterestList_then_setInterestList Samples.crashedStore "wp"
                  ["x"; "y"] 77 (mkSpaceRow 1 "wp" 1000 0 "") eq_refl Hnd)).
Defined.

Module StartupFacts.

Import Store Startup.

Lemma clearInterestLists_registered (configured : list string) :
  forall d,
    (forall space, In space configured -> exists spaceID, getSpaceID d space = Ok spaceID) ->
    exists rows,
      clearInterestLists d configured = (withInterest d rows, None)
      /\ forall r, In r rows <->
                   In r (interest d)
                   /\ forall space spaceID, In space configured ->
                        getSpaceID d space = Ok spaceID -> in_spaceID r <> spaceID.
Proof.
  induction configured as [|space rest IH]; intros d Hreg; simpl.
  - exists (interest d). split.
    + unfold withInterest. now destruct d.
    + intros r. split; [intros H; split; [assumption|intros ? ? []]|tauto].
  - destruct (Hreg space (or_introl eq_refl)) as [spaceID Hs].
    rewrite (ClearFacts.clear_registered d space Hs).
    set (d1 := withInterest d (filter (fun i => negb (interestOf spaceID i)) (interest d))).
    destruct (IH d1) as [rows [Hrun Hrows]].
    { intros s Hin. destruct (Hreg s (or_intror Hin)) as [sid Hsid]. exists sid.
      unfold getSpaceID in *. exact Hsid. }
    exists rows. split.
    + rewrite Hrun. unfold withInterest, d1. reflexivity.
    + intros r. rewrite Hrows. unfold d1. simpl. rewrite filter_In.
      unfold interestOf. rewrite negb_true_iff, Z.eqb_neq.
      split.
      * intros [[Hin Hne] Hrest]. split; [assumption|].
        intros s sid [<-|Hs'] Hsid.
        -- rewrite Hs in Hsid. inversion Hsid; subst. assumption.
        -- apply (Hrest s sid Hs'). unfold getSpaceID in *. exact Hsid.
      * intros [Hin Hall]. split; [split; [assumption|]|].
        -- apply (Hall space spaceID (or_introl eq_refl) Hs).
        -- intros s sid Hs' Hsid. apply (Hall s sid (or_intror Hs')).
           unfold getSpaceID in *. exact Hsid.
Qed.

Lemma clearInterestLists_stops (pre : list string) :
  forall d space post e,
    (forall s, In s pre -> exists spaceID, getSpaceID d s = Ok spaceID) ->
    getSpaceID d space = Err e ->
    snd (clearInterestLists d (pre ++ space :: post))
    = Some (Wrapped "Failed to clear interest list" (NoSuchSpace space))
    /\ spaces (fst (clearInterestLists d (pre ++ space :: post))) = spaces d
    /\ docs (fst (clearInterestLists d (pre ++ space :: post))) = docs d.
Proof.
  induction pre as [|p pre IH]; intros d space post e Hreg Herr; simpl.
  - unfold clearInterestList. 
    assert (getSpaceID d space = Err (NoSuchSpace space)) as Hn.
    { unfold getSpaceID in *.
      destruct (find (spaceNamed space) (spaces d)); [discriminate|reflexivity]. }
    rewrite Hn. simpl. auto.
  - destruct (Hreg p (or_introl eq_refl)) as [pid Hp].
    rewrite (ClearFacts.clear_registered d p Hp).
    apply (IH (withInterest d (filter (fun i => negb (interestOf pid i)) (interest d)))
              space post e).
    + intros s Hs. destruct (Hreg s (or_intror Hs)) as [sid Hsid]. exists sid.
      unfold getSpaceID in *. exact Hsid.
    + unfold getSpaceID in *. exact Herr.
Qed.

End StartupFacts.

(** X4.  The startup loop of [StartIndexer].  When every configured space is
    registered, the loop succeeds, touches neither spaces nor documents,
    leaves every configured space with an empty interest list and keeps
    exactly the interest rows of the other space ids.  When a configured
    space is not registered, the loop stops there with the wrapped
    "No such space" error. *)
Theorem startup_clears_every_configured_space
    (d : Database) (configured : list string) :
  ((forall space, In space configured ->
                  exists spaceID, Store.getSpaceID d space = Ok spaceID) ->
   let d' := fst (Startup.clearInterestLists d configured) in
   snd (Startup.clearInterestLists d configured) = None
   /\ spaces d' = spaces d /\ docs d' = docs d
   /\ (forall space, In space configured -> Store.getInterestList d' space = Ok [])
   /\ (forall r, In r (interest d') <->
                 In r (interest d)
                 /\ forall space spaceID, In space configured ->
                      Store.getSpaceID d space = Ok spaceID -> in_spaceID r <> spaceID))
  /\ (forall pre space post e,
        configured = pre ++ space :: post ->
        (forall s, In s pre -> exists spaceID, Store.getSpaceID d s = Ok spaceID) ->
        Store.getSpaceID d space = Err e ->
        snd (Startup.clearInterestLists d configured)
        = Some (Wrapped "Failed to clear interest list" (NoSuchSpace space))).
Proof.
  split.
  - intros Hreg d'.
    destruct (StartupFacts.clearInterestLists_registered configured d Hreg)
      as [rows [Hrun Hrows]].
    unfold d'. rewrite Hrun. simpl.
    split; [reflexivity|]. split; [reflexivity|]. split; [reflexivity|].
    split; [|exact Hrows].
    intros space Hin. destruct (Hreg space Hin) as [spaceID Hs].
    unfold Store.getInterestList.
    assert (Store.getSpaceID (Store.withInterest d rows) space = Ok spaceID) as Hs'
      by (unfold Store.getSpaceID in *; exact Hs).
    rewrite Hs'. simpl.
    rewrite (ReplaceFacts.filter_none (Store.interestOf spaceID) rows); [reflexivity|].
    intros r Hr. apply Hrows in Hr. destruct Hr as [_ Hne].
    unfold Store.interestOf. apply Z.eqb_neq. exact (Hne space spaceID Hin Hs).
  - intros pre space post e -> Hreg Herr.
    exact (proj1 (StartupFacts.clearInterestLists_stops pre d space post Hreg Herr)).
Qed.

Lemma startup_clears_every_configured_space_witness :
  (forall space, In space ["wp"; "other"] ->
                 exists spaceID, Store.getSpaceID Samples.crashedStore space = Ok spaceID)
  /\ Startup.clearInterestLists Samples.crashedStore ["wp"; "other"]
     = (mkDatabase (spaces Samples.crashedStore) [] (docs Samples.crashedStore), None)
  /\ snd (Startup.clearInterestLists Samples.crashedStore ["wp"; "nope"; "other"])
     = Some (Wrapped "Failed to clear interest list" (NoSuchSpace "nope")).
Proof.
  assert (forall space, In space ["wp"; "other"] ->
            exists spaceID, Store.getSpaceID Samples.crashedStore space = Ok spaceID)
    as Hreg.
  { intros space [<-|[<-|[]]]; [exists 1|exists 2]; reflexivity. }
  split; [exact Hreg|]. split; [reflexivity|].
  destruct (@startup_clears_every_configured_space Samples.crashedStore
              ["wp"; "nope"; "other"]) as [_ Hstop].
  apply (Hstop ["wp"] "nope" ["other"] (NoSuchSpace "nope")); [reflexivity| |reflexivity].
  intros s [<-|[]]. exists 1. reflexivity.
Defined.

(** ** Single-row updates and the reset *)

Module StateFacts.

Import Store System.

Lemma filter_updateInterestState (spaceID other : Z) (docID : DocumentID)
    (state : InterestState) (rows : list InterestRow) :
  filter (interestOf other) (updateInterestState spaceID docID state rows)
  = updateInterestState spaceID docID state (filter (interestOf other) rows).
Proof.
  induction rows as [|r rows IH]; simpl; [reflexivity|].
  unfold interestOf in *.
  destruct (interestKey spaceID docID r) eqn:Hk; simpl;
    destruct (in_spaceID r =? other); simpl; rewrite ?Hk, IH; reflexivity.
Qed.

Lemma reset_row (spaceID other : Z) (r : InterestRow) :
  (if inState other requested (resetOne spaceID r) then 1 else 0)
  = (if other =? spaceID then 0 else if inState other requested r then 1 else 0)
  /\ (if inState other pending (resetOne spaceID r) then 1 else 0)
     = (if inState other pending r then 1 else 0)
       + (if other =? spaceID then if inState other requested r then 1 else 0 else 0)
  /\ (if inState other served (resetOne spaceID r) then 1 else 0)
     = (if inState other served r then 1 else 0).
Proof.
  destruct r as [s i st]. unfold resetOne, inState, interestOf.
  cbn [in_spaceID in_state in_docID].
  destruct (Z.eqb_spec s spaceID), (Z.eqb_spec other spaceID), (Z.eqb_spec s other);
    subst; destruct st; cbn; rewrite ?Z.eqb_refl; cbn;
    repeat split; try reflexivity; try congruence;
    repeat match goal with
           | H : ?a <> ?b |- context [?a =? ?b] =>
               rewrite (proj2 (Z.eqb_neq a b) H)
           end; cbn; reflexivity.
Qed.

Lemma reset_counts (spaceID other : Z) (rows : list InterestRow) :
  count (inState other requested) (map (resetOne spaceID) rows)
  = (if other =? spaceID then 0 else count (inState other requested) rows)
  /\ count (inState other pending) (map (resetOne spaceID) rows)
     = count (inState other pending) rows
       + (if other =? spaceID then count (inState other requested) rows else 0)
  /\ count (inState other served) (map (resetOne spaceID) rows)
     = count (inState other served) rows.
Proof.
  induction rows as [|r rows [IH1 [IH2 IH3]]].
  - cbn [map]. rewrite !InterestFacts.count_nil. destruct (other =? spaceID); auto.
  - cbn [map]. rewrite !InterestFacts.count_cons, IH1, IH2, IH3.
    destruct (reset_row spaceID other r) as [R1 [R2 R3]].
    rewrite R1, R2, R3.
    destruct (other =? spaceID); repeat split; lia.
Qed.

Lemma resetOne_idempotent (spaceID : Z) (r : InterestRow) :
  resetOne spaceID (resetOne spaceID r) = resetOne spaceID r.
Proof.
  unfold resetOne.
  destruct (InterestState_eqb (in_state r) requested && interestOf spaceID r) eqn:H;
    [reflexivity|now rewrite H].
Qed.

End StateFacts.

(** X5.  [setInterestState] of a registered space always succeeds, also for a
    document id the list does not hold.  Afterwards [getInterestList] returns
    the list as before with the entries of that id in the new state; the
    lists of spaces with another id, the spaces and the documents are
    untouched.  For an unregistered space the call fails and changes
    nothing. *)
Theorem setInterestState_then_getInterestList
    (d : Database) (space : string) (docID : DocumentID) (state : InterestState) :
  (forall spaceID interests,
      Store.getSpaceID d space = Ok spaceID ->
      Store.getInterestList d space = Ok interests ->
      let d' := fst (Store.setInterestState d space docID state) in
      snd (Store.setInterestState d space docID state) = None
      /\ Store.getInterestList d' space
         = Ok (map (fun i => if String.eqb (DocID i) docID
                             then mkInterest (DocID i) state else i) interests)
      /\ (~ In docID (map DocID interests) ->
          Store.getInterestList d' space = Ok interests)
      /\ (forall other otherID,
            Store.getSpaceID d other = Ok otherID -> otherID <> spaceID ->
            Store.getInterestList d' other = Store.getInterestList d other)
      /\ spaces d' = spaces d /\ docs d' = docs d)
  /\ (forall e, Store.getSpaceID d space = Err e ->
                Store.setInterestState d space docID state = (d, Some e)).
Proof.
  split.
  - intros spaceID interests Hs Hget d'.
    assert (Store.setInterestState d space docID state
            = (Store.withInterest d
                 (Store.updateInterestState spaceID docID state (interest d)), None))
      as Hset by (unfold Store.setInterestState; now rewrite Hs).
    unfold Store.getInterestList in Hget. rewrite Hs in Hget. simpl in Hget.
    inversion Hget; subst interests. clear Hget.
    assert (Store.getInterestList d' space
            = Ok (map (fun i => if String.eqb (DocID i) docID
                                then mkInterest (DocID i) state else i)
                      (map (fun r => mkInterest (in_docID r) (in_state r))
                           (filter (Store.interestOf spaceID) (interest d))))) as Hlist.
    { unfold d'. rewrite Hset. simpl. unfold Store.getInterestList.
      assert (Store.getSpaceID
                (Store.withInterest d
                   (Store.updateInterestState spaceID docID state (interest d))) space
              = Ok spaceID) as Hs' by (unfold Store.getSpaceID in *; exact Hs).
      rewrite Hs'. simpl. rewrite StateFacts.filter_updateInterestState.
      unfold Store.updateInterestState. rewrite !map_map. f_equal.
      apply map_ext_in. intros r Hr. apply filter_In in Hr. destruct Hr as [_ Hof].
      unfold Store.interestKey. unfold Store.interestOf in Hof. rewrite Hof. simpl.
      now destruct (String.eqb (in_docID r) docID). }
    split; [now rewrite Hset|]. split; [exact Hlist|]. split; [|split; [|split]].
    + intros Hnot. rewrite Hlist. f_equal.
      rewrite <- (map_id (map _ (filter _ (interest d)))) at 2.
      apply map_ext_in. intros i Hi.
      destruct (String.eqb (DocID i) docID) eqn:Heq; [|reflexivity].
      exfalso. apply Hnot. apply String.eqb_eq in Heq. rewrite <- Heq.
      now apply in_map.
    + intros other otherID Ho Hne. unfold d'. rewrite Hset. simpl.
      unfold Store.getInterestList.
      assert (Store.getSpaceID
                (Store.withInterest d
                   (Store.updateInterestState spaceID docID state (interest d))) other
              = Ok otherID) as Ho' by (unfold Store.getSpaceID in *; exact Ho).
      rewrite Ho', Ho. simpl. rewrite StateFacts.filter_updateInterestState.
      f_equal. f_equal. unfold Store.updateInterestState.
      rewrite <- (map_id (filter _ (interest d))) at 2.
      apply map_ext_in. intros r Hr. apply filter_In in Hr. destruct Hr as [_ Hof].
      unfold Store.interestKey. unfold Store.interestOf in Hof.
      apply Z.eqb_eq in Hof. rewrite Hof.
      apply Z.eqb_neq in Hne. now rewrite Hne.
    + unfold d'. now rewrite Hset.
    + unfold d'. now rewrite Hset.
  - intros e He. unfold Store.setInterestState. now rewrite He.
Qed.

Lemma setInterestState_then_getInterestList_witness :
  Store.getSpaceID Samples.crashedStore "wp" = Ok 1
  /\ Store.getInterestList
       (fst (Store.setInterestState Samples.crashedStore "wp" "a" requested)) "wp"
     = Ok [mkInterest "a" requested; mkInterest "b" requested; mkInterest "c" served]
  /\ Store.getInterestList
       (fst (Store.setInterestState Samples.crashedStore "wp" "zz" requested)) "wp"
     = Store.getInterestList Samples.crashedStore "wp".
Proof.
  split; [reflexivity|].
  destruct (@setInterestState_then_getInterestList Samples.crashedStore "wp" "a"
              requested) as [Hok _].
  destruct (Hok 1 _ eq_refl eq_refl) as [_ [Hlist _]].
  split; [exact Hlist|].
  destruct (@setInterestState_then_getInterestList Samples.crashedStore "wp" "zz"
              requested) as [Hok' _].
  destruct (Hok' 1 _ eq_refl eq_refl) as [_ [_ [Hsame _]]].
  apply Hsame. simpl. intuition discriminate.
Defined.

(** X6.  [resetRequested] of a registered space leaves the space without a
    requested row: its pending count grows by the former requested count, its
    served count and every count of the other space ids stay, and a second
    reset changes nothing. *)
Theorem resetRequested_counts
    (d : Database) (space : string) (spaceID : Z) :
  Store.getSpaceID d space = Ok spaceID ->
  let d' := fst (Store.resetRequested d space) in
  System.stateCount spaceID requested d' = 0
  /\ System.stateCount spaceID pending d'
     = System.stateCount spaceID pending d + System.stateCount spaceID requested d
  /\ System.stateCount spaceID served d' = System.stateCount spaceID served d
  /\ (forall other state, other <> spaceID ->
        System.stateCount other state d' = System.stateCount other state d)
  /\ Store.resetRequested d' space = (d', None).
Proof.
  intros Hs d'.
  assert (Store.resetRequested d space
          = (Store.withInterest d (map (System.resetOne spaceID) (interest d)), None))
    as Hr by (unfold Store.resetRequested; now rewrite Hs).
  unfold d'. rewrite Hr. simpl. unfold System.stateCount. simpl.
  destruct (StateFacts.reset_counts spaceID spaceID (interest d)) as [R1 [R2 R3]].
  rewrite Z.eqb_refl in R1, R2.
  split; [exact R1|]. split; [exact R2|]. split; [exact R3|]. split.
  - intros other state Hne.
    destruct (StateFacts.reset_counts spaceID other (interest d)) as [O1 [O2 O3]].
    apply Z.eqb_neq in Hne. rewrite Hne in O1, O2. rewrite Z.add_0_r in O2.
    destruct state; assumption.
  - unfold Store.resetRequested.
    assert (Store.getSpaceID
              (Store.withInterest d (map (System.resetOne spaceID) (interest d))) space
            = Ok spaceID) as Hs' by (unfold Store.getSpaceID in *; exact Hs).
    rewrite Hs'. unfold Store.withInterest. simpl. f_equal. f_equal.
    rewrite map_map. apply map_ext. intros r.
    apply (StateFacts.resetOne_idempotent spaceID r).
Qed.

Lemma resetRequested_counts_witness :
  Store.getSpaceID Samples.crashedStore "wp" = Ok 1
  /\ System.stateCount 1 requested (fst (Store.resetRequested Samples.crashedStore "wp"))
     = 0
  /\ System.stateCount 2 requested (fst (Store.resetRequested Samples.crashedStore "wp"))
     = System.stateCount 2 requested Samples.crashedStore.
Proof.
  split; [reflexivity|].
  destruct (@resetRequested_counts Samples.crashedStore "wp" 1 eq_refl)
    as [Hzero [_ [_ [Hother _]]]].
  split; [exact Hzero|]. apply Hother. discriminate.
Defined.

(** ** More on [commitInterestList] *)

Module CommitMore.

Import Store.

Lemma candidates_same (d d' : Database) (space : string) :
  interest d' = interest d -> docs d' = docs d ->
  map listCreatedAtNanos (filter (spaceNamed space) (spaces d'))
  = map listCreatedAtNanos (filter (spaceNamed space) (spaces d)) ->
  commitCandidates d' space = commitCandidates d space.
Proof.
  intros Hi Hd Hl. unfold commitCandidates. now rewrite Hi, Hd, Hl.
Qed.

Lemma filter_named_update (space name : string) (p : Position) (rows : list SpaceRow) :
  filter (spaceNamed name) (updateIndexPosition space p rows)
  = updateIndexPosition space p (filter (spaceNamed name) rows).
Proof.
  unfold updateIndexPosition. rewrite CycleFacts.filter_map_comm. f_equal.
  apply filter_ext. intros r. now destruct (spaceNamed space r).
Qed.

Lemma listCreated_update (space : string) (p : Position) (rows : list SpaceRow) :
  map listCreatedAtNanos (updateIndexPosition space p rows)
  = map listCreatedAtNanos rows.
Proof.
  unfold updateIndexPosition. rewrite map_map. apply map_ext.
  intros r. now destruct (spaceNamed space r).
Qed.

Lemma length_update (space : string) (p : Position) (rows : list SpaceRow) :
  List.length (updateIndexPosition space p rows) = List.length rows.
Proof. unfold updateIndexPosition. apply length_map. Qed.

Lemma update_update (space : string) (p : Position) (rows : list SpaceRow) :
  updateIndexPosition space p (updateIndexPosition space p rows)
  = updateIndexPosition space p rows.
Proof.
  unfold updateIndexPosition. rewrite map_map. apply map_ext. intros r.
  destruct (spaceNamed space r) eqn:Hs; [|now rewrite Hs].
  unfold spaceNamed in *. simpl. now rewrite Hs.
Qed.

Lemma find_other_update (space other : string) (p : Position) (rows : list SpaceRow) :
  other <> space ->
  find (spaceNamed other) (updateIndexPosition space p rows)
  = find (spaceNamed other) rows.
Proof.
  intros Hne. induction rows as [|r rows IH]; simpl; [reflexivity|].
  destruct (spaceNamed space r) eqn:Hs.
  - unfold spaceNamed in *. simpl. apply String.eqb_eq in Hs.
    assert (String.eqb (sp_space r) other = false) as Hf
      by (apply String.eqb_neq; congruence).
    now rewrite Hf.
  - destruct (spaceNamed other r); [reflexivity|exact IH].
Qed.

Lemma flat_map_nil {A B : Type} (l : list A) :
  flat_map (fun _ : A => @nil B) l = [].
Proof. induction l; simpl; auto. Qed.

Lemma candidates_unregistered (d : Database) (space : string) :
  filter (spaceNamed space) (spaces d) = [] -> commitCandidates d space = [].
Proof.
  intros H. unfold commitCandidates. rewrite H. simpl.
  induction (interest d) as [|i rows IH]; simpl; [reflexivity|].
  rewrite IH, app_nil_r. apply flat_map_nil.
Qed.

Lemma find_none_filter {A : Type} (f : A -> bool) (l : list A) :
  find f l = None -> filter f l = [].
Proof.
  induction l as [|a l IH]; simpl; [reflexivity|].
  destruct (f a); [discriminate|exact IH].
Qed.

Lemma filter_single_find {A : Type} (f : A -> bool) (l : list A) :
  Z.of_nat (List.length (filter f l)) = 1 ->
  exists r, filter f l = [r] /\ find f l = Some r.
Proof.
  induction l as [|a l IH]; simpl; [lia|].
  destruct (f a) eqn:Ha; simpl.
  - intros H. exists a. split; [|reflexivity].
    destruct (filter f l); [reflexivity|simpl in H; lia].
  - exact IH.
Qed.

(** Every selected row comes from a served interest row, a document row of
    the same document id and a list creation time above the document's
    timestamp. *)
Lemma candidate_inv (d : Database) (space : string) (c : Position) :
  In c (commitCandidates d space) ->
  exists i row created,
    In i (interest d) /\ in_state i = served
    /\ In row (docs d) /\ d_docID row = in_docID i
    /\ In created (map listCreatedAtNanos (filter (spaceNamed space) (spaces d)))
    /\ updatedNanos row < created
    /\ c = (updatedNanos row, d_docID row).
Proof.
  unfold commitCandidates. intros H.
  apply in_flat_map in H. destruct H as [i [Hi H]].
  apply in_flat_map in H. destruct H as [row [Hrow H]].
  apply in_flat_map in H. destruct H as [created [Hc H]].
  apply filter_In in Hrow. destruct Hrow as [Hrow Hid].
  apply String.eqb_eq in Hid.
  destruct (InterestState_eqb (in_state i) served && (updatedNanos row <? created))
    eqn:Hcond; [|contradiction].
  destruct H as [<-|[]].
  apply andb_true_iff in Hcond. destruct Hcond as [Hst Hlt].
  apply Z.ltb_lt in Hlt.
  exists i, row, created. repeat split; try assumption.
  destruct (in_state i); simpl in Hst; congruence.
Qed.

End CommitMore.

(** ** Progress of the index position across commits *)

(** C2 as stated fails: a successful commit can move the position backwards.
    At [Examples.behindStore] the position (200, "c") becomes (50, "a"). *)
Lemma commit_run_moves_position_back :
  ~ (forall space d d' p p',
        CommitRun space d d' ->
        positionOf d space = Some p ->
        positionOf d' space = Some p' ->
        pos_le p p').
Proof.
  intros H.
  assert (pos_le (200, "c") (50, "a")) as Hle.
  { apply (H "wp" Examples.behindStore
             (fst (Store.commitInterestList Examples.behindStore "wp"))).
    - apply CommitRun_step with (d1 := Examples.behindStore)
                                (d2 := Examples.behindStore).
      + apply CommitRun_refl.
      + reflexivity.
      + vm_compute. reflexivity.
    - vm_compute. reflexivity.
    - vm_compute. reflexivity. }
  vm_compute in Hle. discriminate.
Qed.

Module ProgressFacts.

Import Store.

Lemma highest_None (rows : list Position) :
  Spec.highest rows = None -> rows = [].
Proof.
  destruct rows as [|p rows]; simpl; [reflexivity|].
  destruct (Spec.highest rows); discriminate.
Qed.

Lemma highest_In (rows : list Position) :
  forall h, Spec.highest rows = Some h -> In h rows.
Proof.
  induction rows as [|p rows IH]; simpl; intros h H; [discriminate|].
  destruct (Spec.highest rows) as [q|].
  - destruct (pos_leb q p); inversion H; subst; auto.
  - inversion H; auto.
Qed.

(** The highest pair carries the latest timestamp. *)
Lemma highest_timestamp (rows : list Position) :
  forall h, Spec.highest rows = Some h ->
            forall c, In c rows -> fst c <= fst h.
Proof.
  induction rows as [|p rows IH]; simpl; intros h H c Hc; [contradiction|].
  destruct (Spec.highest rows) as [q|] eqn:Hq.
  - specialize (IH q eq_refl).
    destruct (pos_leb q p) eqn:Hle; inversion H; subst h.
    + unfold pos_leb in Hle. apply orb_true_iff in Hle.
      assert (fst q <= fst p) as Hqp.
      { destruct Hle as [Hlt|He]; [apply Z.ltb_lt in Hlt; lia|].
        apply andb_true_iff in He. destruct He as [He _].
        apply Z.eqb_eq in He. lia. }
      destruct Hc as [->|Hc]; [lia|]. specialize (IH c Hc). lia.
    + unfold pos_leb in Hle. apply orb_false_iff in Hle.
      destruct Hle as [Hlt _]. apply Z.ltb_ge in Hlt.
      destruct Hc as [->|Hc]; [lia|]. now apply IH.
  - inversion H; subst h. apply highest_None in Hq. subst rows.
    destruct Hc as [->|[]]. lia.
Qed.

(** A successful commit that stores a row found one row named [space]. *)
Lemma commit_success_row (d d' : Database) (space : string) :
  commitInterestList d space = (d', None) ->
  (commitCandidates d space = [] /\ d' = d)
  \/ (exists c s,
        firstOrdered (commitCandidates d space) = Some c
        /\ filter (spaceNamed space) (spaces d) = [s]
        /\ find (spaceNamed space) (spaces d) = Some s
        /\ d' = withSpaces d (updateIndexPosition space c (spaces d))).
Proof.
  unfold commitInterestList. cbn [BeginTxx working committed].
  destruct (firstOrdered (commitCandidates d space)) as [c|] eqn:Hf.
  - destruct (Z.of_nat (List.length (filter (spaceNamed space) (spaces d))) =? 1)
      eqn:Hcount; cbn [negb]; intros H; [|discriminate].
    apply Z.eqb_eq in Hcount.
    destruct (CommitMore.filter_single_find _ _ Hcount) as [s [Hs1 Hs2]].
    inversion H; subst d'. right. exists c, s. auto.
  - intros H. inversion H; subst d'. left. split; [|reflexivity].
    now apply CommitFacts.firstOrdered_None.
Qed.

(** The rows the query selects include the served pairs of the space. *)
Lemma served_selected (d : Database) (space : string) (c : Position) :
  In c (Spec.servedPositions d space) -> In c (commitCandidates d space).
Proof.
  unfold Spec.servedPositions, commitCandidates.
  destruct (find (spaceNamed space) (spaces d)) as [s|] eqn:Hs; [|contradiction].
  intros H. apply in_flat_map in H. destruct H as [i [Hi H]].
  destruct (interestOf (sp_spaceID s) i && InterestState_eqb (in_state i) served)
    eqn:Hcond; [|contradiction].
  apply andb_true_iff in Hcond. destruct Hcond as [_ Hserved].
  apply in_flat_map in H. destruct H as [r [Hr H]].
  destruct (docKey (sp_spaceID s) (in_docID i) r
            && (updatedNanos r <? listCreatedAtNanos s)) eqn:Hkey; [|contradiction].
  apply andb_true_iff in Hkey. destruct Hkey as [Hkey Hlt].
  destruct H as [<-|[]].
  unfold docKey in Hkey. apply andb_true_iff in Hkey. destruct Hkey as [_ Hid].
  apply in_flat_map. exists i. split; [exact Hi|].
  apply in_flat_map. exists r. split; [apply filter_In; now split|].
  apply in_flat_map. exists (listCreatedAtNanos s). split.
  - apply in_map. apply filter_In. apply find_some in Hs. exact Hs.
  - rewrite Hserved, Hlt. now left.
Qed.

(** In a store whose served rows are the space's own, the query selects
    nothing else. *)
Lemma selected_served (d : Database) (space : string) (s : SpaceRow) (c : Position) :
  ownRows d space = true ->
  filter (spaceNamed space) (spaces d) = [s] ->
  find (spaceNamed space) (spaces d) = Some s ->
  In c (commitCandidates d space) -> In c (Spec.servedPositions d space).
Proof.
  intros Hown Hfilter Hfind Hc.
  destruct (CommitMore.candidate_inv _ _ _ Hc)
    as [i [r [created [Hi [Hserved [Hr [Hid [Hcreated [Hlt ->]]]]]]]]].
  rewrite Hfilter in Hcreated. destruct Hcreated as [<-|[]].
  unfold ownRows in Hown. rewrite Hfind in Hown.
  rewrite forallb_forall in Hown. specialize (Hown i Hi).
  rewrite forallb_forall in Hown. specialize (Hown r Hr).
  assert (InterestState_eqb (in_state i) served
          && String.eqb (d_docID r) (in_docID i)
          && (updatedNanos r <? listCreatedAtNanos s) = true) as Hpre.
  { rewrite Hserved, Hid, String.eqb_refl. cbn [InterestState_eqb andb].
    now apply Z.ltb_lt. }
  rewrite Hpre in Hown. cbn [implb] in Hown.
  apply andb_true_iff in Hown. destruct Hown as [Hi1 Hr1].
  unfold Spec.servedPositions. rewrite Hfind.
  apply in_flat_map. exists i. split; [exact Hi|].
  unfold interestOf. rewrite Hi1, Hserved. cbn [InterestState_eqb andb].
  apply in_flat_map. exists r. split; [exact Hr|].
  unfold docKey. rewrite Hr1, Hid, String.eqb_refl. cbn [andb].
  assert ((updatedNanos r <? listCreatedAtNanos s) = true) as Hlt'
      by now apply Z.ltb_lt.
  rewrite Hlt'. now left.
Qed.

(** Where the served rows are the space's own and one document carries the
    latest timestamp, a successful commit stores the highest served pair, and
    leaves the store as it is when there is none. *)
Lemma commit_stores_highest (d d' : Database) (space : string) :
  ownRows d space = true ->
  singleLatest d space = true ->
  commitInterestList d space = (d', None) ->
  match Spec.highest (Spec.servedPositions d space) with
  | Some h => positionOf d' space = Some h
  | None => d' = d
  end.
Proof.
  intros Hown Hsingle Hcommit.
  destruct (commit_success_row _ _ Hcommit)
    as [[Hnone ->]|[c [s [Hfirst [Hfilter [Hfind ->]]]]]].
  - destruct (Spec.highest (Spec.servedPositions d space)) as [h|] eqn:Hh;
      [|reflexivity].
    apply highest_In, served_selected in Hh. rewrite Hnone in Hh. contradiction.
  - pose proof (CommitFacts.firstOrdered_In _ Hfirst) as Hc.
    pose proof (@selected_served d space s c Hown Hfilter Hfind Hc) as Hcs.
    destruct (Spec.highest (Spec.servedPositions d space)) as [h|] eqn:Hh.
    + assert (fst c <= fst h) as H1
        by exact (@highest_timestamp _ h Hh c Hcs).
      assert (fst h <= fst c) as H2.
      { apply (@CommitFacts.firstOrdered_timestamp _ c Hfirst h).
        apply served_selected. now apply highest_In. }
      unfold singleLatest in Hsingle. rewrite Hh in Hsingle.
      rewrite forallb_forall in Hsingle. specialize (Hsingle c Hcs).
      cbv beta in Hsingle.
      assert ((fst c =? fst h) = true) as He by (apply Z.eqb_eq; lia).
      rewrite Bool.implb_true_iff in Hsingle. specialize (Hsingle He).
      apply String.eqb_eq in Hsingle.
      assert (c = h) as -> by (destruct c, h; simpl in *; f_equal; [lia|assumption]).
      unfold positionOf, getInterestListState. cbn [withSpaces spaces].
      rewrite (CommitFacts.find_updateIndexPosition _ h _ Hfind).
      cbn [LastUpdated LastUpdatedDocID lastUpdatedAtNanos lastUpdatedDocID].
      now destruct h.
    + apply highest_None in Hh. rewrite Hh in Hcs. contradiction.
Qed.

(** The condition on the highest served pair is needed: where it lies
    before the stored position, the same commit moves the position back. *)
Lemma highest_behind_moves_back (d d' : Database) (space : string)
    (p h : Position) :
  ownRows d space = true ->
  singleLatest d space = true ->
  commitInterestList d space = (d', None) ->
  positionOf d space = Some p ->
  Spec.highest (Spec.servedPositions d space) = Some h ->
  pos_leb p h = false ->
  positionOf d' space = Some h /\ ~ pos_le p h.
Proof.
  intros Hown Hsingle Hcommit Hp Hh Hbehind.
  pose proof (@commit_stores_highest d d' space Hown Hsingle Hcommit) as Hstored.
  rewrite Hh in Hstored. split; [exact Hstored|].
  unfold pos_le. now rewrite Hbehind.
Qed.

End ProgressFacts.

(** C2 (amended).  Across every run of successful commits in which each
    commit finds the highest served pair of the space, when there is one, at
    or after the stored position, the position of the space does not decrease
    in the order timestamp first, document id second.  The runs are those
    whose commits read the space's own served rows, with one document at the
    latest timestamp; what the commit query selects otherwise is left out. *)
Theorem position_monotone_when_highest_served_ahead
    (space : string) (d d' : Database) (p : Position) :
  ServedAheadRun space d d' ->
  positionOf d space = Some p ->
  exists p', positionOf d' space = Some p' /\ pos_le p p'.
Proof.
  intros Hrun. revert p.
  induction Hrun as [d|d d1 d2 d3 Hrun IH Hsame Hown Hsingle Hahead Hcommit];
    intros p Hp.
  - exists p. split; [assumption|apply pos_le_refl].
  - destruct (IH p Hp) as [p1 [Hp1 Hle1]].
    rewrite <- Hsame in Hp1.
    pose proof (@ProgressFacts.commit_stores_highest d2 d3 space Hown Hsingle Hcommit)
      as Hstored.
    unfold highestAhead in Hahead. rewrite Hp1 in Hahead.
    destruct (Spec.highest (Spec.servedPositions d2 space)) as [h|].
    + exists h. split; [exact Hstored|].
      apply pos_le_trans with p1; [assumption|exact Hahead].
    + subst d3. exists p1. split; assumption.
Qed.

Lemma position_monotone_when_highest_served_ahead_witness :
  ServedAheadRun "wp" Samples.straddleStore
                 (fst (Store.commitInterestList Samples.straddleStore "wp"))
  /\ positionOf Samples.straddleStore "wp" = Some (200, "c")
  /\ exists p',
       positionOf (fst (Store.commitInterestList Samples.straddleStore "wp")) "wp"
       = Some p' /\ pos_le (200, "c") p'.
Proof.
  assert (ServedAheadRun "wp" Samples.straddleStore
            (fst (Store.commitInterestList Samples.straddleStore "wp"))) as Hrun.
  { apply ServedAheadRun_step with (d1 := Samples.straddleStore)
                                   (d2 := Samples.straddleStore).
    - apply ServedAheadRun_refl.
    - reflexivity.
    - reflexivity.
    - reflexivity.
    - reflexivity.
    - vm_compute. reflexivity. }
  split; [exact Hrun|]. split; [reflexivity|].
  apply (position_monotone_when_highest_served_ahead Hrun). reflexivity.
Defined.


(** X7.  [commitInterestList] changes nothing but the position of the rows
    named [space]: the interest and document tables and the state of every
    space with another name are as before.  Committing again right away
    returns the same result and the same store.  For a space the [spaces]
    table does not hold the call returns success and changes nothing. *)
Theorem commitInterestList_frame_and_idempotent (d : Database) (space : string) :
  let d1 := fst (Store.commitInterestList d space) in
  interest d1 = interest d
  /\ docs d1 = docs d
  /\ (forall other, other <> space ->
        Store.getInterestListState d1 other = Store.getInterestListState d other)
  /\ Store.commitInterestList d1 space = Store.commitInterestList d space
  /\ (find (Store.spaceNamed space) (spaces d) = None ->
      Store.commitInterestList d space = (d, None)).
Proof.
  intros d1. unfold d1.
  split; [apply HealthFacts.interest_commitInterestList|].
  unfold Store.commitInterestList. simpl.
  destruct (Store.firstOrdered (Store.commitCandidates d space)) as [p|] eqn:Hp.
  - destruct (Z.of_nat (List.length (filter (Store.spaceNamed space) (spaces d))) =? 1)
      eqn:Hc; simpl.
    + split; [reflexivity|]. split; [|split].
      * intros other Hne. unfold Store.getInterestListState. simpl.
        now rewrite (CommitMore.find_other_update p (spaces d) Hne).
      * assert (Store.commitCandidates
                  (Store.withSpaces d (Store.updateIndexPosition space p (spaces d)))
                  space = Store.commitCandidates d space) as Hsame.
        { apply CommitMore.candidates_same; try reflexivity. simpl.
          now rewrite CommitMore.filter_named_update, CommitMore.listCreated_update. }
        rewrite Hsame, Hp. simpl.
        rewrite CommitMore.filter_named_update, CommitMore.length_update, Hc. simpl.
        now rewrite CommitMore.update_update.
      * intros Hnone. apply CommitMore.find_none_filter in Hnone.
        rewrite Hnone in Hc. simpl in Hc. discriminate.
    + split; [reflexivity|]. split; [reflexivity|]. split.
      * rewrite Hp. simpl. now rewrite Hc.
      * intros Hnone. apply CommitMore.find_none_filter in Hnone.
        rewrite (CommitMore.candidates_unregistered d space Hnone) in Hp.
        discriminate.
  - split; [reflexivity|]. split; [reflexivity|]. split; [|reflexivity].
    cbn [fst]. now rewrite Hp.
Qed.

(** X8.  A successful commit that found a row to commit leaves the space at
    the position of a stored document that has a served interest row, and
    that position lies strictly before the creation time of the interest
    list: documents stamped at or after the list creation never become the
    position. *)
Theorem committed_position_precedes_list_creation
    (d d1 : Database) (space : string) :
  Store.commitInterestList d space = (d1, None) ->
  Store.commitCandidates d space <> [] ->
  exists state i row,
    Store.getInterestListState d1 space = Ok state
    /\ LastUpdated state < CreatedAt state
    /\ In i (interest d) /\ in_state i = served
    /\ In row (docs d) /\ d_docID row = in_docID i
    /\ updatedNanos row = LastUpdated state
    /\ d_docID row = LastUpdatedDocID state.
Proof.
  intros Hcommit Hne. unfold Store.commitInterestList in Hcommit. simpl in Hcommit.
  destruct (Store.firstOrdered (Store.commitCandidates d space)) as [p|] eqn:Hp.
  - destruct (Z.of_nat (List.length (filter (Store.spaceNamed space) (spaces d))) =? 1)
      eqn:Hc; simpl in Hcommit; [|discriminate].
    inversion Hcommit; subst d1. clear Hcommit.
    apply Z.eqb_eq in Hc.
    destruct (CommitMore.filter_single_find _ _ Hc) as [r [Hfilter Hfind]].
    apply CommitFacts.firstOrdered_In in Hp.
    destruct (CommitMore.candidate_inv d space p Hp)
      as [i [row [created [Hi [Hst [Hrow [Hid [Hcr [Hlt ->]]]]]]]]].
    rewrite Hfilter in Hcr. simpl in Hcr. destruct Hcr as [<-|[]].
    exists (mkInterestListState (listCreatedAtNanos r) (updatedNanos row) (d_docID row)),
           i, row.
    split.
    + unfold Store.getInterestListState. simpl.
      now rewrite (CommitFacts.find_updateIndexPosition space
                     (updatedNanos row, d_docID row) (spaces d) Hfind).
    + simpl. repeat split; assumption.
  - apply CommitFacts.firstOrdered_None in Hp. contradiction.
Qed.

Lemma committed_position_precedes_list_creation_witness :
  Store.commitInterestList Examples.chunkStore "wp"
  = (fst (Store.commitInterestList Examples.chunkStore "wp"), None)
  /\ Store.commitCandidates Examples.chunkStore "wp" <> []
  /\ exists state,
       Store.getInterestListState (fst (Store.commitInterestList Examples.chunkStore "wp"))
                                  "wp" = Ok state
       /\ LastUpdated state < CreatedAt state.
Proof.
  assert (Store.commitCandidates Examples.chunkStore "wp" <> []) as Hne.
  { vm_compute. discriminate. }
  split; [reflexivity|]. split; [exact Hne|].
  destruct (@committed_position_precedes_list_creation Examples.chunkStore
              (fst (Store.commitInterestList Examples.chunkStore "wp")) "wp"
              eq_refl Hne) as [state [i [row [Hstate [Hlt _]]]]].
  exists state. split; assumption.
Defined.

(** ** What a document batch leaves alone *)

Module BatchFrame.

Import Store Batch.

Lemma keys_markServed (spaceID : Z) (ids : list DocumentID) (rows : list InterestRow) :
  map System.interestKeyOf (markServed spaceID ids rows) = map System.interestKeyOf rows.
Proof.
  unfold markServed. rewrite map_map. apply map_ext. intros i.
  now destruct (interestOf spaceID i && existsb (String.eqb (in_docID i)) ids).
Qed.

Lemma markServed_other_spaces (spaceID : Z) (ids : list DocumentID)
    (rows : list InterestRow) :
  filter (fun i => negb (interestOf spaceID i)) (markServed spaceID ids rows)
  = filter (fun i => negb (interestOf spaceID i)) rows.
Proof.
  unfold markServed. induction rows as [|i rows IH]; simpl; [reflexivity|].
  destruct (interestOf spaceID i) eqn:Hs; simpl.
  - destruct (existsb (String.eqb (in_docID i)) ids); unfold interestOf in *; simpl;
      rewrite Hs; simpl; exact IH.
  - rewrite Hs. simpl. now rewrite IH.
Qed.

Lemma markServed_keeps_served (spaceID : Z) (ids : list DocumentID)
    (rows : list InterestRow) (i : InterestRow) :
  In i rows -> in_state i = served -> In i (markServed spaceID ids rows).
Proof.
  intros Hin Hst. unfold markServed. apply in_map_iff. exists i. split; [|assumption].
  destruct (interestOf spaceID i && existsb (String.eqb (in_docID i)) ids);
    [|reflexivity].
  destruct i as [s x st]. simpl in *. now subst st.
Qed.

Lemma replaceAll_other_spaces (spaceID : Z) (rows : list DocRow) :
  (forall row, In row rows -> d_spaceID row = spaceID) ->
  forall t, filter (otherSpace spaceID) (replaceAll rows t)
            = filter (otherSpace spaceID) t.
Proof.
  induction rows as [|row rows IH]; intros Hall t; simpl; [reflexivity|].
  rewrite IH by (intros x Hx; apply Hall; now right).
  unfold replaceDoc. rewrite filter_app. simpl.
  unfold otherSpace at 2. rewrite (Hall row (or_introl eq_refl)), Z.eqb_refl. simpl.
  rewrite app_nil_r, ReplaceFacts.filter_filter.
  apply filter_ext. intros r. unfold otherSpace, docKey.
  destruct (d_spaceID r =? spaceID); cbn [negb andb];
    rewrite ?andb_false_r; reflexivity.
Qed.

End BatchFrame.

Lemma addDocumentUpdates_cases
    (rowsAffected : DocRow -> Z) (d : Database) (space : string)
    (batch : list Document) :
  (fst (Store.addDocumentUpdates rowsAffected d space batch) = d
   /\ snd (Store.addDocumentUpdates rowsAffected d space batch) <> None)
  \/ (exists spaceID,
        Store.getSpaceID d space = Ok spaceID
        /\ Store.addDocumentUpdates rowsAffected d space batch
           = (fold_left (Batch.applyDoc spaceID) batch d, None)).
Proof.
  unfold Store.addDocumentUpdates.
  destruct (Store.getSpaceID d space) as [spaceID|e] eqn:Hs;
    [|left; split; [reflexivity|discriminate]].
  simpl.
  destruct (Store.docLoop rowsAffected spaceID d batch) as [w|e] eqn:Hloop;
    [|left; split; [reflexivity|discriminate]].
  right. exists spaceID. split; [reflexivity|]. simpl.
  pose proof (DocFacts.docLoop_ok_inv rowsAffected spaceID batch d Hloop) as Hone.
  rewrite (DocFacts.docLoop_all_one rowsAffected spaceID batch d Hone) in Hloop.
  now inversion Hloop.
Qed.

(** X9.  Whatever the batch and whether it succeeds or not,
    [addDocumentUpdates] never touches the spaces, never adds or removes an
    interest row, never takes a row out of the served state, and leaves the
    documents and interest rows of every other space exactly as they were. *)
Theorem addDocumentUpdates_leaves_other_spaces_alone
    (rowsAffected : DocRow -> Z) (d : Database) (space : string)
    (batch : list Document) :
  let d' := fst (Store.addDocumentUpdates rowsAffected d space batch) in
  spaces d' = spaces d
  /\ map System.interestKeyOf (interest d') = map System.interestKeyOf (interest d)
  /\ (forall i, In i (interest d) -> in_state i = served -> In i (interest d'))
  /\ (forall spaceID, Store.getSpaceID d space = Ok spaceID ->
        filter (Batch.otherSpace spaceID) (docs d')
        = filter (Batch.otherSpace spaceID) (docs d)
        /\ filter (fun i => negb (Store.interestOf spaceID i)) (interest d')
           = filter (fun i => negb (Store.interestOf spaceID i)) (interest d))
  /\ (forall e, Store.getSpaceID d space = Err e ->
                Store.addDocumentUpdates rowsAffected d space batch = (d, Some e)).
Proof.
  intros d'. unfold d'.
  assert (forall e, Store.getSpaceID d space = Err e ->
                    Store.addDocumentUpdates rowsAffected d space batch = (d, Some e))
    as Herr.
  { intros e He. unfold Store.addDocumentUpdates. now rewrite He. }
  destruct (addDocumentUpdates_cases rowsAffected d space batch)
    as [[Hsame _]|[spaceID [Hs Hok]]].
  - rewrite Hsame. repeat split; auto.
  - rewrite Hok. simpl.
    rewrite DocFacts.spaces_fold, DocFacts.interest_fold, DocFacts.docs_fold.
    split; [reflexivity|]. split; [apply BatchFrame.keys_markServed|].
    split; [intros i Hi Hst; now apply BatchFrame.markServed_keeps_served|].
    split; [|intros e He; rewrite Hs in He; discriminate].
    intros sid Hsid. rewrite Hs in Hsid. inversion Hsid; subst sid. split.
    + apply BatchFrame.replaceAll_other_spaces.
      intros row Hrow. apply in_map_iff in Hrow. destruct Hrow as [x [<- _]].
      reflexivity.
    + apply BatchFrame.markServed_other_spaces.
Qed.

(** X10.  A batch that succeeds and carries a document for every interest
    row of the space leaves the space without pending or requested rows: the
    list reads back with the same document ids, all served, so the next
    cycle takes the fully served path. *)
Theorem covering_batch_serves_the_chunk
    (rowsAffected : DocRow -> Z) (d : Database) (space : string) (spaceID : Z)
    (batch : list Document) (interests : list Interest) :
  Store.getSpaceID d space = Ok spaceID ->
  Store.getInterestList d space = Ok interests ->
  (forall doc, In doc batch -> rowsAffected (Store.docRowOf spaceID doc) = 1) ->
  (forall i, In i interests -> In (DocID i) (map ID batch)) ->
  let d' := fst (Store.addDocumentUpdates rowsAffected d space batch) in
  snd (Store.addDocumentUpdates rowsAffected d space batch) = None
  /\ Store.getInterestList d' space
     = Ok (map (fun i => mkInterest (DocID i) served) interests)
  /\ Indexer.numPending (Indexer.countInterests
                           (map (fun i => mkInterest (DocID i) served) interests)) = 0
  /\ Indexer.numRequested (Indexer.countInterests
                             (map (fun i => mkInterest (DocID i) served) interests)) = 0.
Proof.
  intros Hs Hget Hone Hcover d'. unfold d'.
  rewrite (addDocumentUpdates_all_one rowsAffected d space batch Hs Hone). simpl.
  split; [reflexivity|].
  unfold Store.getInterestList in Hget. rewrite Hs in Hget. simpl in Hget.
  inversion Hget; subst interests. clear Hget.
  split; [|split].
  - unfold Store.getInterestList.
    assert (Store.getSpaceID (fold_left (Batch.applyDoc spaceID) batch d) space
            = Ok spaceID) as Hs'
      by (unfold Store.getSpaceID in *; now rewrite DocFacts.spaces_fold).
    rewrite Hs'. simpl. rewrite DocFacts.interest_fold. f_equal.
    unfold Batch.markServed. rewrite CycleFacts.filter_map_comm, !map_map.
    assert (forall r, Store.interestOf spaceID
                        (if Store.interestOf spaceID r
                            && existsb (String.eqb (in_docID r)) (map ID batch)
                         then mkInterestRow (in_spaceID r) (in_docID r) served else r)
                      = Store.interestOf spaceID r) as Hsame.
    { intros r. now destruct (Store.interestOf spaceID r && _). }
    rewrite (filter_ext _ _ Hsame).
    apply map_ext_in. intros r Hr. simpl.
    apply filter_In in Hr. destruct Hr as [Hin Hof]. rewrite Hof. simpl.
    assert (existsb (String.eqb (in_docID r)) (map ID batch) = true) as He.
    { apply existsb_exists. exists (in_docID r). split; [|apply String.eqb_refl].
      apply (Hcover (mkInterest (in_docID r) (in_state r))).
      apply in_map_iff. exists r. split; [reflexivity|].
      apply filter_In. now split. }
    now rewrite He.
  - unfold Indexer.countInterests. rewrite CycleFacts.fold_countStep. simpl.
    rewrite (ReplaceFacts.filter_none (System.isState pending)); [reflexivity|].
    intros i Hi. apply in_map_iff in Hi. destruct Hi as [x [<- _]]. reflexivity.
  - unfold Indexer.countInterests. rewrite CycleFacts.fold_countStep. simpl.
    rewrite (ReplaceFacts.filter_none (System.isState requested)); [reflexivity|].
    intros i Hi. apply in_map_iff in Hi. destruct Hi as [x [<- _]]. reflexivity.
Qed.

Lemma covering_batch_serves_the_chunk_witness :
  Store.getSpaceID Examples.requestedStore "wp" = Ok 1
  /\ Store.getInterestList Examples.requestedStore "wp"
     = Ok [mkInterest "a" requested; mkInterest "b" requested]
  /\ Store.getInterestList
       (fst (Store.addDocumentUpdates Examples.reportOne Examples.requestedStore "wp"
                                      Examples.mixedBatch)) "wp"
     = Ok [mkInterest "a" served; mkInterest "b" served].
Proof.
  split; [reflexivity|]. split; [reflexivity|].
  refine (proj1 (proj2 (@covering_batch_serves_the_chunk Examples.reportOne
                          Examples.requestedStore "wp" 1 Examples.mixedBatch
                          [mkInterest "a" requested; mkInterest "b" requested]
                          eq_refl eq_refl (fun doc _ => eq_refl) _))).
  intros i [<-|[<-|[]]]; simpl; auto.
Defined.

(** ** What a cycle returns and what it leaves alone *)

Module CycleFrame.

Import Store Indexer System.

Lemma count_partition (spaceID : Z) (rows : list InterestRow) :
  Z.of_nat (List.length (filter (interestOf spaceID) rows))
  = count (inState spaceID pending) rows + count (inState spaceID requested) rows
    + count (inState spaceID served) rows.
Proof.
  induction rows as [|r rows IH]; [reflexivity|].
  rewrite !InterestFacts.count_cons. cbn [filter].
  set (cp := count (inState spaceID pending) rows) in *.
  set (cr := count (inState spaceID requested) rows) in *.
  set (cs := count (inState spaceID served) rows) in *.
  unfold inState.
  destruct (interestOf spaceID r); cbn [andb].
  - cbn [List.length]. rewrite Nat2Z.inj_succ, IH.
    destruct (in_state r); cbn [InterestState_eqb]; lia.
  - lia.
Qed.

Lemma keys_updateIndexPosition (space : string) (p : Position) (rows : list SpaceRow) :
  map (fun r => (sp_spaceID r, sp_space r)) (updateIndexPosition space p rows)
  = map (fun r => (sp_spaceID r, sp_space r)) rows.
Proof.
  unfold updateIndexPosition. rewrite map_map. apply map_ext.
  intros r. now destruct (spaceNamed space r).
Qed.

Lemma keys_updateListCreated (spaceID now : Z) (rows : list SpaceRow) :
  map (fun r => (sp_spaceID r, sp_space r)) (updateListCreated spaceID now rows)
  = map (fun r => (sp_spaceID r, sp_space r)) rows.
Proof.
  unfold updateListCreated. rewrite map_map. apply map_ext.
  intros r. now destruct (sp_spaceID r =? spaceID).
Qed.

Lemma commit_frame (d : Database) (space : string) :
  docs (fst (commitInterestList d space)) = docs d
  /\ spaceKeys (fst (commitInterestList d space)) = spaceKeys d.
Proof.
  unfold commitInterestList, spaceKeys. simpl.
  destruct (firstOrdered (commitCandidates d space)); [|auto].
  destruct (negb _); simpl; [auto|].
  split; [reflexivity|apply keys_updateIndexPosition].
Qed.

Lemma setInterestList_frame (d : Database) (space : string)
    (ids : list DocumentID) (now : Z) :
  docs (fst (setInterestList d space ids now)) = docs d
  /\ spaceKeys (fst (setInterestList d space ids now)) = spaceKeys d.
Proof.
  unfold setInterestList, spaceKeys. simpl.
  destruct (find (spaceNamed space) (spaces d)) as [r|]; [|auto].
  destruct (negb _); [auto|].
  destruct (insertPending (sp_spaceID r) ids _); simpl; [|auto].
  split; [reflexivity|apply keys_updateListCreated].
Qed.

Lemma resetRequested_frame (d : Database) (space : string) :
  docs (fst (resetRequested d space)) = docs d
  /\ spaceKeys (fst (resetRequested d space)) = spaceKeys d.
Proof.
  unfold resetRequested, spaceKeys.
  destruct (getSpaceID d space); simpl; auto.
Qed.

Section WithBus.

Variable cfg : Config.
Variable Publish : string -> DocumentRequest -> option Error.
Variable RequestWithContext :
  Duration -> string -> IndexUpdateRequest -> Result IndexUpdate.

Lemma requestNextChunk_frame (d : Database) (space : string) (now : Time) :
  docs (fst (fst (requestNextChunk cfg RequestWithContext d space now))) = docs d
  /\ spaceKeys (fst (fst (requestNextChunk cfg RequestWithContext d space now)))
     = spaceKeys d.
Proof.
  unfold requestNextChunk.
  destruct (getInterestListState d space); [|auto].
  destruct (RequestWithContext _ _ _) as [update|e]; [|auto].
  pose proof (setInterestList_frame d (iu_Space update) (iu_Updates update)
                                    (UnixNano now)) as H.
  now destruct (setInterestList d (iu_Space update) (iu_Updates update) (UnixNano now))
    as [d' [e|]].
Qed.

Lemma finishStep_frame (st : IndexerState) (space : string)
    (numPending' numRequested' : Z) (clock : Clock) :
  let st' := fst (finishStep cfg RequestWithContext st space
                             numPending' numRequested' clock) in
  docs (db st') = docs (db st)
  /\ spaceKeys (db st') = spaceKeys (db st)
  /\ lastDocumentRequest st' = lastDocumentRequest st.
Proof.
  unfold finishStep, commitFetched.
  destruct ((numPending' =? 0) && (numRequested' =? 0)).
  - pose proof (commit_frame (db st) space) as [Hd Hk].
    destruct (commitInterestList (db st) space) as [d' [e|]]; simpl in *; [auto|].
    pose proof (requestNextChunk_frame d' space (atListCreation clock)) as [Hd' Hk'].
    destruct (requestNextChunk cfg RequestWithContext d' space (atListCreation clock))
      as [[d'' calls] err].
    simpl in *. repeat split; congruence.
  - destruct (negb _ && _); simpl; [|auto].
    pose proof (resetRequested_frame (db st) space) as [Hd Hk]. auto.
Qed.

Lemma requestStep_frame (st : IndexerState) (space : string) (spaceID : Z)
    (c : Counts) (clock : Clock) :
  getSpaceID (db st) space = Ok spaceID ->
  let st' := fst (fst (requestStep cfg Publish st space c clock)) in
  docs (db st') = docs (db st)
  /\ spaceKeys (db st') = spaceKeys (db st)
  /\ (lastDocumentRequest st' = lastDocumentRequest st
      \/ lastDocumentRequest st' = atRequest clock).
Proof.
  intros Hs. unfold requestStep.
  destruct (0 <? Z.min (numPending c) (MaxOutstanding cfg - numRequested c));
    [|simpl; auto].
  rewrite (HealthFacts.requestDocuments_store cfg Publish (db st) space _ Hs).
  destruct (Publish _ _); simpl; auto.
Qed.

End WithBus.

End CycleFrame.

(** X11.  [runUpdateCycle] returns the number of interest rows of the space,
    pending, requested and served together, as counted when the cycle
    starts; for an unregistered space it returns 0 after the one failed read.
    No cycle writes a document, adds, removes or renames a space, and
    [lastDocumentRequest] is afterwards either what it was or the time of
    this cycle's request. *)
Theorem runUpdateCycle_total_and_frame
    (cfg : Indexer.Config)
    (Publish : string -> Indexer.DocumentRequest -> option Error)
    (RequestWithContext :
       Duration -> string -> Indexer.IndexUpdateRequest -> Result Indexer.IndexUpdate)
    (st : Indexer.IndexerState) (space : string) (clock : Indexer.Clock) :
  let cycle := Indexer.runUpdateCycle cfg Publish RequestWithContext st space clock in
  let st' := snd (fst cycle) in
  docs (Indexer.db st') = docs (Indexer.db st)
  /\ System.spaceKeys (Indexer.db st') = System.spaceKeys (Indexer.db st)
  /\ (Indexer.lastDocumentRequest st' = Indexer.lastDocumentRequest st
      \/ Indexer.lastDocumentRequest st' = Indexer.atRequest clock)
  /\ (forall spaceID, Store.getSpaceID (Indexer.db st) space = Ok spaceID ->
        fst (fst cycle)
        = System.stateCount spaceID pending (Indexer.db st)
          + System.stateCount spaceID requested (Indexer.db st)
          + System.stateCount spaceID served (Indexer.db st))
  /\ (forall e, Store.getSpaceID (Indexer.db st) space = Err e ->
        cycle = (0, st, [Indexer.CallGetInterestList space])).
Proof.
  intros cycle st'. unfold st', cycle, Indexer.runUpdateCycle.
  destruct (Store.getInterestList (Indexer.db st) space) as [interests|e] eqn:Hget.
  - destruct (HealthFacts.getSpaceID_of_getInterestList _ _ Hget) as [spaceID Hs].
    pose proof (CycleFrame.requestStep_frame cfg Publish st space
                  (Indexer.countInterests interests) clock Hs) as Hreq.
    destruct (Indexer.requestStep cfg Publish st space
                (Indexer.countInterests interests) clock) as [[st1 nr] calls1].
    cbn [fst snd] in Hreq. destruct Hreq as [Hd1 [Hk1 Hl1]].
    pose proof (CycleFrame.finishStep_frame cfg RequestWithContext st1 space
                  (Indexer.numPending (Indexer.countInterests interests)) nr clock)
      as Hfin.
    destruct (Indexer.finishStep cfg RequestWithContext st1 space
                (Indexer.numPending (Indexer.countInterests interests)) nr clock)
      as [st2 calls2].
    cbn [fst snd] in *. destruct Hfin as [Hd2 [Hk2 Hl2]].
    split; [congruence|]. split; [congruence|]. split.
    { rewrite Hl2. exact Hl1. }
    split.
    + intros sid Hsid. rewrite Hs in Hsid. inversion Hsid; subst sid.
      destruct (CycleFacts.counts_of_table _ _ Hs Hget) as [_ [_ [_ [_ Hlen]]]].
      rewrite Hlen. apply CycleFrame.count_partition.
    + intros e He. rewrite Hs in He. discriminate.
  - cbn [fst snd]. split; [reflexivity|]. split; [reflexivity|].
    split; [now left|]. split; [|reflexivity].
    intros spaceID Hs. unfold Store.getInterestList in Hget. rewrite Hs in Hget.
    discriminate.
Qed.

Module TraceFacts.

Import Store Indexer.

Section WithBus.

Variable cfg : Config.
Variable Publish : string -> DocumentRequest -> option Error.
Variable RequestWithContext :
  Duration -> string -> IndexUpdateRequest -> Result IndexUpdate.

Lemma markRequested_calls (wanted : list DocumentID) :
  forall d space c,
    In c (snd (fst (markRequested d space wanted))) ->
    exists docID, c = CallSetInterestState space docID requested.
Proof.
  induction wanted as [|docID wanted IH]; intros d space c; simpl; [intros []|].
  destruct (setInterestState d space docID requested) as [d' [e|]]; simpl.
  - intros [<-|[]]. eauto.
  - specialize (IH d' space c).
    destruct (markRequested d' space wanted) as [[d'' calls] err]. simpl in *.
    intros [<-|H]; eauto.
Qed.

Lemma requestStep_calls (st : IndexerState) (space : string) (c : Counts)
    (clock : Clock) :
  let calls := snd (requestStep cfg Publish st space c clock) in
  (calls = [] \/ 0 < numPending c)
  /\ forall x, In x calls ->
       (exists docID, x = CallSetInterestState space docID requested)
       \/ (exists t r, x = CallPublish t r).
Proof.
  unfold requestStep.
  destruct (0 <? Z.min (numPending c) (MaxOutstanding cfg - numRequested c)) eqn:Hw;
    [|simpl; split; [now left|intros x []]].
  apply Z.ltb_lt in Hw.
  set (wanted := firstn _ _).
  assert (forall x,
             In x (snd (fst (requestDocuments cfg Publish (db st) space wanted))) ->
             (exists docID, x = CallSetInterestState space docID requested)
             \/ (exists t r, x = CallPublish t r)) as Hcalls.
  { unfold requestDocuments.
    pose proof (markRequested_calls wanted (db st) space) as Hm.
    destruct (markRequested (db st) space wanted) as [[d' calls] [e|]]; simpl in *.
    - intros x Hx. left. now apply Hm.
    - intros x Hx. apply in_app_or in Hx. destruct Hx as [Hx|[<-|[]]].
      + left. now apply Hm.
      + right. eauto. }
  destruct (requestDocuments cfg Publish (db st) space wanted) as [[d' calls] [e|]];
    simpl in *; (split; [right; lia|exact Hcalls]).
Qed.

Lemma finishStep_work_remains (st : IndexerState) (space : string)
    (numPending' numRequested' : Z) (clock : Clock) :
  0 < numPending' ->
  forall x, In x (snd (finishStep cfg RequestWithContext st space
                                  numPending' numRequested' clock)) ->
            x = CallResetRequested space.
Proof.
  intros Hp x. unfold finishStep.
  assert ((numPending' =? 0) = false) as Hz by (apply Z.eqb_neq; lia).
  rewrite Hz. simpl. destruct (negb _ && _); simpl; [intros [<-|[]]; reflexivity|intros []].
Qed.

Lemma finishStep_reset_alone (st : IndexerState) (space : string)
    (numPending' numRequested' : Z) (clock : Clock) :
  let calls := snd (finishStep cfg RequestWithContext st space
                               numPending' numRequested' clock) in
  (forall x, In x calls -> x = CallResetRequested space)
  \/ (forall s, ~ In (CallResetRequested s) calls).
Proof.
  unfold finishStep, commitFetched.
  destruct ((numPending' =? 0) && (numRequested' =? 0)).
  - right. intros s.
    destruct (commitInterestList (db st) space) as [d' [e|]]; simpl.
    + intros [H|[]]. discriminate.
    + unfold requestNextChunk.
      destruct (getInterestListState d' space) as [state|e]; simpl.
      * destruct (RequestWithContext _ _ _) as [update|e]; simpl.
        -- destruct (setInterestList d' _ _ _) as [d'' [e|]]; simpl;
             intros [H|[H|[H|[H|[]]]]]; discriminate.
        -- intros [H|[H|[H|[]]]]; discriminate.
      * intros [H|[H|[]]]; discriminate.
  - left. destruct (negb _ && _); simpl; [intros x [<-|[]]; reflexivity|intros x []].
Qed.

End WithBus.

End TraceFacts.

(** X12.  A cycle either asks for documents or moves on to the next chunk,
    never both: once it has published a [DocumentRequest] it makes no commit,
    sends no [IndexUpdateRequest] and installs no list; and a cycle that
    commits has set no row to [requested] and published nothing. *)
Theorem cycle_requests_documents_or_next_chunk
    (cfg : Indexer.Config)
    (Publish : string -> Indexer.DocumentRequest -> option Error)
    (RequestWithContext :
       Duration -> string -> Indexer.IndexUpdateRequest -> Result Indexer.IndexUpdate)
    (st : Indexer.IndexerState) (space : string) (clock : Indexer.Clock) :
  let calls :=
    snd (Indexer.runUpdateCycle cfg Publish RequestWithContext st space clock) in
  (forall t r, In (Indexer.CallPublish t r) calls ->
     (forall s, ~ In (Indexer.CallCommitInterestList s) calls)
     /\ (forall deadline t' q, ~ In (Indexer.CallRequestWithContext deadline t' q) calls)
     /\ (forall s ids, ~ In (Indexer.CallSetInterestList s ids) calls))
  /\ (forall s, In (Indexer.CallCommitInterestList s) calls ->
        (forall s' docID x, ~ In (Indexer.CallSetInterestState s' docID x) calls)
        /\ (forall t r, ~ In (Indexer.CallPublish t r) calls)
        /\ (forall s', ~ In (Indexer.CallResetRequested s') calls)).
Proof.
  intros calls. unfold calls, Indexer.runUpdateCycle.
  destruct (Store.getInterestList (Indexer.db st) space) as [interests|e].
  - set (c := Indexer.countInterests interests).
    pose proof (@TraceFacts.requestStep_calls cfg Publish st space c clock) as Hreq.
    destruct (Indexer.requestStep cfg Publish st space c clock) as [[st1 nr] calls1].
    cbn [fst snd] in Hreq. destruct Hreq as [Hwant Hshape].
    pose proof (@finishStep_calls cfg RequestWithContext st1 space
                  (Indexer.numPending c) nr clock) as Hfin.
    pose proof (@TraceFacts.finishStep_work_remains cfg RequestWithContext st1 space
                  (Indexer.numPending c) nr clock) as Hrem.
    pose proof (@TraceFacts.finishStep_reset_alone cfg RequestWithContext st1 space
                  (Indexer.numPending c) nr clock) as Halone.
    destruct (Indexer.finishStep cfg RequestWithContext st1 space
                (Indexer.numPending c) nr clock) as [st2 calls2].
    cbn [fst snd] in *.
    assert (forall x, In x (Indexer.CallGetInterestList space :: calls1 ++ calls2) ->
              x = Indexer.CallGetInterestList space \/ In x calls1 \/ In x calls2)
      as Hsplit.
    { intros x [<-|Hx]; [now left|]. apply in_app_or in Hx. tauto. }
    split.
    + intros t r Hpub.
      assert (0 < Indexer.numPending c) as Hp.
      { destruct Hwant as [->|Hp]; [|exact Hp].
        destruct (Hsplit _ Hpub) as [H|[[]|H]]; [discriminate|].
        destruct (Hfin _ H) as [Hno _]. now destruct (Hno t r). }
      assert (forall x, In x (Indexer.CallGetInterestList space :: calls1 ++ calls2) ->
                x = Indexer.CallGetInterestList space
                \/ (exists docID, x = Indexer.CallSetInterestState space docID requested)
                \/ (exists t r, x = Indexer.CallPublish t r)
                \/ x = Indexer.CallResetRequested space) as Hall.
      { intros x Hx. destruct (Hsplit _ Hx) as [H|[H|H]]; [now left| |].
        - destruct (Hshape _ H); tauto.
        - right. right. right. now apply Hrem. }
      repeat split; intros; intro Hin;
        destruct (Hall _ Hin) as [H|[[? H]|[[? [? H]]|H]]]; discriminate.
    + intros s Hcommit.
      assert (calls1 = []) as ->.
      { destruct Hwant as [->|Hp]; [reflexivity|].
        destruct (Hsplit _ Hcommit) as [H|[H|H]]; [discriminate| |].
        - destruct (Hshape _ H) as [[? Hx]|[? [? Hx]]]; discriminate.
        - pose proof (Hrem Hp _ H) as Hx. discriminate. }
      simpl in *.
      assert (forall s', ~ In (Indexer.CallResetRequested s') calls2) as Hnoreset.
      { destruct Hcommit as [H|Hc]; [discriminate|].
        destruct Halone as [Hall|Hnone]; [|exact Hnone].
        specialize (Hall _ Hc). discriminate. }
      repeat split.
      * intros s' docID x [H|H]; [discriminate|].
        destruct (Hfin _ H) as [_ Hno]. now destruct (Hno s' docID x).
      * intros t r [H|H]; [discriminate|].
        destruct (Hfin _ H) as [Hno _]. now destruct (Hno t r).
      * intros s' [H|H]; [discriminate|]. now apply (Hnoreset s').
  - simpl. split.
    + intros t r [H|[]]. discriminate.
    + intros s [H|[]]. discriminate.
Qed.

(** ** An idle pass of the main loop *)

Module IdleFacts.

Import Store Indexer Startup.

Lemma position_updateListCreated (name : string) (spaceID now : Z)
    (rows : list SpaceRow) :
  option_map (fun r => (lastUpdatedAtNanos r, lastUpdatedDocID r))
             (find (spaceNamed name) (updateListCreated spaceID now rows))
  = option_map (fun r => (lastUpdatedAtNanos r, lastUpdatedDocID r))
               (find (spaceNamed name) rows).
Proof.
  induction rows as [|s rows IH]; simpl; [reflexivity|].
  destruct (sp_spaceID s =? spaceID); unfold spaceNamed in *; simpl;
    destruct (String.eqb (sp_space s) name); simpl; auto.
Qed.

Lemma positionOf_updateListCreated (d : Database) (name : string) (spaceID now : Z)
    (rows : list InterestRow) (t : list DocRow) :
  positionOf (mkDatabase (updateListCreated spaceID now (spaces d)) rows t) name
  = positionOf d name.
Proof.
  unfold positionOf, getInterestListState. simpl.
  pose proof (position_updateListCreated name spaceID now (spaces d)) as H.
  destruct (find (spaceNamed name) (updateListCreated spaceID now (spaces d)));
    destruct (find (spaceNamed name) (spaces d)); simpl in *; congruence.
Qed.

Section WithBus.

Variable cfg : Config.
Variable Publish : string -> DocumentRequest -> option Error.
Variable RequestWithContext :
  Duration -> string -> IndexUpdateRequest -> Result IndexUpdate.

(** The provider has nothing new for any space and echoes the space. *)
Hypothesis nothing_new :
  forall deadline topic request,
    RequestWithContext deadline topic request
    = Ok (mkIndexUpdate (ur_Space request) []).

(** A cycle on an empty interest table. *)
Lemma idle_cycle (st : IndexerState) (space : string) (spaceID : Z) (clock : Clock) :
  interest (db st) = [] ->
  getSpaceID (db st) space = Ok spaceID ->
  exists calls,
    runUpdateCycle cfg Publish RequestWithContext st space clock
    = (0,
       mkState (mkDatabase (updateListCreated spaceID (atListCreation clock)
                                              (spaces (db st)))
                           [] (docs (db st)))
               (lastDocumentRequest st),
       calls)
    /\ forall t r, ~ In (CallPublish t r) calls.
Proof.
  intros Hi Hs.
  assert (exists r, find (spaceNamed space) (spaces (db st)) = Some r
                    /\ sp_spaceID r = spaceID) as [r [Hfind Hid]].
  { unfold getSpaceID in Hs.
    destruct (find (spaceNamed space) (spaces (db st))) as [r|]; [|discriminate].
    exists r. split; [reflexivity|]. now inversion Hs. }
  unfold runUpdateCycle, getInterestList. rewrite Hs, Hi. cbn [bind filter map].
  unfold countInterests. cbn [fold_left List.length Z.of_nat].
  unfold requestStep. cbn [numPending numRequested pendingIDs].
  assert ((0 <? Z.min 0 (MaxOutstanding cfg - 0)) = false) as Hno
    by (apply Z.ltb_ge; lia).
  rewrite Hno. unfold finishStep, commitFetched. cbn [Z.eqb andb].
  assert (commitInterestList (db st) space = (db st, None)) as Hcommit.
  { unfold commitInterestList, commitCandidates. simpl. now rewrite Hi. }
  rewrite Hcommit. unfold requestNextChunk, getInterestListState. rewrite Hfind.
  rewrite nothing_new. cbn [iu_Space iu_Updates ur_Space].
  assert (setInterestList (db st) space [] (UnixNano (atListCreation clock))
          = (mkDatabase (updateListCreated spaceID (atListCreation clock)
                                           (spaces (db st)))
                        [] (docs (db st)), None)) as Hset.
  { unfold setInterestList. simpl. rewrite Hfind, Hi. simpl. now rewrite Hid. }
  rewrite Hset. eexists. split; [reflexivity|].
  intros t q [H|[H|[H|[H|[H|[]]]]]]; discriminate.
Qed.

Variable clockAt : nat -> Clock.

Lemma idle_cycles (configured : list string) :
  forall n st,
    interest (db st) = [] ->
    (forall space, In space configured ->
                   exists spaceID, getSpaceID (db st) space = Ok spaceID) ->
    exists st' calls,
      runCycles cfg Publish RequestWithContext clockAt n st configured
      = (0, st', calls)
      /\ interest (db st') = []
      /\ docs (db st') = docs (db st)
      /\ lastDocumentRequest st' = lastDocumentRequest st
      /\ (forall name, positionOf (db st') name = positionOf (db st) name)
      /\ (forall t r, ~ In (CallPublish t r) calls).
Proof.
  induction configured as [|space rest IH]; intros n st Hi Hreg.
  - exists st, []. simpl. repeat split; auto.
  - destruct (Hreg space (or_introl eq_refl)) as [spaceID Hs].
    destruct (idle_cycle st space (clockAt n) Hi Hs) as [calls1 [Hcycle Hnopub]].
    set (st1 := mkState (mkDatabase (updateListCreated spaceID
                                       (atListCreation (clockAt n)) (spaces (db st)))
                                    [] (docs (db st)))
                        (lastDocumentRequest st)) in *.
    destruct (IH (S n) st1) as [st2 [calls2 [Hrun [Hi2 [Hd2 [Hl2 [Hp2 Hnp2]]]]]]].
    + reflexivity.
    + intros s Hin. destruct (Hreg s (or_intror Hin)) as [sid Hsid]. exists sid.
      unfold st1. simpl. now rewrite InstallFacts.getSpaceID_updateListCreated.
    + exists st2, (calls1 ++ calls2). simpl. rewrite Hcycle, Hrun.
      split; [reflexivity|]. split; [exact Hi2|]. split; [exact Hd2|].
      split; [exact Hl2|]. split.
      * intros name. rewrite Hp2. unfold st1. simpl.
        apply positionOf_updateListCreated.
      * intros t r Hin. apply in_app_or in Hin. destruct Hin as [H|H];
          [exact (Hnopub t r H)|exact (Hnp2 t r H)].
Qed.

End WithBus.

End IdleFacts.

(** X13.  An idle pass of the main loop.  When the interest table is empty,
    every configured space is registered and the provider has nothing new,
    one pass over the spaces counts no interest, leaves the interest table
    empty, the documents, every position and [lastDocumentRequest] as they
    were, publishes no document request, and the loop waits
    [EmptyCycleWait]. *)
Theorem idle_tick_waits_EmptyCycleWait
    (cfg : Indexer.Config)
    (Publish : string -> Indexer.DocumentRequest -> option Error)
    (RequestWithContext :
       Duration -> string -> Indexer.IndexUpdateRequest -> Result Indexer.IndexUpdate)
    (clockAt : nat -> Indexer.Clock) (pacing : Startup.Pacing)
    (st : Indexer.IndexerState) :
  interest (Indexer.db st) = [] ->
  (forall space, In space (Indexer.Spaces cfg) ->
                 exists spaceID, Store.getSpaceID (Indexer.db st) space = Ok spaceID) ->
  (forall deadline topic request,
      RequestWithContext deadline topic request
      = Ok (Indexer.mkIndexUpdate (Indexer.ur_Space request) [])) ->
  let tick := Startup.mainTick cfg Publish RequestWithContext clockAt pacing st in
  let st' := snd (fst tick) in
  fst (fst tick) = Startup.EmptyCycleWait pacing
  /\ interest (Indexer.db st') = []
  /\ docs (Indexer.db st') = docs (Indexer.db st)
  /\ Indexer.lastDocumentRequest st' = Indexer.lastDocumentRequest st
  /\ (forall name, positionOf (Indexer.db st') name = positionOf (Indexer.db st) name)
  /\ (forall t r, ~ In (Indexer.CallPublish t r) (snd tick)).
Proof.
  intros Hi Hreg Hnothing tick st'.
  destruct (@IdleFacts.idle_cycles cfg Publish RequestWithContext Hnothing clockAt
              (Indexer.Spaces cfg) 0%nat st Hi Hreg) as [st2 [calls [Hrun H]]].
  unfold st', tick, Startup.mainTick. rewrite Hrun. simpl. split; [reflexivity|exact H].
Qed.

Lemma idle_tick_waits_EmptyCycleWait_witness :
  interest Samples.coldStore = []
  /\ Startup.mainTick Examples.config Examples.publishOk Samples.replyNothing
       Samples.clockAt Samples.pacing (Indexer.mkState Samples.coldStore 0)
     = (10000,
        snd (fst (Startup.mainTick Examples.config Examples.publishOk
                    Samples.replyNothing Samples.clockAt Samples.pacing
                    (Indexer.mkState Samples.coldStore 0))),
        snd (Startup.mainTick Examples.config Examples.publishOk
               Samples.replyNothing Samples.clockAt Samples.pacing
               (Indexer.mkState Samples.coldStore 0)))
  /\ positionOf
       (Indexer.db (snd (fst (Startup.mainTick Examples.config Examples.publishOk
                                Samples.replyNothing Samples.clockAt Samples.pacing
                                (Indexer.mkState Samples.coldStore 0))))) "wp"
     = Some (0, "").
Proof.
  split; [reflexivity|]. split; [reflexivity|].
  assert (forall space, In space (Indexer.Spaces Examples.config) ->
            exists spaceID,
              Store.getSpaceID (Indexer.db (Indexer.mkState Samples.coldStore 0)) space
              = Ok spaceID) as Hreg.
  { intros space [<-|[<-|[]]]; [exists 1|exists 2]; reflexivity. }
  destruct (@idle_tick_waits_EmptyCycleWait Examples.config Examples.publishOk
              Samples.replyNothing Samples.clockAt Samples.pacing
              (Indexer.mkState Samples.coldStore 0) eq_refl Hreg
              (fun _ _ _ => eq_refl)) as [_ [_ [_ [_ [Hpos _]]]]].
  rewrite (Hpos "wp"). reflexivity.
Defined.

(** ** Stemmer settings *)

Module StemmerFacts.

Import Stemmer.

Lemma splitComma_plain (x : string) : hasComma x = false -> splitComma x = [x].
Proof.
  induction x as [|c x IH]; simpl; [reflexivity|].
  destruct (Ascii.eqb c ","%char); simpl; [discriminate|].
  intros H. now rewrite (IH H).
Qed.

Lemma splitComma_append (x rest : string) :
  hasComma x = false ->
  splitComma (x ++ String ","%char rest) = x :: splitComma rest.
Proof.
  induction x as [|c x IH]; simpl; [reflexivity|].
  destruct (Ascii.eqb c ","%char); simpl; [discriminate|].
  intros H. now rewrite (IH H).
Qed.

Lemma split_join (l : list string) :
  l <> [] -> (forall x, In x l -> hasComma x = false) ->
  splitComma (joinComma l) = l.
Proof.
  induction l as [|x l IH]; intros Hne Hall; [contradiction|].
  destruct l as [|y l].
  - simpl. apply splitComma_plain. apply Hall. now left.
  - change (joinComma (x :: y :: l))
      with (x ++ String ","%char (joinComma (y :: l)))%string.
    rewrite splitComma_append by (apply Hall; now left).
    rewrite IH; [reflexivity|discriminate|].
    intros z Hz. apply Hall. now right.
Qed.

Lemma length_append (a b : string) :
  String.length (a ++ b) = (String.length a + String.length b)%nat.
Proof. induction a as [|c a IH]; simpl; [reflexivity|now rewrite IH]. Qed.

Lemma join_empty (l : list string) :
  String.length (joinComma l) = 0%nat <-> l = [] \/ l = [EmptyString].
Proof.
  destruct l as [|x [|y l]].
  - simpl. tauto.
  - simpl. split.
    + intros H. right. destruct x; [reflexivity|discriminate].
    + intros [H|H]; [discriminate|]. now inversion H.
  - change (joinComma (x :: y :: l)) with (x ++ "," ++ joinComma (y :: l))%string.
    rewrite !length_append. simpl. split; [lia|].
    intros [H|H]; discriminate.
Qed.

End StemmerFacts.

(** X14.  Stemmer settings written by [setStemmerState] are what
    [getStemmerState] returns afterwards, whether the table had a row or not,
    as long as no stemmer name holds a comma: the flag, the token characters
    and the separators always, the stemmer list too unless it is the single
    empty name, which reads back as no stemmer at all. *)
Theorem setStemmerState_then_getStemmerState
    (rows : list Stemmer.StemmerRow) (state : Stemmer.Settings) (insertedAt : Time) :
  (forall x, In x (Stemmer.Stemmers state) -> Stemmer.hasComma x = false) ->
  let rows' := fst (Stemmer.setStemmerState rows state insertedAt) in
  let readBack := fst (fst (Stemmer.getStemmerState rows')) in
  snd (Stemmer.setStemmerState rows state insertedAt) = None
  /\ snd (Stemmer.getStemmerState rows') = None
  /\ Stemmer.RemoveDiacritics readBack = Stemmer.RemoveDiacritics state
  /\ Stemmer.TokenCharacters readBack = Stemmer.TokenCharacters state
  /\ Stemmer.Separators readBack = Stemmer.Separators state
  /\ (Stemmer.Stemmers state <> [EmptyString] -> readBack = state)
  /\ (Stemmer.Stemmers state = [EmptyString] -> Stemmer.Stemmers readBack = []).
Proof.
  intros Hplain rows' readBack.
  assert (exists u rest,
             rows' = Stemmer.mkStemmerRow (Stemmer.joinComma (Stemmer.Stemmers state))
                       (Stemmer.RemoveDiacritics state) (Stemmer.TokenCharacters state)
                       (Stemmer.Separators state) u :: rest) as [u [rest Hrows]].
  { unfold rows', Stemmer.setStemmerState.
    destruct rows as [|r rows]; simpl; eauto. }
  assert (snd (Stemmer.setStemmerState rows state insertedAt) = None) as Hset.
  { unfold Stemmer.setStemmerState.
    now destruct (Stemmer.getStemmerState rows) as [[? ?] ?]. }
  unfold readBack. rewrite Hrows. unfold Stemmer.getStemmerState.
  cbn [Stemmer.languages Stemmer.removeDiacritics Stemmer.tokenCharacters
       Stemmer.separators Stemmer.updated fst snd].
  split; [exact Hset|]. split; [reflexivity|]. split; [reflexivity|].
  split; [reflexivity|]. split; [reflexivity|]. split.
  - intros Hne.
    destruct (String.length (Stemmer.joinComma (Stemmer.Stemmers state)) =? 0)%nat
      eqn:Hz.
    + apply Nat.eqb_eq in Hz. apply StemmerFacts.join_empty in Hz.
      destruct Hz as [Hnil|Hone]; [|contradiction].
      destruct state as [st rd tc sp]. simpl in *. now subst st.
    + apply Nat.eqb_neq in Hz.
      rewrite StemmerFacts.split_join; [now destruct state| |exact Hplain].
      intros Hnil. apply Hz. rewrite Hnil. reflexivity.
  - intros Hone. rewrite Hone. reflexivity.
Qed.

Lemma setStemmerState_then_getStemmerState_witness :
  (forall x, In x (Stemmer.Stemmers Samples.settings) -> Stemmer.hasComma x = false)
  /\ fst (fst (Stemmer.getStemmerState
                 (fst (Stemmer.setStemmerState [] Samples.settings 42))))
     = Samples.settings.
Proof.
  assert (forall x, In x (Stemmer.Stemmers Samples.settings) ->
                    Stemmer.hasComma x = false) as Hplain.
  { intros x [<-|[<-|[]]]; reflexivity. }
  split; [exact Hplain|].
  destruct (@setStemmerState_then_getStemmerState [] Samples.settings 42 Hplain)
    as [_ [_ [_ [_ [_ [Hsame _]]]]]].
  apply Hsame. discriminate.
Defined.

(** ** Opening the database *)

Module UrlFacts.

Import Opening.

Lemma hasSpace_append (a b : string) :
  hasSpace (a ++ b) = hasSpace a || hasSpace b.
Proof.
  induction a as [|c a IH]; simpl; [reflexivity|].
  now rewrite IH, orb_assoc.
Qed.

Lemma escapeSpaces_clean (path : string) : hasSpace (escapeSpaces path) = false.
Proof.
  induction path as [|c path IH]; simpl; [reflexivity|].
  destruct (Ascii.eqb c " "%char) eqn:Hc; simpl; [exact IH|].
  now rewrite Hc.
Qed.

Lemma escapeSpaces_plain (path : string) :
  hasSpace path = false -> escapeSpaces path = path.
Proof.
  induction path as [|c path IH]; simpl; [reflexivity|].
  destruct (Ascii.eqb c " "%char); simpl; [discriminate|].
  intros H. now rewrite (IH H).
Qed.

Lemma escapeSpaces_length (path : string) :
  String.length (escapeSpaces path)
  = (String.length path + 2 * countSpaces path)%nat.
Proof.
  induction path as [|c path IH]; simpl; [reflexivity|].
  destruct (Ascii.eqb c " "%char); simpl; rewrite IH; lia.
Qed.

End UrlFacts.

(** X15.  The connection URL [getDatabaseURL] builds never holds a space,
    whatever the path and the mode: the escaped path is two characters longer
    for every space of the path, and a path without spaces appears in the URL
    as it is. *)
Theorem getDatabaseURL_has_no_space (abspath : string) (mode : Opening.connectionMode) :
  Opening.hasSpace (Opening.getDatabaseURL abspath mode) = false
  /\ String.length (Opening.escapeSpaces abspath)
     = (String.length abspath + 2 * Opening.countSpaces abspath)%nat
  /\ (Opening.hasSpace abspath = false ->
      Opening.getDatabaseURL abspath mode
      = if mode
        then ("file:" ++ abspath
              ++ "?_journal=WAL&_query_only=true&_foreign_keys=true&_timeout=500&cache=shared")%string
        else ("file:" ++ abspath
              ++ "?_journal=WAL&_foreign_keys=true&_timeout=500&cache=private&_sync=1&_rt=true")%string).
Proof.
  split; [|split].
  - unfold Opening.getDatabaseURL.
    destruct (Bool.eqb mode Opening.readOnly);
      rewrite !UrlFacts.hasSpace_append, UrlFacts.escapeSpaces_clean; reflexivity.
  - apply UrlFacts.escapeSpaces_length.
  - intros H. unfold Opening.getDatabaseURL.
    rewrite (UrlFacts.escapeSpaces_plain abspath H). now destruct mode.
Qed.

Module SpaceFacts.

Import Store Opening.

Section Defaults.

Variable dl : Z.
Variable dd : DocumentID.

Lemma ids_below (rows : list SpaceRow) (r : SpaceRow) :
  In r rows -> sp_spaceID r < nextSpaceID rows.
Proof.
  unfold nextSpaceID. induction rows as [|x rows IH]; simpl; [tauto|].
  intros [->|H]; [lia|]. specialize (IH H). lia.
Qed.

Lemma named_in (rows : list SpaceRow) (space : string) :
  existsb (spaceNamed space) rows = true <-> In space (map sp_space rows).
Proof.
  rewrite existsb_exists, in_map_iff. unfold spaceNamed.
  split; intros [r [H1 H2]]; exists r.
  - apply String.eqb_eq in H2. tauto.
  - split; [tauto|]. now apply String.eqb_eq.
Qed.

Lemma named_append (rows added : list SpaceRow) (space : string) :
  existsb (spaceNamed space) rows = true ->
  existsb (spaceNamed space) (rows ++ added) = true.
Proof. intros H. rewrite existsb_app, H. reflexivity. Qed.

Lemma find_append (rows added : list SpaceRow) (space : string) (r : SpaceRow) :
  find (spaceNamed space) rows = Some r ->
  find (spaceNamed space) (rows ++ added) = Some r.
Proof.
  induction rows as [|x rows IH]; simpl; [discriminate|].
  destruct (spaceNamed space x); auto.
Qed.

Lemma createSpace_step (rows : list SpaceRow) (space : string) :
  NoDup (map sp_space rows) -> NoDup (map sp_spaceID rows) ->
  exists added,
    createSpace dl dd rows space = rows ++ added
    /\ Forall (fun r => sp_space r = space /\ lastUpdatedAtNanos r = 0) added
    /\ NoDup (map sp_space (rows ++ added))
    /\ NoDup (map sp_spaceID (rows ++ added))
    /\ existsb (spaceNamed space) (rows ++ added) = true.
Proof.
  intros Hn Hi. unfold createSpace.
  destruct (existsb (spaceNamed space) rows) eqn:He.
  - exists []. rewrite app_nil_r. repeat split; auto.
  - eexists. split; [reflexivity|]. split; [|split; [|split]].
    + constructor; [|constructor]. simpl. auto.
    + rewrite map_app. simpl. apply NoDup_app; [exact Hn| |].
      * constructor; [simpl; tauto|constructor].
      * intros x Hx [<-|[]]. apply named_in in Hx. congruence.
    + rewrite map_app. simpl. apply NoDup_app; [exact Hi| |].
      * constructor; [simpl; tauto|constructor].
      * intros x Hx [<-|[]]. apply in_map_iff in Hx.
        destruct Hx as [r [Hr1 Hr2]]. apply ids_below in Hr2. lia.
    + rewrite existsb_app. simpl. unfold spaceNamed at 2. simpl.
      rewrite String.eqb_refl. now rewrite orb_true_r.
Qed.

Lemma createSpaces_steps (configured : list string) :
  forall rows : list SpaceRow,
  NoDup (map sp_space rows) -> NoDup (map sp_spaceID rows) ->
  exists added,
    createSpaces dl dd rows configured = rows ++ added
    /\ Forall (fun r => In (sp_space r) configured /\ lastUpdatedAtNanos r = 0)
              added
    /\ NoDup (map sp_space (rows ++ added))
    /\ NoDup (map sp_spaceID (rows ++ added))
    /\ (forall space, In space configured ->
        existsb (spaceNamed space) (rows ++ added) = true).
Proof.
  induction configured as [|space configured IH]; intros rows Hn Hi.
  - exists []. rewrite app_nil_r. simpl. repeat split; auto; tauto.
  - destruct (@createSpace_step rows space Hn Hi)
      as [a1 [E1 [F1 [N1 [I1 R1]]]]].
    destruct (IH (rows ++ a1) N1 I1) as [a2 [E2 [F2 [N2 [I2 R2]]]]].
    exists (a1 ++ a2). rewrite app_assoc.
    split; [|split; [|split; [|split]]]; auto.
    + unfold createSpaces in *. simpl. now rewrite E1.
    + apply Forall_app. split.
      * eapply Forall_impl; [|exact F1]. simpl. intros r [-> H]. auto.
      * eapply Forall_impl; [|exact F2]. simpl. intros r [H1 H2]. auto.
    + intros s [<-|Hs]; [|now apply R2]. now apply named_append.
Qed.

Lemma createSpaces_registered (configured : list string) :
  forall rows : list SpaceRow,
  (forall space, In space configured ->
   existsb (spaceNamed space) rows = true) ->
  createSpaces dl dd rows configured = rows.
Proof.
  unfold createSpaces.
  induction configured as [|space configured IH]; intros rows H; simpl;
    [reflexivity|].
  unfold createSpace at 2. rewrite (H space (or_introl eq_refl)).
  apply IH. intros s Hs. apply H. now right.
Qed.

End Defaults.

End SpaceFacts.

(** X16.  The loop that ends [initDB] only appends to the [spaces] table: the
    rows that were there stay as they are, so the position of every known
    space survives a restart; every configured space is registered afterwards,
    the new rows start at update time 0 and belong to configured spaces, names
    and keys stay unique, and running the loop again changes nothing. *)
Theorem initDB_registers_configured_spaces
  (dl : Z) (dd : DocumentID) (rows : list SpaceRow) (configured : list string) :
  NoDup (map sp_space rows) ->
  NoDup (map sp_spaceID rows) ->
  exists added,
    Opening.createSpaces dl dd rows configured = rows ++ added
    /\ Forall (fun r => In (sp_space r) configured /\ lastUpdatedAtNanos r = 0)
              added
    /\ (forall space r,
        find (Store.spaceNamed space) rows = Some r ->
        find (Store.spaceNamed space)
             (Opening.createSpaces dl dd rows configured) = Some r)
    /\ (forall space, In space configured ->
        exists r,
          find (Store.spaceNamed space)
               (Opening.createSpaces dl dd rows configured) = Some r
          /\ sp_space r = space)
    /\ NoDup (map sp_space (Opening.createSpaces dl dd rows configured))
    /\ NoDup (map sp_spaceID (Opening.createSpaces dl dd rows configured))
    /\ Opening.createSpaces dl dd
         (Opening.createSpaces dl dd rows configured) configured
       = Opening.createSpaces dl dd rows configured.
Proof.
  intros Hn Hi.
  destruct (@SpaceFacts.createSpaces_steps dl dd configured rows Hn Hi)
    as [added [E [F [N [I R]]]]].
  exists added. rewrite E.
  split; [reflexivity|]. split; [exact F|].
  split; [intros space r H; now apply SpaceFacts.find_append|].
  split; [|split; [exact N|split; [exact I|]]].
  - intros space Hs. specialize (R space Hs).
    destruct (find (Store.spaceNamed space) (rows ++ added)) as [r|] eqn:Hf.
    + exists r. split; [reflexivity|].
      apply find_some in Hf. destruct Hf as [_ Hf].
      unfold Store.spaceNamed in Hf. now apply String.eqb_eq in Hf.
    + apply existsb_exists in R. destruct R as [r [R1 R2]].
      pose proof (find_none _ _ Hf r R1). congruence.
  - now apply SpaceFacts.createSpaces_registered.
Qed.

Lemma initDB_registers_configured_spaces_witness :
  NoDup (map sp_space (spaces Samples.coldStore))
  /\ NoDup (map sp_spaceID (spaces Samples.coldStore))
  /\ exists added,
       Opening.createSpaces 0 EmptyString (spaces Samples.coldStore)
                            ["wp"; "news"]%string
       = spaces Samples.coldStore ++ added.
Proof.
  assert (NoDup (map sp_space (spaces Samples.coldStore))) as Hn.
  { simpl. repeat (apply NoDup_cons; [simpl; intuition congruence|]).
    apply NoDup_nil. }
  assert (NoDup (map sp_spaceID (spaces Samples.coldStore))) as Hi.
  { simpl. repeat (apply NoDup_cons; [simpl; intuition congruence|]).
    apply NoDup_nil. }
  split; [exact Hn|]. split; [exact Hi|].
  destruct (@initDB_registers_configured_spaces 0 EmptyString
              (spaces Samples.coldStore) ["wp"; "news"]%string Hn Hi)
    as [added [E _]].
  exists added. exact E.
Defined.

Module SearchLoopFacts.

Import Opening.

Lemma midpoint (i j : nat) :
  (i < j)%nat -> (i <= (i + j) / 2 /\ (i + j) / 2 < j)%nat.
Proof.
  intros H. split.
  - apply Nat.div_le_lower_bound; lia.
  - apply Nat.Div0.div_lt_upper_bound; lia.
Qed.

(** The loop ends within [j - i] passes, at [j] or at an index where [f]
    holds. *)
Lemma searchLoop_ends (f : nat -> bool) (fuel : nat) :
  forall i j : nat,
  (i <= j)%nat -> (j - i <= fuel)%nat ->
  (i <= fst (searchLoop fuel f i j) <= j)%nat
  /\ (fst (searchLoop fuel f i j) = j
      \/ f (fst (searchLoop fuel f i j)) = true).
Proof.
  induction fuel as [|fuel IH]; intros i j Hij Hf; cbn [searchLoop].
  - cbn [fst]. split; [lia|]. left. lia.
  - destruct (i <? j)%nat eqn:Hlt.
    + apply Nat.ltb_lt in Hlt. destruct (midpoint Hlt) as [H1 H2].
      destruct (f ((i + j) / 2)%nat) eqn:Hh; cbn [negb].
      * destruct (IH i ((i + j) / 2)%nat) as [Hb Hr]; [lia|lia|].
        split; [lia|]. right. destruct Hr as [Hr|Hr]; [|exact Hr].
        now rewrite Hr.
      * destruct (IH ((i + j) / 2 + 1)%nat j) as [Hb Hr]; [lia|lia|].
        split; [lia|exact Hr].
    + apply Nat.ltb_ge in Hlt. cbn [fst]. split; [lia|]. left. lia.
Qed.

Lemma searchLoop_none (f : nat -> bool) (fuel : nat) :
  forall i j : nat,
  (i <= j)%nat -> (j - i <= fuel)%nat ->
  (forall k, (i <= k < j)%nat -> f k = false) ->
  fst (searchLoop fuel f i j) = j.
Proof.
  induction fuel as [|fuel IH]; intros i j Hij Hf Hnone; cbn [searchLoop].
  - cbn [fst]. lia.
  - destruct (i <? j)%nat eqn:Hlt.
    + apply Nat.ltb_lt in Hlt. destruct (midpoint Hlt) as [H1 H2].
      rewrite (Hnone ((i + j) / 2)%nat) by lia. cbn [negb].
      apply IH; [lia|lia|]. intros k Hk. apply Hnone. lia.
    + apply Nat.ltb_ge in Hlt. cbn [fst]. lia.
Qed.

Lemma searchLoop_last (f : nat -> bool) (fuel : nat) :
  forall i j : nat,
  (i < j)%nat -> (j - i <= fuel)%nat ->
  f (j - 1)%nat = true ->
  (forall k, (i <= k < j - 1)%nat -> f k = false) ->
  fst (searchLoop fuel f i j) = (j - 1)%nat.
Proof.
  induction fuel as [|fuel IH]; intros i j Hij Hf Hlast Hnone; cbn [searchLoop].
  - cbn [fst]. lia.
  - destruct (i <? j)%nat eqn:Hlt; [|apply Nat.ltb_ge in Hlt; lia].
    destruct (midpoint Hij) as [H1 H2].
    destruct (Nat.eq_dec ((i + j) / 2) (j - 1)) as [He|He].
    + rewrite He, Hlast. cbn [negb]. apply searchLoop_none; [lia|lia|exact Hnone].
    + rewrite (Hnone ((i + j) / 2)%nat) by lia. cbn [negb].
      apply IH; [lia|lia|exact Hlast|]. intros k Hk. apply Hnone. lia.
Qed.

Lemma named_false (drivers : list string) :
  ~ In driver drivers -> existsb (String.eqb driver) drivers = false.
Proof.
  intros H. destruct (existsb (String.eqb driver) drivers) eqn:He;
    [|reflexivity].
  apply existsb_exists in He. destruct He as [x [Hx He]].
  apply String.eqb_eq in He. subst x. contradiction.
Qed.

End SearchLoopFacts.

(** X17.  [registerCustomDriver] looks for its driver name with
    [sort.Search], whose predicate is an equality test.  It skips the
    registration only when the name is among the registered drivers, registers
    when the name is absent, and finds the name when it is the last driver and
    occurs once; but in a list of two drivers that starts with the name, the
    name is missed, and the second [sql.Register] of the same name panics. *)
Theorem registerCustomDriver_outcomes :
  (forall drivers,
     Opening.registerCustomDriver drivers = Opening.Skipped ->
     In Opening.driver drivers)
  /\ (forall drivers,
        ~ In Opening.driver drivers ->
        Opening.registerCustomDriver drivers = Opening.Registered)
  /\ (forall others,
        ~ In Opening.driver others ->
        Opening.registerCustomDriver (others ++ [Opening.driver])
        = Opening.Skipped)
  /\ (forall other,
        other <> Opening.driver ->
        Opening.registerCustomDriver [Opening.driver; other]
        = Opening.RegisterTwicePanic).
Proof.
  split; [|split; [|split]].
  - intros drivers. unfold Opening.registerCustomDriver, Opening.Search.
    set (f := fun i => String.eqb (nth i drivers EmptyString) Opening.driver).
    destruct (@SearchLoopFacts.searchLoop_ends f (List.length drivers) 0%nat
                (List.length drivers)) as [Hb Hr]; [lia|lia|].
    destruct (Nat.eqb_spec
                (fst (Opening.searchLoop (List.length drivers) f 0
                        (List.length drivers))) (List.length drivers))
      as [He|He].
    + destruct (existsb (String.eqb Opening.driver) drivers); discriminate.
    + intros _. destruct Hr as [Hr|Hr]; [contradiction|].
      unfold f in Hr at 1. apply String.eqb_eq in Hr. rewrite <- Hr.
      apply nth_In. lia.
  - intros drivers Habsent.
    unfold Opening.registerCustomDriver, Opening.Search.
    rewrite SearchLoopFacts.searchLoop_none; [|lia|lia|].
    + rewrite Nat.eqb_refl. now rewrite SearchLoopFacts.named_false.
    + intros k Hk. apply String.eqb_neq. intros He. apply Habsent.
      rewrite <- He. apply nth_In. lia.
  - intros others Habsent.
    unfold Opening.registerCustomDriver, Opening.Search.
    rewrite SearchLoopFacts.searchLoop_last.
    + rewrite length_app. simpl.
      destruct (Nat.eqb_spec (List.length others + 1 - 1)
                             (List.length others + 1)); [lia|reflexivity].
    + rewrite length_app. simpl. lia.
    + lia.
    + rewrite length_app. simpl.
      replace (List.length others + 1 - 1)%nat with (List.length others) by lia.
      rewrite nth_middle. apply String.eqb_refl.
    + rewrite length_app. simpl. intros k Hk.
      rewrite app_nth1 by lia. apply String.eqb_neq. intros He.
      apply Habsent. rewrite <- He. apply nth_In. lia.
  - intros other Hother.
    unfold Opening.registerCustomDriver, Opening.Search.
    cbn [List.length Opening.searchLoop Nat.ltb Nat.leb Nat.add Nat.div
         Nat.divmod fst nth].
    apply String.eqb_neq in Hother. rewrite Hother.
    cbn [negb Nat.ltb Nat.leb Nat.add fst Nat.eqb existsb].
    now rewrite String.eqb_refl.
Qed.

(** ** Result pages *)

Module PageFacts.

Import Store Ranking.

Section Engine.

Variable R : Type.
Variable ftsMatch : string -> DocRow -> bool.
Variable snippet : string -> DocRow -> string.
Variable rank : string -> DocRow -> R.
Variable rank_leb : R -> R -> bool.

Hypothesis rank_total : forall a b, rank_leb a b = true \/ rank_leb b a = true.

Lemma rankedAsc_tail (x : SearchResult R) (l : list (SearchResult R)) :
  rankedAsc rank_leb (x :: l) = true -> rankedAsc rank_leb l = true.
Proof.
  cbn [rankedAsc]. intros H. apply andb_true_iff in H. tauto.
Qed.

Lemma insertRanked_ranked (x : SearchResult R) (l : list (SearchResult R)) :
  rankedAsc rank_leb l = true ->
  rankedAsc rank_leb (insertRanked rank_leb x l) = true.
Proof.
  induction l as [|y l IH]; intros Hl; [reflexivity|].
  cbn [insertRanked].
  destruct (rank_leb (sr_Rank x) (sr_Rank y)) eqn:Hxy.
  - change (rank_leb (sr_Rank x) (sr_Rank y)
            && rankedAsc rank_leb (y :: l) = true).
    now rewrite Hxy, Hl.
  - pose proof (@rankedAsc_tail y l Hl) as Ht. specialize (IH Ht).
    destruct (rank_total (sr_Rank x) (sr_Rank y)) as [H|Hyx]; [congruence|].
    destruct l as [|z l].
    + cbn [insertRanked rankedAsc]. now rewrite Hyx.
    + cbn [insertRanked] in IH |- *.
      destruct (rank_leb (sr_Rank x) (sr_Rank z)) eqn:Hxz.
      * change (rank_leb (sr_Rank y) (sr_Rank x)
                && rankedAsc rank_leb (x :: z :: l) = true).
        now rewrite Hyx, IH.
      * change (rank_leb (sr_Rank y) (sr_Rank z)
                && rankedAsc rank_leb (z :: insertRanked rank_leb x l) = true).
        rewrite IH, andb_true_r.
        cbn [rankedAsc] in Hl. apply andb_true_iff in Hl. tauto.
Qed.

Lemma orderByRank_ranked (l : list (SearchResult R)) :
  rankedAsc rank_leb (orderByRank rank_leb l) = true.
Proof.
  induction l as [|x l IH]; [reflexivity|].
  unfold orderByRank in *. cbn [fold_right].
  now apply insertRanked_ranked.
Qed.

Lemma skipn_ranked (n : nat) :
  forall l : list (SearchResult R),
  rankedAsc rank_leb l = true -> rankedAsc rank_leb (skipn n l) = true.
Proof.
  induction n as [|n IH]; intros [|x l] H; auto.
  cbn [skipn]. apply IH. exact (@rankedAsc_tail x l H).
Qed.

Lemma firstn_ranked (n : nat) :
  forall l : list (SearchResult R),
  rankedAsc rank_leb l = true -> rankedAsc rank_leb (firstn n l) = true.
Proof.
  induction n as [|n IH]; intros [|x l] H; auto.
  cbn [firstn]. pose proof (IH l (@rankedAsc_tail x l H)) as Ht.
  destruct n as [|n]; [reflexivity|].
  destruct l as [|y l]; [reflexivity|].
  cbn [firstn] in Ht |- *.
  change (rank_leb (sr_Rank x) (sr_Rank y)
          && rankedAsc rank_leb (y :: firstn n l) = true).
  rewrite Ht, andb_true_r.
  cbn [rankedAsc] in H. apply andb_true_iff in H. tauto.
Qed.

End Engine.

End PageFacts.

(** X18.  For one space and a plain phrase, a page that [search] returns
    holds at most [limit] results, in ascending rank when the rank order is
    total; every result is a live document that matches the phrase and lies
    in the space asked for, with the snippet and the rank the engine gives
    it. *)
Theorem search_page_bounded_ranked_and_sound
  (R : Type) (ftsMatch : string -> DocRow -> bool)
  (snippet : string -> DocRow -> string) (rank : string -> DocRow -> R)
  (rank_leb : R -> R -> bool)
  (splicedQuery :
     Database -> string -> list string -> N -> N
     -> Result (list (Store.SearchResult R)))
  (d : Database) (phrase : string) (space : string) (limit offset : N)
  (page : list (Store.SearchResult R)) :
  (forall a b, rank_leb a b = true \/ rank_leb b a = true) ->
  Store.plainPhrase phrase = true ->
  Store.search ftsMatch snippet rank rank_leb splicedQuery d phrase [space]
               limit offset = Ok page ->
  (List.length page <= N.to_nat limit)%nat
  /\ Ranking.rankedAsc rank_leb page = true
  /\ (forall res,
        In res page ->
        Store.sr_Space res = space
        /\ exists row s,
             In row (docs d) /\ alive row = true /\ ftsMatch phrase row = true
             /\ In s (spaces d) /\ sp_spaceID s = d_spaceID row
             /\ sp_space s = Store.sr_Space res
             /\ Store.sr_ID res = d_docID row
             /\ Store.sr_Snippet res = snippet phrase row
             /\ Store.sr_Rank res = rank phrase row).
Proof.
  intros Htotal Hplain Hpage.
  pose proof Hpage as Hwindow.
  rewrite (@SearchFacts.search_plain R ftsMatch snippet rank rank_leb
             splicedQuery d phrase space limit offset Hplain) in Hwindow.
  inversion Hwindow as [Hw]. split; [|split].
  - apply firstn_le_length.
  - apply PageFacts.firstn_ranked, PageFacts.skipn_ranked,
      PageFacts.orderByRank_ranked; exact Htotal.
  - rewrite Hw. intros res H.
    exact (@SearchFacts.search_inv R ftsMatch snippet rank rank_leb splicedQuery
             d phrase space limit offset page res Hplain Hpage H).
Qed.

Lemma search_page_bounded_ranked_and_sound_witness :
  (forall a b, Z.leb a b = true \/ Z.leb b a = true)
  /\ Store.plainPhrase "word" = true
  /\ Store.search Examples.matchAll Examples.snippetText Examples.rankZero
                  Z.leb Samples.engineRejects Examples.behindStore
                  "word" ["wp"]%string 10 0
     = Ok [Store.mkSearchResult "wp" "a" "old" 0]
  /\ Ranking.rankedAsc Z.leb [Store.mkSearchResult "wp" "a" "old" 0] = true.
Proof.
  assert (forall a b, Z.leb a b = true \/ Z.leb b a = true) as Htotal.
  { intros a b. destruct (Z.leb_spec a b); [now left|].
    right. apply Z.leb_le. lia. }
  split; [exact Htotal|]. split; [reflexivity|]. split; [reflexivity|].
  destruct (@search_page_bounded_ranked_and_sound Z Examples.matchAll
              Examples.snippetText Examples.rankZero Z.leb Samples.engineRejects
              Examples.behindStore "word"%string "wp"%string 10%N 0%N
              [Store.mkSearchResult "wp" "a" "old" 0] Htotal eq_refl eq_refl)
    as [_ [Hranked _]].
  exact Hranked.
Defined.
